(** * ailuyin: the authentication / session-continuity core

    A shallow embedding of the server-side session protocol
    (utils/jwt, config/memoryDb, routes/auth, controllers/authController,
    middleware/auth) and of the client-side response interceptor
    (contexts/AuthContext), with the properties of the specification
    stated and settled against it.

    Conventions.
    - A JavaScript string is a [string]; one [ascii] stands for one
      character.  [undefined] is [None].
    - [Date] values and [Date.now()] are milliseconds in [Z]; every
      operation that reads the clock takes the instant as [now].
    - Random values ([uuidv4()], [crypto.randomBytes]) are inputs.
    - An [async] handler is a function from the request and the store to
      the response and the store; a thrown exception is a [Throw]. *)

From Stdlib Require Import ZArith Lia Ascii String.
From stdpp Require Import base option list strings gmap fin_maps countable.

Local Open Scope string_scope.

(** ** JavaScript values and helpers *)

Module Js.

(** [!!s] for an optional string: [undefined] and [''] are falsy. *)
Definition truthy (s : option string) : bool :=
  match s with
  | Some s => negb (String.eqb s "")
  | None => false
  end.

(** [a || b] where [a] may be undefined or empty. *)
Definition or_else (a : option string) (b : string) : string :=
  match a with
  | Some s => if String.eqb s "" then b else s
  | None => b
  end.

(** [String(v)] as express-validator applies it before a standard
    validator: undefined becomes the empty string. *)
Definition toString (v : option string) : string :=
  match v with
  | Some s => s
  | None => ""
  end.

Definition startsWith (p s : string) : bool := String.prefix p s.

(** [s.substring(n)] *)
Definition substring (n : nat) (s : string) : string :=
  String.substring n (String.length s - n) s.

(** [s.includes(sub)] *)
Definition includes (sub s : string) : bool :=
  match String.index 0 sub s with
  | Some _ => true
  | None => false
  end.

(** [s.split(c)[0]]: the part of [s] before the first [c], all of [s]
    when [c] does not occur. *)
Fixpoint split_head (c : ascii) (s : string) : string :=
  match s with
  | EmptyString => EmptyString
  | String a rest =>
      if Ascii.eqb a c then EmptyString else String a (split_head c rest)
  end.

Definition is_lower (a : ascii) : bool :=
  let n := nat_of_ascii a in (97 <=? n)%nat && (n <=? 122)%nat.
Definition is_upper (a : ascii) : bool :=
  let n := nat_of_ascii a in (65 <=? n)%nat && (n <=? 90)%nat.
Definition is_digit (a : ascii) : bool :=
  let n := nat_of_ascii a in (48 <=? n)%nat && (n <=? 57)%nat.
(** Line terminators: the characters the regular expression [.] refuses. *)
Definition is_line_terminator (a : ascii) : bool :=
  let n := nat_of_ascii a in (n =? 10)%nat || (n =? 13)%nat.
(** [\s] within the modelled character range. *)
Definition is_space (a : ascii) : bool :=
  let n := nat_of_ascii a in
  (n =? 32)%nat || ((9 <=? n)%nat && (n <=? 13)%nat) || (n =? 160)%nat.

Fixpoint existsb (p : ascii -> bool) (s : string) : bool :=
  match s with
  | EmptyString => false
  | String a rest => p a || existsb p rest
  end.

(** The longest prefix matched by [.*] from the start of [s]. *)
Fixpoint first_line (s : string) : string :=
  match s with
  | EmptyString => EmptyString
  | String a rest =>
      if is_line_terminator a then EmptyString else String a (first_line rest)
  end.

Fixpoint trim_start (s : string) : string :=
  match s with
  | EmptyString => EmptyString
  | String a rest => if is_space a then trim_start rest else s
  end.

(** validator.js [trim]: strip white space on both sides. *)
Definition trim (s : string) : string :=
  String.rev (trim_start (String.rev (trim_start s))).

(** Thrown values, by their [name]. *)
Inductive Exception :=
| TokenExpiredError (message : string)
| JsonWebTokenError (message : string)
| TypeError (message : string)
| MongooseError (message : string)
| Error (message : string).

Definition name (e : Exception) : string :=
  match e with
  | TokenExpiredError _ => "TokenExpiredError"
  | JsonWebTokenError _ => "JsonWebTokenError"
  | TypeError _ => "TypeError"
  | MongooseError _ => "MongooseError"
  | Error _ => "Error"
  end.

Inductive Result (A : Type) :=
| Return (a : A)
| Throw (e : Exception).
Arguments Return {A} a.
Arguments Throw {A} e.

(** Sequencing: a [Throw] skips the rest, up to the enclosing [catch]. *)
#[global] Instance Result_bind : MBind Result := fun A B k r =>
  match r with
  | Return a => k a
  | Throw e => Throw e
  end.

End Js.

(** ** The platform: libraries and process environment

    jsonwebtoken, validator.js and bcryptjs are not part of the
    repository.  A signed token is handled through its parsed form: the
    claims and the secret its signature was computed with.  The compact
    serialisation is the library's; [jwt_decode] is its parser. *)

Module Jwt.

Record Payload := {
  userId : string;
  type : option string;
  iat : Z;
  exp : option Z
}.

Record Signed := {
  payload : Payload;
  key : string
}.

End Jwt.

Class Platform := {
  (** [process.env.JWT_SECRET] and [process.env.NODE_ENV] *)
  env_JWT_SECRET : option string;
  env_NODE_ENV : option string;
  (** jsonwebtoken: serialiser and parser of the compact form *)
  jwt_encode : Jwt.Signed -> string;
  jwt_decode : string -> option Jwt.Signed;
  jwt_decode_encode : forall t, jwt_decode (jwt_encode t) = Some t;
  (** validator.js: [isEmail], [normalizeEmail] *)
  validator_isEmail : string -> bool;
  validator_normalizeEmail : string -> string;
  (** bcryptjs: [compare(candidate, hash)] *)
  bcrypt_compare : string -> string -> bool
}.

(** ** utils/jwt *)

Module JwtUtils.
Import Js.

Section WithPlatform.
Context `{Platform}.

Definition JWT_SECRET : string :=
  or_else env_JWT_SECRET "your-secret-key-change-in-production".

(** ['15m'], in seconds as jsonwebtoken adds it to [iat]. *)
Definition JWT_EXPIRES_IN : Z := 15 * 60.

(** 7 days in milliseconds *)
Definition REFRESH_TOKEN_EXPIRES_IN : Z := 7 * 24 * 60 * 60 * 1000.

(** [jwt.sign(payload, secret, { expiresIn })]: [iat] is the clock in
    whole seconds, [exp = iat + expiresIn]. *)
Definition jwt_sign (uid : string) (ty : string) (secret : string)
    (expiresIn : Z) (now : Z) : string :=
  let iat := (now / 1000)%Z in
  jwt_encode
    {| Jwt.payload := {| Jwt.userId := uid; Jwt.type := Some ty;
                         Jwt.iat := iat; Jwt.exp := Some (iat + expiresIn)%Z |};
       Jwt.key := secret |}.

(** [jwt.verify(token, secret)]: parse (an empty or unparsable string
    is a JsonWebTokenError), then signature, then expiry
    ([clockTimestamp >= exp] is expired). *)
Definition jwt_verify (token : string) (secret : string) (now : Z)
    : Result Jwt.Payload :=
  match jwt_decode token with
  | None => Throw (JsonWebTokenError "jwt malformed")
  | Some t =>
      if negb (String.eqb (Jwt.key t) secret)
      then Throw (JsonWebTokenError "invalid signature")
      else
        match Jwt.exp (Jwt.payload t) with
        | Some e =>
            if (e <=? now / 1000)%Z
            then Throw (TokenExpiredError "jwt expired")
            else Return (Jwt.payload t)
        | None => Return (Jwt.payload t)
        end
  end.

Definition generateAccessToken (uid : string) (now : Z) : string :=
  jwt_sign uid "access" JWT_SECRET JWT_EXPIRES_IN now.

(** [crypto.randomBytes(32).toString('hex')]: the random hex string is
    the input. *)
Definition generateRefreshToken (randomHex : string) : string := randomHex.

Definition verifyAccessToken (token : string) (now : Z)
    : Result Jwt.Payload :=
  decoded ← jwt_verify token JWT_SECRET now;
  if bool_decide (Jwt.type decoded = Some "access")
  then Return decoded
  else Throw (Error "Invalid token type").

Definition getRefreshTokenExpiry (now : Z) : Z :=
  (now + REFRESH_TOKEN_EXPIRES_IN)%Z.

End WithPlatform.
End JwtUtils.

(** ** config/memoryDb

    [users] is a [Map] from [_id] to the user; iteration follows insertion
    order, so it is kept as an association list.  [refreshTokens] is a
    [Map] from a token string to a [RefreshTokenModel] object.  The
    objects are mutable and shared between the map and the handler that
    holds them, so the store keeps them in [heap] by address and the map
    holds addresses. *)

Module UserModel.
Record t := {
  _id : string;
  email : option string;
  password : option string;
  nickname : string;
  avatar : option string;
  isEmailVerified : bool;
  createdAt : Z;
  updatedAt : Z;
  lastLoginAt : option Z
}.
End UserModel.

Module RefreshTokenModel.
Record t := {
  _id : string;
  token : string;
  userId : string;
  expiresAt : Z;
  createdAt : Z
}.

Definition set_token (v : string) (d : t) : t :=
  {| _id := _id d; token := v; userId := userId d;
     expiresAt := expiresAt d; createdAt := createdAt d |}.

Definition set_expiresAt (v : Z) (d : t) : t :=
  {| _id := _id d; token := token d; userId := userId d;
     expiresAt := v; createdAt := createdAt d |}.
End RefreshTokenModel.

Module MemoryDb.
Import Js.

Record Store := {
  users : list (string * UserModel.t);
  refreshTokens : gmap string nat;
  heap : list RefreshTokenModel.t
}.

Definition empty : Store :=
  {| users := []; refreshTokens := ∅; heap := [] |}.

(** [Map.prototype.set] on an insertion-ordered map: an existing key
    keeps its place. *)
Fixpoint map_set {V} (k : string) (v : V) (m : list (string * V))
    : list (string * V) :=
  match m with
  | [] => [(k, v)]
  | (k', v') :: m' =>
      if String.eqb k' k then (k, v) :: m' else (k', v') :: map_set k v m'
  end.

Definition with_users (us : list (string * UserModel.t)) (s : Store) : Store :=
  {| users := us; refreshTokens := refreshTokens s; heap := heap s |}.

Definition with_refreshTokens (m : gmap string nat) (s : Store) : Store :=
  {| users := users s; refreshTokens := m; heap := heap s |}.

Definition with_heap (h : list RefreshTokenModel.t) (s : Store) : Store :=
  {| users := users s; refreshTokens := refreshTokens s; heap := h |}.

(** *** UserModel *)

Section WithPlatform.
Context `{Platform}.

(** [new UserModel(data)] *)
Definition User_new (uuid : string) (now : Z)
    (data_email data_password data_nickname data_avatar : option string)
    : Result UserModel.t :=
  nick ← (if truthy data_nickname then Return (toString data_nickname)
          else match data_email with
               | Some e => Return (split_head "@" e)
               | None => Throw (TypeError "Cannot read properties of undefined (reading 'split')")
               end);
  Return {| UserModel._id := uuid;
            UserModel.email := data_email;
            UserModel.password := data_password;
            UserModel.nickname := nick;
            UserModel.avatar := if truthy data_avatar then data_avatar else None;
            UserModel.isEmailVerified := false;
            UserModel.createdAt := now;
            UserModel.updatedAt := now;
            UserModel.lastLoginAt := None |}.

(** [user.comparePassword(candidatePassword)]; bcryptjs rejects when an
    argument is not a string. *)
Definition comparePassword (u : UserModel.t) (candidate : option string)
    : Result bool :=
  match candidate, UserModel.password u with
  | Some c, Some h => Return (bcrypt_compare c h)
  | _, _ => Throw (Error "Illegal arguments")
  end.

End WithPlatform.

(** [user.toJSON()]: the fields without [password]. *)
Record PublicUser := {
  pub_id : string;
  pub_email : option string;
  pub_nickname : string;
  pub_avatar : option string;
  pub_isEmailVerified : bool;
  pub_createdAt : Z;
  pub_updatedAt : Z;
  pub_lastLoginAt : option Z
}.

Definition toJSON (u : UserModel.t) : PublicUser :=
  {| pub_id := UserModel._id u;
     pub_email := UserModel.email u;
     pub_nickname := UserModel.nickname u;
     pub_avatar := UserModel.avatar u;
     pub_isEmailVerified := UserModel.isEmailVerified u;
     pub_createdAt := UserModel.createdAt u;
     pub_updatedAt := UserModel.updatedAt u;
     pub_lastLoginAt := UserModel.lastLoginAt u |}.

(** [user.save()] *)
Definition User_save (u : UserModel.t) (now : Z) (s : Store)
    : UserModel.t * Store :=
  let u' := {| UserModel._id := UserModel._id u;
               UserModel.email := UserModel.email u;
               UserModel.password := UserModel.password u;
               UserModel.nickname := UserModel.nickname u;
               UserModel.avatar := UserModel.avatar u;
               UserModel.isEmailVerified := UserModel.isEmailVerified u;
               UserModel.createdAt := UserModel.createdAt u;
               UserModel.updatedAt := now;
               UserModel.lastLoginAt := UserModel.lastLoginAt u |} in
  (u', with_users (map_set (UserModel._id u) u' (users s)) s).

(** [UserModel.findOne({ email })]: the first user, in insertion order,
    whose email is the queried one; nothing for a falsy query. *)
Definition User_findOne (query_email : option string) (s : Store)
    : option UserModel.t :=
  if truthy query_email
  then snd <$> List.find
         (fun kv => bool_decide (UserModel.email (snd kv) = query_email))
         (users s)
  else None.

(** [UserModel.findById(id)] *)
Definition User_findById (id : string) (s : Store) : option UserModel.t :=
  snd <$> List.find (fun kv => String.eqb (fst kv) id) (users s).

(** *** RefreshTokenModel *)

(** [new RefreshTokenModel(data)]: a new object, at the next address. *)
Definition RefreshToken_new (uuid : string) (now : Z)
    (data_token data_userId : string) (data_expiresAt : Z) (s : Store)
    : nat * Store :=
  let d := {| RefreshTokenModel._id := uuid;
              RefreshTokenModel.token := data_token;
              RefreshTokenModel.userId := data_userId;
              RefreshTokenModel.expiresAt := data_expiresAt;
              RefreshTokenModel.createdAt := now |} in
  (length (heap s), with_heap (heap s ++ [d]) s).

(** [this.save()]: [refreshTokens.set(this.token, this)], keyed by the
    token the object holds when it is saved. *)
Definition RefreshToken_save (this : nat) (s : Store) : Store :=
  match heap s !! this with
  | Some d =>
      with_refreshTokens
        (<[RefreshTokenModel.token d := this]> (refreshTokens s)) s
  | None => s
  end.

(** [RefreshTokenModel.create(data)] *)
Definition RefreshToken_create (uuid : string) (now : Z)
    (data_token data_userId : string) (data_expiresAt : Z) (s : Store)
    : nat * Store :=
  let '(this, s1) := RefreshToken_new uuid now data_token data_userId
                       data_expiresAt s in
  (this, RefreshToken_save this s1).

(** The query object [{ token, expiresAt: { $gt } }]. *)
Record Query := {
  q_token : option string;
  q_expiresAt_gt : option Z
}.

(** [RefreshTokenModel.findOne(query)]: the object under the key
    [query.token], when the query has no [expiresAt] or the object's
    [expiresAt] is greater than [query.expiresAt.$gt]. *)
Definition RefreshToken_findOne (query : Query) (s : Store)
    : option (nat * RefreshTokenModel.t) :=
  if truthy (q_token query) then
    match refreshTokens s !! toString (q_token query) with
    | Some a =>
        match heap s !! a with
        | Some d =>
            match q_expiresAt_gt query with
            | None => Some (a, d)
            | Some gt =>
                if (gt <? RefreshTokenModel.expiresAt d)%Z
                then Some (a, d) else None
            end
        | None => None
        end
    | None => None
    end
  else None.

(** [RefreshTokenModel.deleteOne(query)] *)
Definition RefreshToken_deleteOne (query : Query) (s : Store) : Store :=
  if truthy (q_token query)
  then with_refreshTokens (delete (toString (q_token query)) (refreshTokens s)) s
  else s.

(** Assignment to a field of the object at address [this]. *)
Definition assign (this : nat) (f : RefreshTokenModel.t -> RefreshTokenModel.t)
    (s : Store) : Store :=
  with_heap (alter f this (heap s)) s.

End MemoryDb.

(** ** Requests and responses (express) *)

Module Http.

Record Body := {
  email : option string;
  password : option string;
  nickname : option string
}.

(** An entry of [validationResult(req).array()]. *)
Record ValidationError := {
  msg : string;
  param : string;
  value : option string
}.

Record Request := {
  body : Body;
  cookies_refreshToken : option string;
  headers_authorization : option string;
  (** what the validation chains left on the request *)
  validation : list ValidationError;
  (** [req.user] *)
  user : option MemoryDb.PublicUser
}.

Definition with_body (b : Body) (r : Request) : Request :=
  {| body := b; cookies_refreshToken := cookies_refreshToken r;
     headers_authorization := headers_authorization r;
     validation := validation r; user := user r |}.

Definition with_validation (v : list ValidationError) (r : Request) : Request :=
  {| body := body r; cookies_refreshToken := cookies_refreshToken r;
     headers_authorization := headers_authorization r;
     validation := v; user := user r |}.

Definition with_user (u : option MemoryDb.PublicUser) (r : Request) : Request :=
  {| body := body r; cookies_refreshToken := cookies_refreshToken r;
     headers_authorization := headers_authorization r;
     validation := validation r; user := u |}.

Inductive Json :=
| JErrors (errors : list ValidationError)
| JError (error : string) (code : option string)
| JSession (message : string) (user : MemoryDb.PublicUser) (accessToken : string)
| JAccessToken (accessToken : string)
| JMessage (message : string)
| JUser (user : option MemoryDb.PublicUser).

Record CookieOptions := {
  httpOnly : bool;
  secure : bool;
  sameSite : string;
  maxAge : Z
}.

(** [res.cookie(name, value, options)] and [res.clearCookie(name)]. *)
Inductive Cookie :=
| SetCookie (name value : string) (options : CookieOptions)
| ClearCookie (name : string).

Record Response := {
  status : nat;
  json : Json;
  cookie : option Cookie
}.

(** [res.status(code).json(j)] *)
Definition reply (code : nat) (j : Json) : Response :=
  {| status := code; json := j; cookie := None |}.

End Http.

(** ** routes/auth: the validation chains (express-validator)

    A chain reads one field of the body and runs its items in order: a
    validator tests [String(value)] and records its message when the test
    fails (no item bails out, so every failing validator is recorded), a
    sanitizer replaces the value.  [optional()] skips the chain when the
    field is undefined. *)

Module ExpressValidator.
Import Js Http.

Inductive Field := Femail | Fpassword | Fnickname.

Definition path (f : Field) : string :=
  match f with
  | Femail => "email"
  | Fpassword => "password"
  | Fnickname => "nickname"
  end.

Definition get (f : Field) (b : Body) : option string :=
  match f with
  | Femail => email b
  | Fpassword => password b
  | Fnickname => nickname b
  end.

Definition set (f : Field) (v : option string) (b : Body) : Body :=
  match f with
  | Femail => {| email := v; password := password b; nickname := nickname b |}
  | Fpassword => {| email := email b; password := v; nickname := nickname b |}
  | Fnickname => {| email := email b; password := password b; nickname := v |}
  end.

Inductive Item :=
| Validate (test : string -> bool) (message : string)
| Sanitize (f : string -> string).

Record Chain := {
  field : Field;
  is_optional : bool;
  items : list Item
}.

Definition body (f : Field) : Chain :=
  {| field := f; is_optional := false; items := [] |}.

Definition add (i : Item) (c : Chain) : Chain :=
  {| field := field c; is_optional := is_optional c; items := items c ++ [i] |}.

Definition optional (c : Chain) : Chain :=
  {| field := field c; is_optional := true; items := items c |}.

(** [withMessage] names the message of the last validator of the chain. *)
Fixpoint set_first_message (m : string) (rev_items : list Item) : list Item :=
  match rev_items with
  | [] => []
  | Validate t _ :: rest => Validate t m :: rest
  | Sanitize f :: rest => Sanitize f :: set_first_message m rest
  end.

Definition withMessage (m : string) (c : Chain) : Chain :=
  {| field := field c; is_optional := is_optional c;
     items := rev (set_first_message m (rev (items c))) |}.

Definition isLength (min : nat) (max : option nat) : Chain -> Chain :=
  add (Validate (fun s => (min <=? String.length s)%nat
                          && match max with
                             | Some mx => (String.length s <=? mx)%nat
                             | None => true
                             end) "Invalid value").

Definition notEmpty : Chain -> Chain :=
  add (Validate (fun s => negb (String.eqb s "")) "Invalid value").

(** [/^(?=.*[a-z])(?=.*[A-Z])(?=.*\d)/]: each look-ahead asks for its
    character after any run of characters other than line terminators. *)
Definition password_pattern (s : string) : bool :=
  let l := first_line s in
  existsb is_lower l && existsb is_upper l && existsb is_digit l.

Definition matches (re : string -> bool) : Chain -> Chain :=
  add (Validate re "Invalid value").

Definition trim : Chain -> Chain := add (Sanitize Js.trim).

Fixpoint run_items (f : Field) (its : list Item) (v : option string)
    (errs : list ValidationError) : option string * list ValidationError :=
  match its with
  | [] => (v, errs)
  | Validate test m :: rest =>
      run_items f rest v
        (if test (toString v) then errs
         else errs ++ [{| msg := m; param := path f; value := v |}])
  | Sanitize g :: rest => run_items f rest (g <$> v) errs
  end.

Definition run_chain (c : Chain) (req : Request) : Request :=
  let v := get (field c) (Http.body req) in
  if is_optional c && negb (bool_decide (is_Some v)) then req
  else
    let '(v', errs) := run_items (field c) (items c) v [] in
    with_validation (validation req ++ errs)
      (with_body (set (field c) v' (Http.body req)) req).

(** The chains of a route run in order before its handler. *)
Definition run (chains : list Chain) (req : Request) : Request :=
  fold_left (fun r c => run_chain c r) chains req.

(** [validationResult(req)] *)
Definition validationResult (req : Request) : list ValidationError :=
  validation req.

Section WithPlatform.
Context `{Platform}.

Definition isEmail : Chain -> Chain :=
  add (Validate validator_isEmail "Invalid value").

Definition normalizeEmail : Chain -> Chain :=
  add (Sanitize validator_normalizeEmail).

End WithPlatform.

End ExpressValidator.

Notation "c |> f" := (f c) (at level 45, left associativity, only parsing).

Module Routes.
Import ExpressValidator.

Section WithPlatform.
Context `{Platform}.

Definition registerValidation : list Chain := [
  body Femail
    |> isEmail
    |> normalizeEmail
    |> withMessage "请提供有效的邮箱地址";
  body Fpassword
    |> isLength 8 None
    |> withMessage "密码至少需要8个字符"
    |> matches password_pattern
    |> withMessage "密码必须包含大小写字母和数字";
  body Fnickname
    |> optional
    |> trim
    |> isLength 2 (Some 20)
    |> withMessage "昵称长度应在2-20个字符之间"
].

Definition loginValidation : list Chain := [
  body Femail
    |> isEmail
    |> normalizeEmail
    |> withMessage "请提供有效的邮箱地址";
  body Fpassword
    |> notEmpty
    |> withMessage "请输入密码"
].

End WithPlatform.
End Routes.

(** ** controllers/authController, over the in-memory store

    The [try { ... } catch] of each handler answers 500 for anything
    thrown inside it. *)

Module AuthController.
Import Js Http MemoryDb JwtUtils ExpressValidator.

(** The random values one request draws. *)
Record Entropy := {
  uuid_user : string;
  uuid_token : string;
  randomHex : string
}.

Section WithPlatform.
Context `{Platform}.

Definition refreshCookie (tok : string) : option Cookie :=
  Some (SetCookie "refreshToken" tok
          {| httpOnly := true;
             secure := bool_decide (env_NODE_ENV = Some "production");
             sameSite := "strict";
             maxAge := REFRESH_TOKEN_EXPIRES_IN |}).

(** The tail shared by [register] and [login]: issue both tokens, store
    the refresh record, set the cookie. *)
Definition issue_session (code : nat) (message : string) (u : UserModel.t)
    (rnd : Entropy) (now : Z) (s : Store) : Response * Store :=
  let accessToken := generateAccessToken (UserModel._id u) now in
  let refreshToken := generateRefreshToken (randomHex rnd) in
  let '(_, s') := RefreshToken_create (uuid_token rnd) now refreshToken
                    (UserModel._id u) (getRefreshTokenExpiry now) s in
  ({| status := code;
      json := JSession message (toJSON u) accessToken;
      cookie := refreshCookie refreshToken |}, s').

Definition register (req : Request) (rnd : Entropy) (now : Z) (s : Store)
    : Response * Store :=
  let errors := validationResult req in
  if negb (bool_decide (errors = [])) then (reply 400 (JErrors errors), s)
  else
    let email := Http.email (Http.body req) in
    let password := Http.password (Http.body req) in
    let nickname := Http.nickname (Http.body req) in
    match User_findOne email s with
    | Some existingUser => (reply 400 (JError "该邮箱已被注册" None), s)
    | None =>
        let created :=
          nick ← (if truthy nickname then Return nickname
                  else match email with
                       | Some e => Return (Some (split_head "@" e))
                       | None => Throw (TypeError "Cannot read properties of undefined (reading 'split')")
                       end);
          User_new (uuid_user rnd) now email password nick None in
        match created with
        | Throw _ => (reply 500 (JError "注册失败，请稍后重试" None), s)
        | Return user =>
            let '(user, s1) := User_save user now s in
            issue_session 201 "注册成功" user rnd now s1
        end
    end.

Definition login (req : Request) (rnd : Entropy) (now : Z) (s : Store)
    : Response * Store :=
  let errors := validationResult req in
  if negb (bool_decide (errors = [])) then (reply 400 (JErrors errors), s)
  else
    let email := Http.email (Http.body req) in
    let password := Http.password (Http.body req) in
    match User_findOne email s with
    | None => (reply 401 (JError "邮箱或密码错误" None), s)
    | Some user =>
        match comparePassword user password with
        | Throw _ => (reply 500 (JError "登录失败，请稍后重试" None), s)
        | Return false => (reply 401 (JError "邮箱或密码错误" None), s)
        | Return true =>
            let user :=
              {| UserModel._id := UserModel._id user;
                 UserModel.email := UserModel.email user;
                 UserModel.password := UserModel.password user;
                 UserModel.nickname := UserModel.nickname user;
                 UserModel.avatar := UserModel.avatar user;
                 UserModel.isEmailVerified := UserModel.isEmailVerified user;
                 UserModel.createdAt := UserModel.createdAt user;
                 UserModel.updatedAt := UserModel.updatedAt user;
                 UserModel.lastLoginAt := Some now |} in
            let '(user, s1) := User_save user now s in
            issue_session 200 "登录成功" user rnd now s1
        end
    end.

Definition refreshAccessToken (req : Request) (rnd : Entropy) (now : Z)
    (s : Store) : Response * Store :=
  let refreshToken := cookies_refreshToken req in
  if negb (truthy refreshToken)
  then (reply 401 (JError "未提供刷新令牌" None), s)
  else
    match RefreshToken_findOne
            {| q_token := refreshToken; q_expiresAt_gt := Some now |} s with
    | None => (reply 401 (JError "无效或已过期的刷新令牌" None), s)
    | Some (tokenDoc, doc) =>
        let accessToken := generateAccessToken (RefreshTokenModel.userId doc) now in
        let newRefreshToken := generateRefreshToken (randomHex rnd) in
        let s1 := assign tokenDoc (RefreshTokenModel.set_token newRefreshToken) s in
        let s2 := assign tokenDoc
                    (RefreshTokenModel.set_expiresAt (getRefreshTokenExpiry now)) s1 in
        let s3 := RefreshToken_save tokenDoc s2 in
        ({| status := 200;
            json := JAccessToken accessToken;
            cookie := refreshCookie newRefreshToken |}, s3)
    end.

Definition logout (req : Request) (s : Store) : Response * Store :=
  let refreshToken := cookies_refreshToken req in
  let s' :=
    if truthy refreshToken
    then RefreshToken_deleteOne
           {| q_token := refreshToken; q_expiresAt_gt := None |} s
    else s in
  ({| status := 200;
      json := JMessage "登出成功";
      cookie := Some (ClearCookie "refreshToken") |}, s').

Definition getCurrentUser (req : Request) : Response :=
  reply 200 (JUser (Http.user req)).

(** [router.post('/register', registerValidation, register)] and
    [router.post('/login', loginValidation, login)]. *)
Definition post_register (req : Request) :=
  register (run Routes.registerValidation req).

Definition post_login (req : Request) :=
  login (run Routes.loginValidation req).

End WithPlatform.
End AuthController.

(** ** middleware/auth

    The middleware reads users through the mongoose model
    [User.findById(id).select('-password')], which the repository takes
    from a module outside these sources: the lookup is a parameter that may
    find a user, find none, or fail with an error of mongoose (a cast
    error on the identifier, a lost connection). *)

Module AuthMiddleware.
Import Js Http JwtUtils.

Inductive Outcome :=
| Respond (res : Response)
| Next (req : Request).

Inductive Lookup :=
| Found (user : MemoryDb.PublicUser)
| Missing
| Failed (message : string).

Section WithPlatform.
Context `{Platform}.
Variable User_findById_select : string -> Lookup.

(** The [try] block shared by both middlewares, once the header has the
    bearer form. *)
Definition resolve (authHeader : string) (now : Z)
    : Result (option MemoryDb.PublicUser) :=
  let token := substring 7 authHeader in
  decoded ← verifyAccessToken token now;
  match User_findById_select (Jwt.userId decoded) with
  | Found user => Return (Some user)
  | Missing => Return None
  | Failed m => Throw (MongooseError m)
  end.

Definition has_bearer (authHeader : option string) : bool :=
  truthy authHeader && startsWith "Bearer " (toString authHeader).

Definition authenticate (req : Request) (now : Z) : Outcome :=
  let authHeader := headers_authorization req in
  if negb (has_bearer authHeader)
  then Respond (reply 401 (JError "未提供认证令牌" None))
  else
    match resolve (toString authHeader) now with
    | Return None => Respond (reply 401 (JError "用户不存在" None))
    | Return (Some user) => Next (with_user (Some user) req)
    | Throw error =>
        if String.eqb (name error) "TokenExpiredError"
        then Respond (reply 401 (JError "令牌已过期" (Some "TOKEN_EXPIRED")))
        else if String.eqb (name error) "JsonWebTokenError"
        then Respond (reply 401 (JError "无效的令牌" None))
        else Respond (reply 500 (JError "认证失败" None))
    end.

Definition optionalAuth (req : Request) (now : Z) : Outcome :=
  let authHeader := headers_authorization req in
  if negb (has_bearer authHeader) then Next req
  else
    match resolve (toString authHeader) now with
    | Return (Some user) => Next (with_user (Some user) req)
    | Return None => Next req
    | Throw _ => Next req
    end.

End WithPlatform.
End AuthMiddleware.

(** ** contexts/AuthContext: the response interceptor

    The client runs on one thread; a handler runs without interruption up
    to its next [await].  The rejected-response handler of
    [setupAxiosInterceptors] therefore is two atomic steps: [onRejected],
    from the arrival of a failed response up to [await refreshToken()],
    and [resume], from the settling of that promise to the end of the
    handler ([finally] included).  What a step does to the outside is the
    list of its effects; the continuations that [processQueue] wakes up
    only set a header and replay, so they are listed with the step that
    wakes them. *)

Module AuthContext.
Import Js.

(** [error.config] *)
Record Config := {
  url : option string;
  _retry : bool;
  Authorization : option string
}.

Definition set_retry (c : Config) : Config :=
  {| url := url c; _retry := true; Authorization := Authorization c |}.

Definition set_bearer (token : string) (c : Config) : Config :=
  {| url := url c; _retry := _retry c;
     Authorization := Some ("Bearer " ++ token) |}.

(** A rejected response: [error.response] is absent on a network
    failure, and carries the status otherwise. *)
Record AxiosError := {
  config : Config;
  response : option nat
}.

(** How the promise of [refreshToken()] settles; a rejection carries an
    error object. *)
Inductive Settled :=
| Fulfilled (newToken : string)
| Rejected (refreshError : string).

Inductive Effect :=
(** the handler returns a rejected promise for this request *)
| Reject (c : Config)
(** [refreshToken()]: one [POST /auth/refresh] *)
| CallRefresh
(** [api(originalRequest)] by the handler that ran the refresh *)
| Retry (c : Config)
| Fail (c : Config) (refreshError : string)
(** a queued continuation woken by [prom.resolve(token)]: it sets the
    header and calls [api(originalRequest)] *)
| Resume (c : Config)
(** a queued continuation woken by [prom.reject(error)] *)
| Abort (c : Config) (refreshError : string)
| RemoveItem (key : string)
| RedirectAfter (ms : nat) (href : string).

(** The closure state of [setupAxiosInterceptors], and the handlers
    suspended at [await refreshToken()], each with its
    [originalRequest]. *)
Record State := {
  isRefreshing : bool;
  failedQueue : list Config;
  awaiting : list Config
}.

Definition init : State :=
  {| isRefreshing := false; failedQueue := []; awaiting := [] |}.

(** [processQueue(error, token)]; the queue is emptied by the caller's
    state update. *)
Definition processQueue (error : option string) (token : option string)
    (queue : list Config) : list Effect :=
  List.map (fun prom =>
              match error with
              | Some e => Abort prom e
              | None => Resume (set_bearer (default "null" token) prom)
              end) queue.

Definition is_auth_entry (c : Config) : bool :=
  match url c with
  | Some u => includes "/auth/login" u || includes "/auth/register" u
  | None => false
  end.

(** The condition of the outer [if]: a 401 on a request not yet
    replayed. *)
Definition renewable (error : AxiosError) : bool :=
  bool_decide (response error = Some 401%nat) && negb (_retry (config error)).

Definition onRejected (error : AxiosError) (st : State) : State * list Effect :=
  let originalRequest := config error in
  match response error with
  | None => (st, [Reject originalRequest])
  | Some _ =>
      if renewable error then
        if is_auth_entry originalRequest then (st, [Reject originalRequest])
        else if isRefreshing st then
          ({| isRefreshing := isRefreshing st;
              failedQueue := (failedQueue st ++ [originalRequest])%list;
              awaiting := awaiting st |}, [])
        else
          ({| isRefreshing := true;
              failedQueue := failedQueue st;
              awaiting := (awaiting st ++ [set_retry originalRequest])%list |},
           [CallRefresh])
      else (st, [Reject originalRequest])
  end.

(** The rest of the handler suspended on [originalRequest], once its
    refresh has settled. *)
Definition resume (originalRequest : Config) (r : Settled) (st : State)
    : State * list Effect :=
  let done := {| isRefreshing := false; failedQueue := [];
                 awaiting := awaiting st |} in
  match r with
  | Fulfilled newToken =>
      (done,
       (processQueue None (Some newToken) (failedQueue st)
          ++ [Retry (set_bearer newToken originalRequest)])%list)
  | Rejected refreshError =>
      (done,
       (processQueue (Some refreshError) None (failedQueue st)
          ++ [RemoveItem "accessToken"; RemoveItem "lastLogin";
              RedirectAfter 1000 "/login";
              Fail originalRequest refreshError])%list)
  end.

(** What the environment does: a response fails, or the refresh awaited
    by the [i]-th suspended handler settles. *)
Inductive Event :=
| ResponseError (error : AxiosError)
| RefreshSettled (i : nat) (r : Settled).

Definition step (st : State) (ev : Event) : option (State * list Effect) :=
  match ev with
  | ResponseError error => Some (onRejected error st)
  | RefreshSettled i r =>
      match awaiting st !! i with
      | Some originalRequest =>
          Some (resume originalRequest r
                  {| isRefreshing := isRefreshing st;
                     failedQueue := failedQueue st;
                     awaiting := delete i (awaiting st) |})
      | None => None
      end
  end.

(** A run: the state reached and the effects of each step, in order. *)
Fixpoint run (evs : list Event) (st : State)
    : option (State * list (list Effect)) :=
  match evs with
  | [] => Some (st, [])
  | ev :: rest =>
      '(st1, effs) ← step st ev;
      '(st2, trace) ← run rest st1;
      Some (st2, effs :: trace)
  end.

Definition is_call (e : Effect) : bool :=
  match e with CallRefresh => true | _ => false end.

Definition is_wake (e : Effect) : bool :=
  match e with Resume _ | Abort _ _ => true | _ => false end.

Definition is_settle (ev : Event) : bool :=
  match ev with RefreshSettled _ _ => true | _ => false end.

Definition calls (trace : list (list Effect)) : nat :=
  length (List.filter is_call (concat trace)).

Definition settles (evs : list Event) : nat :=
  length (List.filter is_settle evs).

End AuthContext.

(** ** A concrete platform

    An instance on which the model runs, for the examples below: the
    compact form of a token is the bit string of its code, an address is an
    email when it holds an [@], a password hash is the password after a
    fixed tag. *)

Module Sample.
Import Js.

#[local] Instance Payload_eq_dec : EqDecision Jwt.Payload.
Proof. solve_decision. Defined.

#[local] Instance Signed_eq_dec : EqDecision Jwt.Signed.
Proof. solve_decision. Defined.

#[local] Instance Payload_countable : Countable Jwt.Payload :=
  inj_countable'
    (fun p => (Jwt.userId p, Jwt.type p, Jwt.iat p, Jwt.exp p))
    (fun '(u, t, i, e) =>
       {| Jwt.userId := u; Jwt.type := t; Jwt.iat := i; Jwt.exp := e |})
    (fun p => match p with Jwt.Build_Payload _ _ _ _ => eq_refl end).

#[local] Instance Signed_countable : Countable Jwt.Signed :=
  inj_countable'
    (fun t => (Jwt.payload t, Jwt.key t))
    (fun '(p, k) => {| Jwt.payload := p; Jwt.key := k |})
    (fun t => match t with Jwt.Build_Signed _ _ => eq_refl end).

Fixpoint bits (p : positive) : string :=
  match p with
  | xH => EmptyString
  | xO q => String "0" (bits q)
  | xI q => String "1" (bits q)
  end.

Fixpoint unbits (s : string) : option positive :=
  match s with
  | EmptyString => Some xH
  | String c rest =>
      q ← unbits rest;
      if Ascii.eqb c "0" then Some (xO q)
      else if Ascii.eqb c "1" then Some (xI q)
      else None
  end.

Lemma unbits_bits (p : positive) : unbits (bits p) = Some p.
Proof. induction p as [q IH | q IH |]; simpl; rewrite ?IH; reflexivity. Qed.

Definition encode_token (t : Jwt.Signed) : string := bits (encode t).

Definition decode_token (s : string) : option Jwt.Signed :=
  p ← unbits s; decode p.

Lemma decode_encode_token (t : Jwt.Signed) :
  decode_token (encode_token t) = Some t.
Proof.
  unfold decode_token, encode_token.
  rewrite unbits_bits. simpl. apply decode_encode.
Qed.

Definition platform : Platform := {|
  env_JWT_SECRET := None;
  env_NODE_ENV := None;
  jwt_encode := encode_token;
  jwt_decode := decode_token;
  jwt_decode_encode := decode_encode_token;
  validator_isEmail := existsb (Ascii.eqb "@");
  validator_normalizeEmail := fun s => s;
  bcrypt_compare := fun candidate hash => String.eqb hash ("bcrypt:" ++ candidate)
|}.

End Sample.

(** ** The helpers on small inputs *)

Module Examples.
Import Js ExpressValidator AuthContext.

Example split_head_email : split_head "@" "bob@example.com" = "bob".
Proof. reflexivity. Qed.

Example split_head_no_at : split_head "@" "bob" = "bob".
Proof. reflexivity. Qed.

Example trim_both_sides : Js.trim "  Bob  " = "Bob".
Proof. reflexivity. Qed.

Example bearer_prefix :
  startsWith "Bearer " "Bearer abc" = true
  /\ startsWith "Bearer " "bearer abc" = false
  /\ substring 7 "Bearer abc" = "abc".
Proof. repeat split. Qed.

Example pattern_accepts : password_pattern "Abcd1234" = true.
Proof. reflexivity. Qed.

Example pattern_needs_upper : password_pattern "abcd1234" = false.
Proof. reflexivity. Qed.

Example includes_login :
  includes "/auth/login" "/api/auth/login" = true
  /\ includes "/auth/login" "/auth/refresh" = false.
Proof. split; reflexivity. Qed.

Example issue_then_verify :
  @JwtUtils.verifyAccessToken Sample.platform
    (@JwtUtils.generateAccessToken Sample.platform "u1" 0) 899999
  = Return {| Jwt.userId := "u1"; Jwt.type := Some "access";
              Jwt.iat := 0; Jwt.exp := Some 900%Z |}.
Proof. vm_compute. reflexivity. Qed.

(** At the expiry instant the token is refused. *)
Example verify_at_expiry :
  @JwtUtils.verifyAccessToken Sample.platform
    (@JwtUtils.generateAccessToken Sample.platform "u1" 0) 900000
  = Throw (TokenExpiredError "jwt expired").
Proof. vm_compute. reflexivity. Qed.

End Examples.

(** * Properties *)

(** ** Token issuer (utils/jwt) *)

Module JwtUtilsFacts.
Import Js JwtUtils.

(** A token is expired at [now] when it embeds an expiry that the clock,
    in whole seconds, has reached. *)
Definition expired (p : Jwt.Payload) (now : Z) : Prop :=
  exists e, Jwt.exp p = Some e /\ (e <= now / 1000)%Z.

Definition expiredb (p : Jwt.Payload) (now : Z) : bool :=
  match Jwt.exp p with
  | Some e => (e <=? now / 1000)%Z
  | None => false
  end.

Lemma expiredb_spec p now : expiredb p now = true <-> expired p now.
Proof.
  unfold expiredb, expired. destruct (Jwt.exp p) as [e|].
  - rewrite Z.leb_le. split; [eauto | intros (e' & [= <-] & Hle); exact Hle].
  - split; [discriminate | intros (e' & [=] & _)].
Qed.

Section WithPlatform.
Context `{Platform}.

(** [verifyAccessToken] by cases, in the order the checks are made. *)
Lemma verifyAccessToken_unfold (token : string) (now : Z) :
  verifyAccessToken token now =
  match jwt_decode token with
  | None => Throw (JsonWebTokenError "jwt malformed")
  | Some t =>
      if negb (String.eqb (Jwt.key t) JWT_SECRET)
      then Throw (JsonWebTokenError "invalid signature")
      else if expiredb (Jwt.payload t) now
      then Throw (TokenExpiredError "jwt expired")
      else if bool_decide (Jwt.type (Jwt.payload t) = Some "access")
      then Return (Jwt.payload t)
      else Throw (Error "Invalid token type")
  end.
Proof.
  unfold verifyAccessToken, jwt_verify, expiredb.
  destruct (jwt_decode token) as [t|]; [|reflexivity].
  destruct (negb _); [reflexivity|].
  destruct (Jwt.exp (Jwt.payload t)) as [e|]; [|reflexivity].
  destruct (e <=? now / 1000)%Z; reflexivity.
Qed.

Lemma verify_issued (uid : string) (now now' : Z) :
  (now' / 1000 < now / 1000 + JWT_EXPIRES_IN)%Z ->
  verifyAccessToken (generateAccessToken uid now) now' =
  Return {| Jwt.userId := uid; Jwt.type := Some "access";
            Jwt.iat := (now / 1000)%Z;
            Jwt.exp := Some (now / 1000 + JWT_EXPIRES_IN)%Z |}.
Proof.
  intros Hfresh. rewrite verifyAccessToken_unfold.
  unfold generateAccessToken, jwt_sign. rewrite jwt_decode_encode. simpl.
  rewrite String.eqb_refl. simpl.
  unfold expiredb. simpl.
  destruct (Z.leb_spec (now / 1000 + JWT_EXPIRES_IN) (now' / 1000)); [lia|].
  reflexivity.
Qed.

Lemma verify_wrong_type (token : string) (t : Jwt.Signed) (now : Z) :
  jwt_decode token = Some t ->
  Jwt.key t = JWT_SECRET ->
  expiredb (Jwt.payload t) now = false ->
  Jwt.type (Jwt.payload t) <> Some "access" ->
  verifyAccessToken token now = Throw (Error "Invalid token type").
Proof.
  intros Hdec Hkey Hexp Hty. rewrite verifyAccessToken_unfold, Hdec, Hkey.
  rewrite String.eqb_refl. simpl. rewrite Hexp.
  rewrite bool_decide_eq_false_2 by exact Hty. reflexivity.
Qed.

Lemma verify_expired (token : string) (t : Jwt.Signed) (now : Z) :
  jwt_decode token = Some t ->
  Jwt.key t = JWT_SECRET ->
  expiredb (Jwt.payload t) now = true ->
  verifyAccessToken token now = Throw (TokenExpiredError "jwt expired").
Proof.
  intros Hdec Hkey Hexp. rewrite verifyAccessToken_unfold, Hdec, Hkey.
  rewrite String.eqb_refl. simpl. rewrite Hexp. reflexivity.
Qed.


End WithPlatform.
End JwtUtilsFacts.

Module TokenIssuer.
Import Js JwtUtils JwtUtilsFacts.

(** A token signed with the server's secret, of type ["refresh"], that
    expires at second 100: live at millisecond 1000, long expired at
    millisecond 200000. *)
Definition refresh_typed : Jwt.Signed :=
  {| Jwt.payload := {| Jwt.userId := "u1"; Jwt.type := Some "refresh";
                       Jwt.iat := 0; Jwt.exp := Some 100%Z |};
     Jwt.key := @JWT_SECRET Sample.platform |}.

(** An access token signed with another secret, with the same expiry. *)
Definition forged_access : Jwt.Signed :=
  {| Jwt.payload := {| Jwt.userId := "u1"; Jwt.type := Some "access";
                       Jwt.iat := 0; Jwt.exp := Some 100%Z |};
     Jwt.key := "another-secret" |}.

(** C5, as stated, fails: a validly signed token whose type is not
    ["access"] and which is past its expiry is refused as expired, not as
    a token of the wrong type, because [jwt.verify] checks the expiry
    before [verifyAccessToken] looks at the type; and a token past its
    expiry whose signature does not verify is refused for its signature,
    not as expired. *)
Lemma wrong_type_past_expiry_is_expired :
  (Jwt.key refresh_typed = @JWT_SECRET Sample.platform
   /\ Jwt.type (Jwt.payload refresh_typed) = Some "refresh"
   /\ Jwt.exp (Jwt.payload refresh_typed) = Some 100%Z
   /\ @verifyAccessToken Sample.platform
        (@jwt_encode Sample.platform refresh_typed) 200000
      = Throw (TokenExpiredError "jwt expired"))
  /\ (Jwt.exp (Jwt.payload forged_access) = Some 100%Z
      /\ @verifyAccessToken Sample.platform
           (@jwt_encode Sample.platform forged_access) 200000
         = Throw (JsonWebTokenError "invalid signature")).
Proof. vm_compute. repeat split; reflexivity. Qed.

(** C5 (amended): for every userId, the token of
    [generateAccessToken userId], verified before its expiry (at the
    instant of issue in particular), yields the same userId with type
    ["access"]; [verifyAccessToken] fails with the wrong-type error for
    every validly signed token that is not expired and whose type is not
    ["access"], and fails with the expiry error for every validly signed
    token whose embedded expiry has been reached. *)
Theorem access_token_verification `{Platform} :
  (forall (uid : string) (now now' : Z),
      (now' / 1000 < now / 1000 + JWT_EXPIRES_IN)%Z ->
      verifyAccessToken (generateAccessToken uid now) now' =
      Return {| Jwt.userId := uid; Jwt.type := Some "access";
                Jwt.iat := (now / 1000)%Z;
                Jwt.exp := Some (now / 1000 + JWT_EXPIRES_IN)%Z |})
  /\ (forall (token : string) (t : Jwt.Signed) (now : Z),
         jwt_decode token = Some t ->
         Jwt.key t = JWT_SECRET ->
         Jwt.type (Jwt.payload t) <> Some "access" ->
         ~ expired (Jwt.payload t) now ->
         verifyAccessToken token now = Throw (Error "Invalid token type"))
  /\ (forall (token : string) (t : Jwt.Signed) (now : Z),
         jwt_decode token = Some t ->
         Jwt.key t = JWT_SECRET ->
         expired (Jwt.payload t) now ->
         verifyAccessToken token now = Throw (TokenExpiredError "jwt expired")).
Proof.
  split; [|split].
  - intros uid now now' Hwin. apply verify_issued, Hwin.
  - intros token t now Hdec Hkey Hty Hlive.
    apply (verify_wrong_type token t); try assumption.
    destruct (expiredb (Jwt.payload t) now) eqn:E; [|reflexivity].
    apply expiredb_spec in E. contradiction.
  - intros token t now Hdec Hkey Hexp.
    apply (verify_expired token t); try assumption.
    apply expiredb_spec, Hexp.
Qed.

Lemma access_token_verification_witness :
  @verifyAccessToken Sample.platform
    (@generateAccessToken Sample.platform "u1" 5000) 5000
  = Return {| Jwt.userId := "u1"; Jwt.type := Some "access";
              Jwt.iat := 5; Jwt.exp := Some 905%Z |}
  /\ @verifyAccessToken Sample.platform
       (@jwt_encode Sample.platform refresh_typed) 1000
     = Throw (Error "Invalid token type")
  /\ @verifyAccessToken Sample.platform
       (@jwt_encode Sample.platform refresh_typed) 200000
     = Throw (TokenExpiredError "jwt expired").
Proof.
  destruct (@access_token_verification Sample.platform) as (Hissue & Htype & Hexp).
  split; [|split].
  - apply (Hissue "u1" 5000%Z 5000%Z). vm_compute. reflexivity.
  - apply (Htype _ refresh_typed 1000%Z).
    + apply Sample.decode_encode_token.
    + reflexivity.
    + discriminate.
    + intros (e & He & Hle). vm_compute in He. injection He as <-.
      vm_compute in Hle. apply Hle. reflexivity.
  - apply (Hexp _ refresh_typed 200000%Z).
    + apply Sample.decode_encode_token.
    + reflexivity.
    + exists 100%Z. split; [reflexivity | vm_compute; discriminate].
Defined.

End TokenIssuer.

(** ** Authentication middleware (middleware/auth) *)

Module Middleware.
Import Js Http JwtUtils JwtUtilsFacts AuthMiddleware.


(** The bearer token of a request, when the header has the bearer form. *)
Definition bearer (req : Request) : option string :=
  if has_bearer (headers_authorization req)
  then Some (substring 7 (toString (headers_authorization req)))
  else None.

Section WithPlatform.
Context `{Platform}.
Variable lookup : string -> Lookup.


Lemma bearer_None (req : Request) :
  bearer req = None -> has_bearer (headers_authorization req) = false.
Proof. unfold bearer. destruct (has_bearer _); [discriminate | reflexivity]. Qed.

Lemma bearer_Some (req : Request) (token : string) :
  bearer req = Some token ->
  has_bearer (headers_authorization req) = true
  /\ token = substring 7 (toString (headers_authorization req)).
Proof.
  unfold bearer. destruct (has_bearer _); [|discriminate].
  intros [= <-]. split; reflexivity.
Qed.

(** [authenticate] by the outcome of [resolve]. *)
Lemma authenticate_bearer (req : Request) (now : Z) (token : string) :
  bearer req = Some token ->
  authenticate lookup req now =
  match verifyAccessToken token now with
  | Throw error =>
      if String.eqb (name error) "TokenExpiredError"
      then Respond (reply 401 (JError "令牌已过期" (Some "TOKEN_EXPIRED")))
      else if String.eqb (name error) "JsonWebTokenError"
      then Respond (reply 401 (JError "无效的令牌" None))
      else Respond (reply 500 (JError "认证失败" None))
  | Return decoded =>
      match lookup (Jwt.userId decoded) with
      | Found user => Next (with_user (Some user) req)
      | Missing => Respond (reply 401 (JError "用户不存在" None))
      | Failed _ => Respond (reply 500 (JError "认证失败" None))
      end
  end.
Proof.
  intros Hb. apply bearer_Some in Hb as [Hhas ->].
  unfold authenticate, resolve. rewrite Hhas. simpl.
  destruct (verifyAccessToken _ now) as [decoded | error]; simpl.
  - destruct (lookup (Jwt.userId decoded)); reflexivity.
  - reflexivity.
Qed.

Lemma optionalAuth_bearer (req : Request) (now : Z) (token : string) :
  bearer req = Some token ->
  optionalAuth lookup req now =
  match verifyAccessToken token now with
  | Return decoded =>
      match lookup (Jwt.userId decoded) with
      | Found user => Next (with_user (Some user) req)
      | _ => Next req
      end
  | Throw _ => Next req
  end.
Proof.
  intros Hb. apply bearer_Some in Hb as [Hhas ->].
  unfold optionalAuth, resolve. rewrite Hhas. simpl.
  destruct (verifyAccessToken _ now) as [decoded | error]; simpl.
  - destruct (lookup (Jwt.userId decoded)); reflexivity.
  - reflexivity.
Qed.


End WithPlatform.
End Middleware.

Module MiddlewareContract.
Import Js Http JwtUtils JwtUtilsFacts AuthMiddleware Middleware.


(** [req'] is [req] with [req.user] set to [u], and nothing else
    changed. *)
Definition attached (u : MemoryDb.PublicUser) (req req' : Request) : Prop :=
  Http.user req' = Some u
  /\ body req' = body req
  /\ cookies_refreshToken req' = cookies_refreshToken req
  /\ headers_authorization req' = headers_authorization req
  /\ validation req' = validation req.

Lemma with_user_attached (u : MemoryDb.PublicUser) (req : Request) :
  attached u req (with_user (Some u) req).
Proof. repeat split. Qed.


(** C9: [optionalAuth] never answers the request itself: whatever the
    header, the token and the lookup, the request goes on to the next
    handler; it goes on with [req.user] set to the user when the token
    verifies and the lookup finds the user, and as it arrived in every
    other case. *)
Theorem optionalAuth_always_proceeds `{Platform} (lookup : string -> Lookup)
    (req : Request) (now : Z) :
  exists req',
    optionalAuth lookup req now = Next req'
    /\ (forall token decoded user, bearer req = Some token ->
          verifyAccessToken token now = Return decoded ->
          lookup (Jwt.userId decoded) = Found user ->
          attached user req req')
    /\ ((~ exists token decoded user, bearer req = Some token
            /\ verifyAccessToken token now = Return decoded
            /\ lookup (Jwt.userId decoded) = Found user) ->
          req' = req).
Proof.
  destruct (bearer req) as [token|] eqn:Hb.
  - rewrite (optionalAuth_bearer lookup req now token Hb).
    destruct (verifyAccessToken token now) as [decoded | e] eqn:Hv.
    + destruct (lookup (Jwt.userId decoded)) as [user | | m] eqn:Hl.
      * exists (with_user (Some user) req). split; [reflexivity|]. split.
        -- intros token' decoded' user' Hb' Hv' Hl'.
           injection Hb' as <-. rewrite Hv in Hv'. injection Hv' as <-.
           rewrite Hl in Hl'. injection Hl' as <-. apply with_user_attached.
        -- intros Hnone. exfalso. apply Hnone.
           exists token, decoded, user. auto.
      * exists req. split; [reflexivity|]. split; [|reflexivity].
        intros token' decoded' user' Hb' Hv' Hl'.
        injection Hb' as <-. rewrite Hv in Hv'. injection Hv' as <-.
        rewrite Hl in Hl'. discriminate.
      * exists req. split; [reflexivity|]. split; [|reflexivity].
        intros token' decoded' user' Hb' Hv' Hl'.
        injection Hb' as <-. rewrite Hv in Hv'. injection Hv' as <-.
        rewrite Hl in Hl'. discriminate.
    + exists req. split; [reflexivity|]. split; [|reflexivity].
      intros token' decoded' user' Hb' Hv' Hl'.
      injection Hb' as <-. rewrite Hv in Hv'. discriminate.
  - apply bearer_None in Hb. unfold optionalAuth. rewrite Hb. simpl.
    exists req. split; [reflexivity|]. split; [|reflexivity].
    intros token decoded user Hb'. discriminate.
Qed.

(** *** Sample requests *)

Definition alice_public : MemoryDb.PublicUser :=
  {| MemoryDb.pub_id := "u1";
     MemoryDb.pub_email := Some "alice@example.com";
     MemoryDb.pub_nickname := "alice";
     MemoryDb.pub_avatar := None;
     MemoryDb.pub_isEmailVerified := false;
     MemoryDb.pub_createdAt := 0;
     MemoryDb.pub_updatedAt := 0;
     MemoryDb.pub_lastLoginAt := None |}.

Definition only_alice (id : string) : Lookup :=
  if String.eqb id "u1" then Found alice_public else Missing.

Definition with_header (h : option string) : Request :=
  {| body := {| email := None; password := None; nickname := None |};
     cookies_refreshToken := None;
     headers_authorization := h;
     validation := [];
     user := None |}.

(** The access token of user ["u1"] issued at instant 0: it expires at
    second 900. *)
Definition alice_bearer : Request :=
  with_header (Some ("Bearer " ++ @generateAccessToken Sample.platform "u1" 0)).



Lemma optionalAuth_always_proceeds_witness :
  (exists req',
     @optionalAuth Sample.platform only_alice alice_bearer 1000 = Next req'
     /\ Http.user req' = Some alice_public
     /\ headers_authorization req' = headers_authorization alice_bearer)
  /\ @optionalAuth Sample.platform only_alice alice_bearer 900000
     = Next alice_bearer.
Proof.
  split.
  - destruct (@optionalAuth_always_proceeds Sample.platform only_alice
                alice_bearer 1000%Z) as (req' & Hnext & Hattach & _).
    destruct (Hattach (@generateAccessToken Sample.platform "u1" 0)
                {| Jwt.userId := "u1"; Jwt.type := Some "access";
                   Jwt.iat := 0%Z; Jwt.exp := Some 900%Z |}
                alice_public)
      as (Huser & _ & _ & Hheader & _);
      [vm_compute; reflexivity | vm_compute; reflexivity | reflexivity |].
    exists req'. split; [exact Hnext|]. split; [exact Huser | exact Hheader].
  - destruct (@optionalAuth_always_proceeds Sample.platform only_alice
                alice_bearer 900000%Z) as (req' & Hnext & _ & Hplain).
    rewrite Hnext. f_equal. apply Hplain.
    intros (token & decoded & user & Hb & Hv & _).
    vm_compute in Hb. injection Hb as <-. vm_compute in Hv. discriminate.
Defined.

End MiddlewareContract.

(** ** Refresh token ledger and the refresh / logout handlers *)

Module Ledger.
Import Js Http MemoryDb JwtUtils AuthController.

(** [findValid(token)] at [now]: the lookup [refreshAccessToken] makes. *)
Definition findValid (token : option string) (now : Z) (s : Store)
    : option (nat * RefreshTokenModel.t) :=
  RefreshToken_findOne {| q_token := token; q_expiresAt_gt := Some now |} s.

(** The token has a record in the map, whatever its expiry. *)
Definition recorded (token : string) (s : Store) (d : RefreshTokenModel.t) : Prop :=
  exists a, refreshTokens s !! token = Some a /\ heap s !! a = Some d.

Lemma truthy_Some (o : option string) :
  truthy o = true -> exists t, o = Some t /\ t <> "".
Proof.
  destruct o as [t|]; simpl; [|discriminate].
  destruct (String.eqb_spec t ""); [discriminate|]. eauto.
Qed.

Lemma truthy_intro (t : string) : t <> "" -> truthy (Some t) = true.
Proof. intros Hne. simpl. destruct (String.eqb_spec t ""); [contradiction | reflexivity]. Qed.

Lemma findValid_Some (token : option string) (now : Z) (s : Store) a d :
  findValid token now s = Some (a, d) ->
  exists t, token = Some t /\ t <> "" /\ refreshTokens s !! t = Some a
            /\ heap s !! a = Some d /\ (now < RefreshTokenModel.expiresAt d)%Z.
Proof.
  unfold findValid, RefreshToken_findOne. simpl.
  destruct (truthy token) eqn:Ht; [|discriminate].
  apply truthy_Some in Ht as (t & -> & Hne). simpl.
  destruct (refreshTokens s !! t) as [a'|] eqn:Hm; [|discriminate].
  destruct (heap s !! a') as [d'|] eqn:Hh; [|discriminate].
  destruct (Z.ltb_spec now (RefreshTokenModel.expiresAt d')); [|discriminate].
  intros [= <- <-]. exists t. auto.
Qed.

Lemma findValid_live (t : string) (now : Z) (s : Store) a d :
  t <> "" -> refreshTokens s !! t = Some a -> heap s !! a = Some d ->
  (now < RefreshTokenModel.expiresAt d)%Z ->
  findValid (Some t) now s = Some (a, d).
Proof.
  intros Hne Hm Hh Hlt. unfold findValid, RefreshToken_findOne.
  cbn [q_token q_expiresAt_gt]. rewrite (truthy_intro t Hne).
  cbn [toString]. rewrite Hm, Hh.
  destruct (Z.ltb_spec now (RefreshTokenModel.expiresAt d)); [reflexivity | lia].
Qed.

Lemma findValid_expired (t : string) (now : Z) (s : Store) d :
  recorded t s d -> (RefreshTokenModel.expiresAt d <= now)%Z ->
  findValid (Some t) now s = None.
Proof.
  intros (a & Hm & Hh) Hle. unfold findValid, RefreshToken_findOne.
  cbn [q_token q_expiresAt_gt]. destruct (truthy (Some t)); [|reflexivity].
  cbn [toString]. rewrite Hm, Hh.
  destruct (Z.ltb_spec now (RefreshTokenModel.expiresAt d)); [lia | reflexivity].
Qed.

Section WithPlatform.
Context `{Platform}.

Lemma refresh_missing (req : Request) rnd now s :
  truthy (cookies_refreshToken req) = false ->
  refreshAccessToken req rnd now s
  = (reply 401 (JError "未提供刷新令牌" None), s).
Proof. intros Hc. unfold refreshAccessToken. rewrite Hc. reflexivity. Qed.

Lemma refresh_not_found (req : Request) rnd now s :
  truthy (cookies_refreshToken req) = true ->
  findValid (cookies_refreshToken req) now s = None ->
  refreshAccessToken req rnd now s
  = (reply 401 (JError "无效或已过期的刷新令牌" None), s).
Proof.
  intros Hc Hf. unfold refreshAccessToken. rewrite Hc. simpl.
  unfold findValid in Hf. rewrite Hf. reflexivity.
Qed.

(** What a successful refresh does to the store. *)
Definition rotated (a : nat) (newToken : string) (now : Z) (s : Store) : Store :=
  RefreshToken_save a
    (assign a (RefreshTokenModel.set_expiresAt (getRefreshTokenExpiry now))
       (assign a (RefreshTokenModel.set_token newToken) s)).

Lemma refresh_found (req : Request) rnd now s a d :
  findValid (cookies_refreshToken req) now s = Some (a, d) ->
  refreshAccessToken req rnd now s
  = ({| status := 200;
        json := JAccessToken (generateAccessToken (RefreshTokenModel.userId d) now);
        cookie := refreshCookie (randomHex rnd) |},
     rotated a (randomHex rnd) now s).
Proof.
  intros Hf. unfold refreshAccessToken.
  destruct (findValid_Some _ _ _ _ _ Hf) as (t & Hc & Hne & _).
  rewrite Hc, (truthy_intro t Hne). simpl.
  rewrite Hc in Hf. unfold findValid in Hf. rewrite Hf. reflexivity.
Qed.

End WithPlatform.

(** The store after a rotation of the object at [a], whose record was
    [d]: the object holds the new token and expiry, and the map has one
    more key, the new token, for the same object. *)
Lemma rotated_store (a : nat) (newToken : string) (now : Z) (s : Store) d :
  heap s !! a = Some d ->
  let d' := RefreshTokenModel.set_expiresAt (getRefreshTokenExpiry now)
              (RefreshTokenModel.set_token newToken d) in
  rotated a newToken now s
  = {| users := users s;
       refreshTokens := <[newToken := a]> (refreshTokens s);
       heap := <[a := d']> (heap s) |}.
Proof.
  intros Hh d'. unfold rotated, RefreshToken_save, assign. simpl.
  rewrite !list_lookup_alter_eq, Hh. simpl.
  unfold with_refreshTokens, with_heap. simpl. f_equal.
  apply list_eq. intros i. destruct (decide (i = a)) as [->|Hne].
  - rewrite !list_lookup_alter_eq, Hh. simpl.
    rewrite list_lookup_insert_eq; [reflexivity|].
    apply lookup_lt_Some in Hh. exact Hh.
  - rewrite !list_lookup_alter_ne by auto.
    rewrite list_lookup_insert_ne by auto. reflexivity.
Qed.

(** *** Sample data *)

(** One live session: the record of token ["R1"] of user ["u1"], created
    at instant 0. *)
Definition one_session : Store :=
  snd (RefreshToken_create "rt-1" 0 "R1" "u1" (getRefreshTokenExpiry 0) MemoryDb.empty).

Definition with_cookie (token : string) : Request :=
  {| body := {| email := None; password := None; nickname := None |};
     cookies_refreshToken := Some token;
     headers_authorization := None;
     validation := [];
     user := None |}.

Definition draws (hex : string) : Entropy :=
  {| uuid_user := ""; uuid_token := ""; randomHex := hex |}.

Definition without_cookie : Request :=
  {| body := {| email := None; password := None; nickname := None |};
     cookies_refreshToken := None;
     headers_authorization := None;
     validation := [];
     user := None |}.

End Ledger.

Module RefreshFlow.
Import Js Http MemoryDb JwtUtils AuthController Ledger.

(** C4: [refreshAccessToken] answers 401 "no refresh token" whenever the
    cookie is absent (undefined or empty), and 401 "invalid or expired"
    whenever the presented token is not found by the lookup; the lookup
    returns a record only if its [expiresAt] is strictly greater than
    [now]; a token whose record is present but expired gets the very
    response of a token with no record, and the store is left as it
    was. *)
Theorem refresh_rejections `{Platform} (req : Request) (rnd : Entropy)
    (now : Z) (s : Store) :
  (truthy (cookies_refreshToken req) = false ->
     refreshAccessToken req rnd now s
     = (reply 401 (JError "未提供刷新令牌" None), s))
  /\ (truthy (cookies_refreshToken req) = true ->
      findValid (cookies_refreshToken req) now s = None ->
      refreshAccessToken req rnd now s
      = (reply 401 (JError "无效或已过期的刷新令牌" None), s))
  /\ (forall a d, findValid (cookies_refreshToken req) now s = Some (a, d) ->
        (now < RefreshTokenModel.expiresAt d)%Z)
  /\ (forall t d, cookies_refreshToken req = Some t -> t <> "" ->
        recorded t s d -> (RefreshTokenModel.expiresAt d <= now)%Z ->
        findValid (Some t) now s = None
        /\ forall s0, refreshTokens s0 !! t = None ->
             fst (refreshAccessToken req rnd now s)
             = fst (refreshAccessToken req rnd now s0)
             /\ snd (refreshAccessToken req rnd now s) = s
             /\ snd (refreshAccessToken req rnd now s0) = s0).
Proof.
  repeat apply conj.
  - apply refresh_missing.
  - apply refresh_not_found.
  - intros a d Hf. apply findValid_Some in Hf as (t & _ & _ & _ & _ & Hlt).
    exact Hlt.
  - intros t d Hc Hne Hrec Hle.
    pose proof (findValid_expired t now s d Hrec Hle) as Hnone.
    split; [exact Hnone|]. intros s0 Hs0.
    assert (Ht : truthy (cookies_refreshToken req) = true)
      by (rewrite Hc; apply truthy_intro, Hne).
    rewrite (refresh_not_found req rnd now s Ht) by (rewrite Hc; exact Hnone).
    rewrite (refresh_not_found req rnd now s0 Ht).
    + repeat split.
    + rewrite Hc. unfold findValid, RefreshToken_findOne.
      cbn [q_token q_expiresAt_gt]. rewrite (truthy_intro t Hne).
      cbn [toString]. rewrite Hs0. reflexivity.
Qed.

(** C6: [logout] always answers 200 with the same body and clears the
    cookie; afterwards no lookup with the token of the cookie finds a
    record; a second call with the same cookie gives the same response
    and the same store; without a cookie the store is untouched. *)
Theorem logout_idempotent (req : Request) (s : Store) :
  fst (logout req s)
  = {| status := 200; json := JMessage "登出成功";
       cookie := Some (ClearCookie "refreshToken") |}
  /\ (forall g, RefreshToken_findOne
                  {| q_token := cookies_refreshToken req; q_expiresAt_gt := g |}
                  (snd (logout req s)) = None)
  /\ (forall t, cookies_refreshToken req = Some t -> t <> "" ->
        refreshTokens (snd (logout req s)) !! t = None)
  /\ logout req (snd (logout req s)) = logout req s
  /\ (truthy (cookies_refreshToken req) = false -> snd (logout req s) = s).
Proof.
  unfold logout, RefreshToken_deleteOne, RefreshToken_findOne.
  cbn [fst snd q_token q_expiresAt_gt].
  destruct (truthy (cookies_refreshToken req)) eqn:Ht.
  - apply truthy_Some in Ht as (t & -> & Hne).
    cbn [toString with_refreshTokens refreshTokens heap users].
    repeat apply conj; try reflexivity.
    + intros g. rewrite lookup_delete_eq. reflexivity.
    + intros t' [= <-] _. apply lookup_delete_eq.
    + f_equal. unfold with_refreshTokens. cbn. f_equal.
      apply delete_delete_eq.
    + discriminate.
  - repeat apply conj; try reflexivity.
    intros t Hc Hne. rewrite Hc, (truthy_intro t Hne) in Ht. discriminate.
Qed.

Lemma refresh_rejections_witness :
  @refreshAccessToken Sample.platform without_cookie (draws "R2") 1000 one_session
  = (reply 401 (JError "未提供刷新令牌" None), one_session)
  /\ @refreshAccessToken Sample.platform (with_cookie "R0") (draws "R2") 1000
       one_session
     = (reply 401 (JError "无效或已过期的刷新令牌" None), one_session)
  /\ findValid (Some "R1") 604800000 one_session = None.
Proof.
  repeat apply conj.
  - destruct (@refresh_rejections Sample.platform without_cookie (draws "R2")
                1000%Z one_session) as (Hmissing & _).
    apply Hmissing. reflexivity.
  - destruct (@refresh_rejections Sample.platform (with_cookie "R0") (draws "R2")
                1000%Z one_session) as (_ & Hunknown & _).
    apply Hunknown; vm_compute; reflexivity.
  - destruct (@refresh_rejections Sample.platform (with_cookie "R1") (draws "R2")
                604800000%Z one_session) as (_ & _ & _ & Hexpired).
    destruct (Hexpired "R1"
                {| RefreshTokenModel._id := "rt-1";
                   RefreshTokenModel.token := "R1";
                   RefreshTokenModel.userId := "u1";
                   RefreshTokenModel.expiresAt := 604800000;
                   RefreshTokenModel.createdAt := 0 |}) as [Hnone _].
    + reflexivity.
    + discriminate.
    + exists 0%nat. split; vm_compute; reflexivity.
    + vm_compute. discriminate.
    + exact Hnone.
Defined.

Lemma logout_idempotent_witness :
  refreshTokens (snd (logout (with_cookie "R1") one_session)) !! "R1" = None
  /\ snd (logout without_cookie one_session) = one_session.
Proof.
  split.
  - destruct (logout_idempotent (with_cookie "R1") one_session)
      as (_ & _ & Hgone & _).
    apply Hgone; [reflexivity | discriminate].
  - destruct (logout_idempotent without_cookie one_session)
      as (_ & _ & _ & _ & Hsame).
    apply Hsame. reflexivity.
Defined.


End RefreshFlow.

Module Rotation.
Import Js Http MemoryDb JwtUtils AuthController Ledger.

(** On the in-memory store a successful refresh keeps the key of the old
    token: [save()] adds the key of the new token for the same object and
    nothing removes the old one, so the old token is still found (now
    with the new expiry), and the map has one key more. *)
Lemma rotation_keeps_old_key `{Platform} (req : Request) (rnd : Entropy)
    (now : Z) (s : Store) (t : string) (a : nat) (d : RefreshTokenModel.t) :
  cookies_refreshToken req = Some t ->
  findValid (Some t) now s = Some (a, d) ->
  refreshTokens s !! randomHex rnd = None ->
  let s' := snd (refreshAccessToken req rnd now s) in
  let d' := RefreshTokenModel.set_expiresAt (getRefreshTokenExpiry now)
              (RefreshTokenModel.set_token (randomHex rnd) d) in
  (forall now', (now' < getRefreshTokenExpiry now)%Z ->
      findValid (Some t) now' s' = Some (a, d'))
  /\ size (refreshTokens s') = S (size (refreshTokens s))
  /\ length (heap s') = length (heap s).
Proof.
  intros Hc Hf Hfresh s' d'.
  pose proof Hf as Hf'.
  apply findValid_Some in Hf' as (t' & [= <-] & Hne & Hm & Hh & Hlt).
  assert (Hs' : s' = {| users := users s;
                        refreshTokens := <[randomHex rnd := a]> (refreshTokens s);
                        heap := <[a := d']> (heap s) |}).
  { subst s'. rewrite (refresh_found req rnd now s a d) by (rewrite Hc; exact Hf).
    cbn [snd]. apply rotated_store, Hh. }
  rewrite Hs'. cbn [refreshTokens heap]. repeat apply conj.
  - intros now' Hlive. apply findValid_live; cbn [refreshTokens heap].
    + exact Hne.
    + rewrite lookup_insert_ne; [exact Hm|]. intros Heq. congruence.
    + apply list_lookup_insert_eq. apply lookup_lt_Some in Hh. exact Hh.
    + exact Hlive.
  - apply map_size_insert_None, Hfresh.
  - apply length_insert.
Qed.

(** The store after the refresh that presents ["R1"] and draws ["R2"]. *)
Definition after_rotation : Store :=
  snd (@refreshAccessToken Sample.platform (with_cookie "R1") (draws "R2") 1000
         one_session).

(** On the in-memory store, which no module requires: after the refresh
    that rotates ["R1"] into ["R2"], a lookup with ["R1"] still returns
    the record, a second refresh presenting ["R1"] succeeds, and the map
    holds two keys where it held one. *)
Theorem rotation_leaves_old_token_valid :
  size (refreshTokens one_session) = 1
  /\ status (fst (@refreshAccessToken Sample.platform (with_cookie "R1")
                    (draws "R2") 1000 one_session)) = 200
  /\ RefreshTokenModel.token <$> (snd <$> findValid (Some "R2") 2000 after_rotation)
     = Some "R2"
  /\ RefreshTokenModel.token <$> (snd <$> findValid (Some "R1") 2000 after_rotation)
     = Some "R2"
  /\ size (refreshTokens after_rotation) = 2
  /\ status (fst (@refreshAccessToken Sample.platform (with_cookie "R1")
                    (draws "R3") 2000 after_rotation)) = 200.
Proof. vm_compute. repeat split; reflexivity. Qed.

End Rotation.

(** ** models/RefreshToken: the collection the controller is wired to

    [authController] requires [models/RefreshToken], a mongoose model
    (the import of [config/memoryDb] is commented out).  Mongoose is
    modelled as follows.  A collection is the list of its documents, in
    natural order.  [Model.findOne(filter)] is the first document that
    the filter selects.  [doc.save()], on a document that was read from
    the collection, updates the stored document of the same [_id] and
    stamps [updatedAt] (the schema has [timestamps: true]); the unique
    index of the schema on [token] refuses, with a duplicate key error, a
    token that another document holds.  The documents that the index on
    [expiresAt] removes some time after they expire are in the collection
    until then. *)

Module RefreshTokenDoc.
Record t := {
  _id : string;
  token : string;
  userId : string;
  expiresAt : Z;
  createdAt : Z;
  updatedAt : Z
}.

Definition set_token (v : string) (d : t) : t :=
  {| _id := _id d; token := v; userId := userId d;
     expiresAt := expiresAt d; createdAt := createdAt d;
     updatedAt := updatedAt d |}.

Definition set_expiresAt (v : Z) (d : t) : t :=
  {| _id := _id d; token := token d; userId := userId d;
     expiresAt := v; createdAt := createdAt d; updatedAt := updatedAt d |}.

Definition set_updatedAt (v : Z) (d : t) : t :=
  {| _id := _id d; token := token d; userId := userId d;
     expiresAt := expiresAt d; createdAt := createdAt d; updatedAt := v |}.
End RefreshTokenDoc.

Module Mongoose.
Import Js RefreshTokenDoc.

Definition Collection : Type := list t.

(** The filter [{ token, expiresAt: { $gt } }]. *)
Definition selects (query_token : string) (gt : Z) (d : t) : bool :=
  String.eqb (token d) query_token && (gt <? expiresAt d)%Z.

(** [RefreshToken.findOne({ token, expiresAt: { $gt } })] *)
Definition findOne (query_token : string) (gt : Z) (c : Collection) : option t :=
  List.find (selects query_token gt) c.

(** Another document holds the token of [doc]. *)
Definition duplicate_key (doc : t) (c : Collection) : bool :=
  List.existsb
    (fun d => String.eqb (token d) (token doc)
              && negb (String.eqb (_id d) (_id doc))) c.

(** The update of the document stored under [id]. *)
Definition update (id : string) (doc : t) (c : Collection) : Collection :=
  List.map (fun d => if String.eqb (_id d) id then doc else d) c.

(** [doc.save()] *)
Definition save (doc : t) (now : Z) (c : Collection) : Result Collection :=
  if duplicate_key doc c
  then Throw (MongooseError "E11000 duplicate key error")
  else Return (update (_id doc) (set_updatedAt now doc) c).

End Mongoose.

(** [refreshAccessToken] of [authController], on the collection of
    [models/RefreshToken]. *)
Module WiredController.
Import Js Http JwtUtils AuthController RefreshTokenDoc Mongoose.

Section WithPlatform.
Context `{Platform}.

Definition refreshAccessToken (req : Request) (rnd : Entropy) (now : Z)
    (c : Collection) : Response * Collection :=
  let refreshToken := cookies_refreshToken req in
  if negb (truthy refreshToken)
  then (reply 401 (JError "未提供刷新令牌" None), c)
  else
    match findOne (toString refreshToken) now c with
    | None => (reply 401 (JError "无效或已过期的刷新令牌" None), c)
    | Some tokenDoc =>
        let accessToken := generateAccessToken (userId tokenDoc) now in
        let newRefreshToken := generateRefreshToken (randomHex rnd) in
        let tokenDoc := set_token newRefreshToken tokenDoc in
        let tokenDoc := set_expiresAt (getRefreshTokenExpiry now) tokenDoc in
        match save tokenDoc now c with
        | Return c' =>
            ({| status := 200;
                json := JAccessToken accessToken;
                cookie := refreshCookie newRefreshToken |}, c')
        | Throw _ => (reply 500 (JError "刷新令牌失败" None), c)
        end
    end.

End WithPlatform.
End WiredController.

Module WiredRotation.
Import Js Http JwtUtils AuthController RefreshTokenDoc Mongoose WiredController.

(** What the indexes of the collection keep: no two documents share an
    [_id], or a [token]. *)
Definition indexed (c : Collection) : Prop :=
  List.NoDup (List.map _id c) /\ List.NoDup (List.map token c).

(** The document [d] once rotated at [now] to [newToken]. *)
Definition rotated (newToken : string) (now : Z) (d : t) : t :=
  set_updatedAt now
    (set_expiresAt (getRefreshTokenExpiry now) (set_token newToken d)).

(** The documents that hold one of two token values. *)
Definition holders (old new : string) (c : Collection) : Collection :=
  List.filter
    (fun d => String.eqb (token d) old || String.eqb (token d) new) c.

Lemma find_unique {A} (p : A -> bool) (l : list A) (x : A) :
  In x l -> p x = true ->
  (forall y, In y l -> p y = true -> y = x) ->
  List.find p l = Some x.
Proof.
  induction l as [|a l IH]; [intros []|].
  intros Hin Hx Huniq. cbn [List.find].
  destruct (p a) eqn:Ha.
  - f_equal. apply Huniq; [left; reflexivity | exact Ha].
  - destruct Hin as [-> | Hin]; [congruence|].
    apply IH; [exact Hin | exact Hx |].
    intros y Hy. apply Huniq. right. exact Hy.
Qed.

Lemma find_nothing {A} (p : A -> bool) (l : list A) :
  (forall y, In y l -> p y = false) -> List.find p l = None.
Proof.
  induction l as [|a l IH]; [reflexivity|].
  intros Hall. cbn [List.find]. rewrite (Hall a) by (left; reflexivity).
  apply IH. intros y Hy. apply Hall. right. exact Hy.
Qed.

Lemma NoDup_map_In {A B} (f : A -> B) (l : list A) (x y : A) :
  List.NoDup (List.map f l) -> In x l -> In y l -> f x = f y -> x = y.
Proof.
  induction l as [|a l IH]; [intros _ []|].
  cbn [List.map]. intros Hnd Hx Hy Hf.
  apply List.NoDup_cons_iff in Hnd as [Hfresh Hnd].
  destruct Hx as [-> | Hx], Hy as [-> | Hy].
  - reflexivity.
  - exfalso. apply Hfresh. rewrite Hf. apply List.in_map, Hy.
  - exfalso. apply Hfresh. rewrite <- Hf. apply List.in_map, Hx.
  - apply IH; assumption.
Qed.

Lemma only_one {A} (l : list A) (x : A) :
  List.NoDup l -> In x l -> (forall y, In y l -> y = x) -> length l = 1.
Proof.
  destruct l as [|a l]; [intros _ []|].
  intros Hnd _ Hall. apply List.NoDup_cons_iff in Hnd as [Hfresh _].
  destruct l as [|b l]; [reflexivity|]. exfalso. apply Hfresh.
  rewrite (Hall a) by (left; reflexivity).
  rewrite <- (Hall b) by (right; left; reflexivity). left. reflexivity.
Qed.

Lemma In_update (id : string) (doc y : t) (c : Collection) :
  In y (update id doc c) -> y = doc \/ (In y c /\ _id y <> id).
Proof.
  unfold update. intros Hin. apply List.in_map_iff in Hin as (x & Hy & Hx).
  destruct (String.eqb_spec (_id x) id) as [_ | Hne].
  - left. symmetry. exact Hy.
  - right. subst y. split; assumption.
Qed.

Lemma update_In (id : string) (doc d : t) (c : Collection) :
  In d c -> _id d = id -> In doc (update id doc c).
Proof.
  intros Hin Hid. unfold update. apply List.in_map_iff. exists d.
  split; [|exact Hin]. rewrite Hid, String.eqb_refl. reflexivity.
Qed.

Lemma update_ids (id : string) (doc : t) (c : Collection) :
  _id doc = id -> List.map _id (update id doc c) = List.map _id c.
Proof.
  intros Hid. unfold update. rewrite List.map_map. apply List.map_ext.
  intros x. destruct (String.eqb_spec (_id x) id) as [-> | _];
    [exact Hid | reflexivity].
Qed.

Lemma update_absent (id : string) (doc : t) (c : Collection) :
  ~ In id (List.map _id c) -> update id doc c = c.
Proof.
  unfold update. induction c as [|x c IH]; [reflexivity|].
  cbn [List.map]. intros Hfresh.
  destruct (String.eqb_spec (_id x) id) as [Heq | _].
  - exfalso. apply Hfresh. left. exact Heq.
  - f_equal. apply IH. intros Hin. apply Hfresh. right. exact Hin.
Qed.

Lemma update_tokens (id : string) (doc : t) (c : Collection) :
  List.NoDup (List.map _id c) -> List.NoDup (List.map token c) ->
  (forall y, In y c -> _id y <> id -> token y <> token doc) ->
  List.NoDup (List.map token (update id doc c)).
Proof.
  induction c as [|x c IH]; [intros; constructor|].
  cbn [List.map]. intros Hids Htokens Hfree.
  apply List.NoDup_cons_iff in Hids as [Hid Hids].
  apply List.NoDup_cons_iff in Htokens as [Htoken Htokens].
  unfold update. cbn [List.map]. fold (update id doc c).
  destruct (String.eqb_spec (_id x) id) as [Heq | Hne].
  - rewrite update_absent by (rewrite <- Heq; exact Hid).
    apply List.NoDup_cons_iff. split; [|exact Htokens].
    intros Hin. apply List.in_map_iff in Hin as (y & Hy & Hin).
    apply (Hfree y); [right; exact Hin | | exact Hy].
    intros Hsame. apply Hid. rewrite Heq, <- Hsame. apply List.in_map, Hin.
  - apply List.NoDup_cons_iff. split.
    + intros Hin. apply List.in_map_iff in Hin as (y & Hy & Hin).
      apply In_update in Hin as [-> | [Hin _]].
      * apply (Hfree x); [left; reflexivity | exact Hne | symmetry; exact Hy].
      * apply Htoken. rewrite <- Hy. apply List.in_map, Hin.
    + apply IH; [exact Hids | exact Htokens |].
      intros y Hy. apply Hfree. right. exact Hy.
Qed.

Section WithPlatform.
Context `{Platform}.

(** A refresh answered 200 found the document of the cookie's token and
    saved it, rotated, under its [_id]. *)
Lemma refresh_rotated (req : Request) (rnd : Entropy) (now : Z)
    (c : Collection) (t0 : string) :
  cookies_refreshToken req = Some t0 ->
  status (fst (refreshAccessToken req rnd now c)) = 200%nat ->
  exists d,
    findOne t0 now c = Some d
    /\ duplicate_key (set_expiresAt (getRefreshTokenExpiry now)
                        (set_token (randomHex rnd) d)) c = false
    /\ refreshAccessToken req rnd now c
       = ({| status := 200;
             json := JAccessToken (generateAccessToken (userId d) now);
             cookie := refreshCookie (randomHex rnd) |},
          update (_id d) (rotated (randomHex rnd) now d) c).
Proof.
  intros Hcookie. unfold refreshAccessToken. rewrite Hcookie.
  destruct (truthy (Some t0)); cbn [negb]; [|discriminate].
  cbn [toString].
  destruct (findOne t0 now c) as [d|]; [|discriminate].
  unfold save, generateRefreshToken.
  destruct (duplicate_key _ c) eqn:Hdup; [discriminate|].
  intros _. exists d. split; [reflexivity|]. split; [exact Hdup | reflexivity].
Qed.

End WithPlatform.

(** What the refusal of a duplicate key has checked. *)
Lemma duplicate_key_false (doc : t) (c : Collection) :
  duplicate_key doc c = false ->
  forall y, In y c -> _id y <> _id doc -> token y <> token doc.
Proof.
  intros Hdup y Hin Hid Htoken.
  assert (Hex : duplicate_key doc c = true); [|congruence].
  unfold duplicate_key. apply List.existsb_exists. exists y.
  split; [exact Hin|]. rewrite Htoken, String.eqb_refl. cbn [andb].
  destruct (String.eqb_spec (_id y) (_id doc)); [contradiction | reflexivity].
Qed.

Lemma selects_token (query_token : string) (gt : Z) (d : t) :
  selects query_token gt d = true ->
  token d = query_token /\ (gt < expiresAt d)%Z.
Proof.
  unfold selects. intros Hsel. apply andb_true_iff in Hsel as [Ht Hgt].
  apply String.eqb_eq in Ht. apply Z.ltb_lt in Hgt. split; assumption.
Qed.

Lemma selects_other (query_token : string) (gt : Z) (d : t) :
  token d <> query_token -> selects query_token gt d = false.
Proof.
  intros Hne. unfold selects.
  destruct (String.eqb_spec (token d) query_token); [contradiction | reflexivity].
Qed.

(** The documents that hold the old or the new token, before and after
    the update of [d]: [d] alone, then its rotated form alone. *)
Lemma holders_rotation (old new : string) (now : Z) (d : t) (c : Collection) :
  indexed c -> In d c -> token d = old ->
  (forall y, In y c -> _id y <> _id d -> token y <> new) ->
  length (holders old new c) = 1
  /\ length (holders old new (update (_id d) (rotated new now d) c)) = 1.
Proof.
  intros [Hids Htokens] Hin Hold Hfree. unfold holders. split.
  - apply (only_one _ d).
    + apply List.NoDup_filter. apply (List.NoDup_map_inv _id). exact Hids.
    + apply List.filter_In. split; [exact Hin|].
      rewrite Hold, String.eqb_refl. reflexivity.
    + intros y Hy. apply List.filter_In in Hy as [Hy Hholds].
      apply orb_true_iff in Hholds as [Ht | Ht]; apply String.eqb_eq in Ht.
      * apply (NoDup_map_In token c); [exact Htokens | exact Hy | exact Hin |].
        congruence.
      * destruct (string_dec (_id y) (_id d)) as [Hsame | Hother].
        -- apply (NoDup_map_In _id c); assumption.
        -- destruct (Hfree y Hy Hother Ht).
  - apply (only_one _ (rotated new now d)).
    + apply List.NoDup_filter. apply (List.NoDup_map_inv _id).
      rewrite update_ids by reflexivity. exact Hids.
    + apply List.filter_In. split; [apply (update_In _ _ d); auto|].
      cbn [rotated set_updatedAt set_expiresAt set_token token].
      rewrite String.eqb_refl. apply orb_true_r.
    + intros y Hy. apply List.filter_In in Hy as [Hy Hholds].
      apply In_update in Hy as [-> | [Hy Hother]]; [reflexivity|].
      exfalso.
      apply orb_true_iff in Hholds as [Ht | Ht]; apply String.eqb_eq in Ht.
      * apply Hother. f_equal.
        apply (NoDup_map_In token c); [exact Htokens | exact Hy | exact Hin |].
        congruence.
      * exact (Hfree y Hy Hother Ht).
Qed.

(** C1: for every successful refresh, on a collection that respects its
    indexes and with a new token that differs from the one presented,
    the rotation updates the document in place: a lookup with the old
    token finds nothing from then on, a lookup with the new token finds
    the document (same [_id], user and creation time) until the new
    expiry, the documents are the same in number and identity, and
    the session has one document before and one after. *)
Theorem rotation_updates_in_place `{Platform} (req : Request) (rnd : Entropy)
    (now : Z) (c : Collection) (t0 : string) :
  indexed c ->
  cookies_refreshToken req = Some t0 ->
  randomHex rnd <> t0 ->
  status (fst (refreshAccessToken req rnd now c)) = 200%nat ->
  exists d,
    findOne t0 now c = Some d
    /\ (forall now',
          findOne t0 now' (snd (refreshAccessToken req rnd now c)) = None)
    /\ (forall now', (now' < getRefreshTokenExpiry now)%Z ->
          findOne (randomHex rnd) now' (snd (refreshAccessToken req rnd now c))
          = Some {| _id := _id d; token := randomHex rnd; userId := userId d;
                    expiresAt := getRefreshTokenExpiry now;
                    createdAt := createdAt d; updatedAt := now |})
    /\ List.map _id (snd (refreshAccessToken req rnd now c)) = List.map _id c
    /\ length (holders t0 (randomHex rnd) c) = 1
    /\ length (holders t0 (randomHex rnd)
                 (snd (refreshAccessToken req rnd now c))) = 1
    /\ indexed (snd (refreshAccessToken req rnd now c)).
Proof.
  intros Hindexed Hcookie Hnew Hok.
  destruct (refresh_rotated req rnd now c t0 Hcookie Hok)
    as (d & Hfound & Hdup & ->).
  cbn [snd]. exists d.
  pose proof Hfound as Hd. apply List.find_some in Hd as [Hin Hsel].
  apply selects_token in Hsel as [Hold _].
  pose proof (duplicate_key_false _ c Hdup) as Hfree.
  cbn [set_expiresAt set_token token _id] in Hfree.
  destruct Hindexed as [Hids Htokens].
  split; [exact Hfound|]. split; [|split; [|split; [|split; [|split]]]].
  - intros now'. apply find_nothing. intros y Hy. apply selects_other.
    apply In_update in Hy as [-> | [Hy Hother]]; [exact Hnew|].
    intros Ht. apply Hother. f_equal.
    apply (NoDup_map_In token c); [exact Htokens | exact Hy | exact Hin |].
    congruence.
  - intros now' Hlive.
    apply (find_unique _ _ (rotated (randomHex rnd) now d)).
    + apply (update_In _ _ d); [exact Hin | reflexivity].
    + unfold selects.
      cbn [rotated set_updatedAt set_expiresAt set_token token expiresAt].
      rewrite String.eqb_refl. apply Z.ltb_lt. exact Hlive.
    + intros y Hy Hsel. apply selects_token in Hsel as [Ht _].
      apply In_update in Hy as [-> | [Hy Hother]]; [reflexivity|].
      destruct (Hfree y Hy Hother Ht).
  - apply update_ids. reflexivity.
  - apply (holders_rotation t0 (randomHex rnd) now d c); try assumption.
    split; assumption.
  - apply (holders_rotation t0 (randomHex rnd) now d c); try assumption.
    split; assumption.
  - split.
    + rewrite update_ids by reflexivity. exact Hids.
    + apply update_tokens; [exact Hids | exact Htokens |].
      intros y Hy Hother. apply Hfree; assumption.
Qed.

(** One session: the document of token ["R1"] of user ["u1"], created at
    instant 0. *)
Definition one_document : Collection :=
  [ {| _id := "rt-1"; token := "R1"; userId := "u1";
       expiresAt := getRefreshTokenExpiry 0; createdAt := 0; updatedAt := 0 |} ].

Lemma rotation_updates_in_place_witness :
  findOne "R1" 2000
    (snd (@refreshAccessToken Sample.platform (Ledger.with_cookie "R1")
            (Ledger.draws "R2") 1000 one_document)) = None
  /\ token <$> findOne "R2" 2000
                 (snd (@refreshAccessToken Sample.platform
                         (Ledger.with_cookie "R1") (Ledger.draws "R2") 1000
                         one_document)) = Some "R2"
  /\ length (snd (@refreshAccessToken Sample.platform (Ledger.with_cookie "R1")
                    (Ledger.draws "R2") 1000 one_document)) = 1
  /\ status (fst (@refreshAccessToken Sample.platform (Ledger.with_cookie "R1")
                    (Ledger.draws "R3") 2000
                    (snd (@refreshAccessToken Sample.platform
                            (Ledger.with_cookie "R1") (Ledger.draws "R2") 1000
                            one_document)))) = 401.
Proof.
  destruct (@rotation_updates_in_place Sample.platform
              (Ledger.with_cookie "R1") (Ledger.draws "R2") 1000%Z
              one_document "R1")
    as (d & _ & Hold & Hnew & Hsame & _).
  - split; repeat constructor; cbn; intros [].
  - reflexivity.
  - discriminate.
  - vm_compute. reflexivity.
  - split; [apply Hold|]. split.
    + rewrite Hnew by (vm_compute; reflexivity). reflexivity.
    + split.
      * rewrite <- (List.length_map _id), Hsame. reflexivity.
      * vm_compute. reflexivity.
Defined.

End WiredRotation.

(** ** Registration and login *)

Module Validation.
Import Js Http ExpressValidator Routes.

(** The error a failing validator leaves. *)
Definition check (test : string -> bool) (m : string) (f : Field)
    (v : option string) : list ValidationError :=
  if test (toString v) then []
  else [{| msg := m; param := path f; value := v |}].

Definition min8 (s : string) : bool :=
  (8 <=? String.length s)%nat && true.

Definition len_2_20 (s : string) : bool :=
  (2 <=? String.length s)%nat && (String.length s <=? 20)%nat.

Definition not_empty (s : string) : bool := negb (String.eqb s "").

Definition length_errors (v : option string) : list ValidationError :=
  check min8 "密码至少需要8个字符" Fpassword v.

Definition pattern_errors (v : option string) : list ValidationError :=
  check password_pattern "密码必须包含大小写字母和数字" Fpassword v.

Definition nickname_errors (v : option string) : list ValidationError :=
  match v with
  | None => []
  | Some n =>
      check len_2_20 "昵称长度应在2-20个字符之间" Fnickname (Some (Js.trim n))
  end.

Definition empty_errors (v : option string) : list ValidationError :=
  check not_empty "请输入密码" Fpassword v.

Lemma existsb_first_line (p : ascii -> bool) (s : string) :
  existsb p (first_line s) = true -> existsb p s = true.
Proof.
  induction s as [|a rest IH]; simpl; [auto|].
  destruct (is_line_terminator a); simpl; [discriminate|].
  destruct (p a); simpl; auto.
Qed.

(** A password without a lower-case letter, an upper-case letter or a
    digit fails the pattern. *)
Lemma password_pattern_needs (s : string) :
  existsb is_lower s = false \/ existsb is_upper s = false
  \/ existsb is_digit s = false ->
  password_pattern s = false.
Proof.
  intros Hmiss. unfold password_pattern.
  destruct (existsb is_lower (first_line s)) eqn:Hl;
    destruct (existsb is_upper (first_line s)) eqn:Hu;
    destruct (existsb is_digit (first_line s)) eqn:Hd; try reflexivity.
  apply existsb_first_line in Hl, Hu, Hd.
  destruct Hmiss as [Hm | [Hm | Hm]]; congruence.
Qed.

Lemma min8_short (s : string) : (String.length s < 8)%nat -> min8 s = false.
Proof.
  intros Hlt. unfold min8.
  destruct (Nat.leb_spec 8 (String.length s)); [lia | reflexivity].
Qed.

Section WithPlatform.
Context `{Platform}.

Definition email_errors (v : option string) : list ValidationError :=
  check validator_isEmail "请提供有效的邮箱地址" Femail v.

Lemma registerValidation_chains :
  registerValidation =
  [ {| field := Femail; is_optional := false;
       items := [Validate validator_isEmail "请提供有效的邮箱地址";
                 Sanitize validator_normalizeEmail] |};
    {| field := Fpassword; is_optional := false;
       items := [Validate min8 "密码至少需要8个字符";
                 Validate password_pattern "密码必须包含大小写字母和数字"] |};
    {| field := Fnickname; is_optional := true;
       items := [Sanitize Js.trim;
                 Validate len_2_20 "昵称长度应在2-20个字符之间"] |} ].
Proof. reflexivity. Qed.

Lemma loginValidation_chains :
  loginValidation =
  [ {| field := Femail; is_optional := false;
       items := [Validate validator_isEmail "请提供有效的邮箱地址";
                 Sanitize validator_normalizeEmail] |};
    {| field := Fpassword; is_optional := false;
       items := [Validate not_empty "请输入密码"] |} ].
Proof. reflexivity. Qed.

(** The request the [register] handler receives. *)
Lemma run_registerValidation (req : Request) :
  run registerValidation req =
  {| Http.body :=
       {| email := validator_normalizeEmail <$> email (Http.body req);
          password := password (Http.body req);
          nickname := Js.trim <$> nickname (Http.body req) |};
     cookies_refreshToken := cookies_refreshToken req;
     headers_authorization := headers_authorization req;
     validation :=
       validation req ++ email_errors (email (Http.body req))
         ++ length_errors (password (Http.body req))
         ++ pattern_errors (password (Http.body req))
         ++ nickname_errors (nickname (Http.body req));
     user := user req |}.
Proof.
  rewrite registerValidation_chains.
  destruct req as [[e p n] c h v u].
  unfold email_errors, length_errors, pattern_errors, nickname_errors, check.
  cbn [run fold_left run_chain run_items field is_optional items get set
       Http.body with_validation with_body validation email password nickname
       cookies_refreshToken headers_authorization user andb negb].
  destruct n as [n|]; cbn [fmap option_fmap option_map toString];
    destruct (validator_isEmail (toString e)), (min8 (toString p)),
      (password_pattern (toString p)).
  all: cbn.
  all: try destruct (len_2_20 (Js.trim n)); cbn;
    rewrite ?app_nil_r, <- ?app_assoc; reflexivity.
Qed.

(** The request the [login] handler receives. *)
Lemma run_loginValidation (req : Request) :
  run loginValidation req =
  {| Http.body :=
       {| email := validator_normalizeEmail <$> email (Http.body req);
          password := password (Http.body req);
          nickname := nickname (Http.body req) |};
     cookies_refreshToken := cookies_refreshToken req;
     headers_authorization := headers_authorization req;
     validation :=
       validation req ++ email_errors (email (Http.body req))
         ++ empty_errors (password (Http.body req));
     user := user req |}.
Proof.
  rewrite loginValidation_chains.
  destruct req as [[e p n] c h v u].
  unfold email_errors, empty_errors, check.
  cbn [run fold_left run_chain run_items field is_optional items get set
       Http.body with_validation with_body validation email password nickname
       cookies_refreshToken headers_authorization user andb negb].
  destruct (validator_isEmail (toString e)), (not_empty (toString p)); cbn;
    rewrite ?app_nil_r, <- ?app_assoc; reflexivity.
Qed.

End WithPlatform.
End Validation.

Module Registration.
Import Js Http MemoryDb JwtUtils ExpressValidator AuthController Validation.

(** *** What each violated rule leaves in the error list *)

Definition short_password (req : Request) : Prop :=
  (String.length (toString (password (Http.body req))) < 8)%nat.

Definition weak_password (req : Request) : Prop :=
  existsb is_lower (toString (password (Http.body req))) = false
  \/ existsb is_upper (toString (password (Http.body req))) = false
  \/ existsb is_digit (toString (password (Http.body req))) = false.

Definition length_error (req : Request) : ValidationError :=
  {| msg := "密码至少需要8个字符"; param := "password";
     value := password (Http.body req) |}.

Definition pattern_error (req : Request) : ValidationError :=
  {| msg := "密码必须包含大小写字母和数字"; param := "password";
     value := password (Http.body req) |}.

Definition email_error (req : Request) : ValidationError :=
  {| msg := "请提供有效的邮箱地址"; param := "email";
     value := email (Http.body req) |}.

Lemma map_set_find {V} (k : string) (v : V) (m : list (string * V)) :
  List.find (fun kv => String.eqb (fst kv) k) (map_set k v m) = Some (k, v).
Proof.
  induction m as [|[k' v'] m IH]; simpl.
  - rewrite String.eqb_refl. reflexivity.
  - destruct (String.eqb k' k) eqn:E; simpl.
    + rewrite String.eqb_refl. reflexivity.
    + rewrite E. exact IH.
Qed.

Section WithPlatform.
Context `{Platform}.

Definition malformed_email (req : Request) : Prop :=
  validator_isEmail (toString (email (Http.body req))) = false.

Lemma register_invalid (req : Request) rnd now s :
  validationResult req <> [] ->
  register req rnd now s = (reply 400 (JErrors (validationResult req)), s).
Proof.
  intros Hne. unfold register.
  rewrite bool_decide_eq_false_2 by exact Hne. reflexivity.
Qed.

Lemma register_taken (req : Request) rnd now s u :
  validationResult req = [] ->
  User_findOne (email (Http.body req)) s = Some u ->
  register req rnd now s = (reply 400 (JError "该邮箱已被注册" None), s).
Proof.
  intros Hv Hf. unfold register.
  rewrite bool_decide_eq_true_2 by exact Hv. simpl. rewrite Hf. reflexivity.
Qed.

Lemma RefreshToken_create_store uuid now' tok uid exp (s : Store) :
  RefreshToken_create uuid now' tok uid exp s
  = (length (heap s),
     {| users := users s;
        refreshTokens := <[tok := length (heap s)]> (refreshTokens s);
        heap := heap s ++ [{| RefreshTokenModel._id := uuid;
                              RefreshTokenModel.token := tok;
                              RefreshTokenModel.userId := uid;
                              RefreshTokenModel.expiresAt := exp;
                              RefreshTokenModel.createdAt := now' |}] |}).
Proof.
  unfold RefreshToken_create, RefreshToken_new, RefreshToken_save.
  cbn [with_heap heap users refreshTokens].
  rewrite list_lookup_middle by reflexivity. reflexivity.
Qed.

Lemma issue_session_users code message u rnd now s :
  users (snd (issue_session code message u rnd now s)) = users s.
Proof.
  unfold issue_session. rewrite RefreshToken_create_store. reflexivity.
Qed.

Lemma issue_session_response code message u rnd now s :
  fst (issue_session code message u rnd now s)
  = {| status := code;
       json := JSession message (toJSON u) (generateAccessToken (UserModel._id u) now);
       cookie := refreshCookie (randomHex rnd) |}.
Proof.
  unfold issue_session. rewrite RefreshToken_create_store. reflexivity.
Qed.

End WithPlatform.
(** *** Sample data *)

Definition alice : UserModel.t :=
  {| UserModel._id := "u1";
     UserModel.email := Some "alice@example.com";
     UserModel.password := Some "bcrypt:Abcd1234";
     UserModel.nickname := "alice";
     UserModel.avatar := None;
     UserModel.isEmailVerified := false;
     UserModel.createdAt := 0;
     UserModel.updatedAt := 0;
     UserModel.lastLoginAt := None |}.

(** The store that holds [alice] alone. *)
Definition alice_store : Store :=
  with_users [("u1", alice)] MemoryDb.empty.

Definition credentials (e p : string) (n : option string) : Request :=
  {| Http.body := {| email := Some e; password := Some p; nickname := n |};
     cookies_refreshToken := None;
     headers_authorization := None;
     validation := [];
     user := None |}.

Definition draw : Entropy :=
  {| uuid_user := "u2"; uuid_token := "rt-2"; randomHex := "R9" |}.

(** C7, as stated, fails: when the email is taken and the password also
    violates the policy, the request is refused with the list of
    validation errors and not with the email-taken error, since
    [register] answers the validation errors before it looks the email
    up. *)
Lemma taken_email_weak_password_reports_validation :
  User_findOne (Some "alice@example.com") alice_store = Some alice
  /\ @post_register Sample.platform
       (credentials "alice@example.com" "short" None) draw 0 alice_store
     = (reply 400
          (JErrors [{| msg := "密码至少需要8个字符"; param := "password";
                       value := Some "short" |};
                    {| msg := "密码必须包含大小写字母和数字"; param := "password";
                       value := Some "short" |}]),
        alice_store).
Proof. split; vm_compute; reflexivity. Qed.

(** C7 (amended): [POST /auth/register] refuses every input that
    violates the password policy (fewer than 8 characters, or no
    lower-case letter, no upper-case letter or no digit) or the email
    format with 400 and a list of errors that holds the error of every
    violated rule; and it refuses with the email-taken error every input
    that passes validation when a user with the given (normalised) email
    exists.  The store is unchanged in both cases. *)
Theorem register_rejections `{Platform} (req : Request) (rnd : Entropy)
    (now : Z) (s : Store) :
  (short_password req \/ weak_password req \/ malformed_email req ->
     exists errs,
       post_register req rnd now s = (reply 400 (JErrors errs), s)
       /\ (short_password req -> length_error req ∈ errs)
       /\ (weak_password req -> pattern_error req ∈ errs)
       /\ (malformed_email req -> email_error req ∈ errs))
  /\ (forall u,
        validationResult (run Routes.registerValidation req) = [] ->
        User_findOne (validator_normalizeEmail <$> email (Http.body req)) s
        = Some u ->
        post_register req rnd now s
        = (reply 400 (JError "该邮箱已被注册" None), s)).
Proof.
  split.
  - intros Hviol.
    set (errs := validationResult (run Routes.registerValidation req)).
    assert (Hlen : short_password req -> length_error req ∈ errs).
    { intros Hs. subst errs. unfold validationResult.
      rewrite run_registerValidation. cbn [validation].
      rewrite !elem_of_app. right. right. left.
      unfold length_errors, check. rewrite (min8_short _ Hs).
      apply list_elem_of_singleton. reflexivity. }
    assert (Hpat : weak_password req -> pattern_error req ∈ errs).
    { intros Hw. subst errs. unfold validationResult.
      rewrite run_registerValidation. cbn [validation].
      rewrite !elem_of_app. right. right. right. left.
      unfold pattern_errors, check. rewrite (password_pattern_needs _ Hw).
      apply list_elem_of_singleton. reflexivity. }
    assert (Hem : malformed_email req -> email_error req ∈ errs).
    { intros Hm. subst errs. unfold validationResult.
      rewrite run_registerValidation. cbn [validation].
      rewrite !elem_of_app. right. left.
      unfold email_errors, check. unfold malformed_email in Hm. rewrite Hm.
      apply list_elem_of_singleton. reflexivity. }
    exists errs. repeat apply conj; try assumption.
    unfold post_register. apply register_invalid. fold errs. intros Hnil.
    assert (Hin : exists e, e ∈ errs)
      by (destruct Hviol as [Hv | [Hv | Hv]]; eauto).
    destruct Hin as [e He]. rewrite Hnil in He.
    exact (not_elem_of_nil _ He).
  - intros u Hvalid Hfound. unfold post_register.
    apply (register_taken _ rnd now s u Hvalid).
    rewrite run_registerValidation. exact Hfound.
Qed.

Lemma register_rejections_witness :
  (exists errs,
      @post_register Sample.platform (credentials "nobody" "abc" None) draw 0
        alice_store
      = (reply 400 (JErrors errs), alice_store)
      /\ length_error (credentials "nobody" "abc" None) ∈ errs
      /\ pattern_error (credentials "nobody" "abc" None) ∈ errs
      /\ email_error (credentials "nobody" "abc" None) ∈ errs)
  /\ @post_register Sample.platform
       (credentials "alice@example.com" "Abcd1234" None) draw 0 alice_store
     = (reply 400 (JError "该邮箱已被注册" None), alice_store).
Proof.
  split.
  - destruct (@register_rejections Sample.platform
                (credentials "nobody" "abc" None) draw 0%Z alice_store)
      as [Hinvalid _].
    destruct Hinvalid as (errs & Hres & Hlen & Hpat & Hem).
    + left. unfold short_password. vm_compute. lia.
    + exists errs. repeat apply conj.
      * exact Hres.
      * apply Hlen. unfold short_password. vm_compute. lia.
      * apply Hpat. right. left. vm_compute. reflexivity.
      * apply Hem. vm_compute. reflexivity.
  - destruct (@register_rejections Sample.platform
                (credentials "alice@example.com" "Abcd1234" None) draw 0%Z
                alice_store) as [_ Htaken].
    apply (Htaken alice); vm_compute; reflexivity.
Defined.


(** The nickname [register] gives the user it creates. *)
Definition chosen_nickname (b : Body) : string :=
  if truthy (nickname b) then toString (nickname b)
  else split_head "@" (toString (email b)).

Lemma register_created `{Platform} (req : Request) (rnd : Entropy)
    (now : Z) (s : Store) :
  status (fst (register req rnd now s)) = 201%nat ->
  exists u,
    UserModel.nickname u = chosen_nickname (Http.body req)
    /\ UserModel._id u = uuid_user rnd
    /\ register req rnd now s
       = issue_session 201 "注册成功" u rnd now
           (with_users (map_set (uuid_user rnd) u (users s)) s).
Proof.
  unfold register, chosen_nickname.
  destruct (bool_decide (validationResult req = [])); cbn [negb];
    [|cbn; discriminate].
  destruct (User_findOne (email (Http.body req)) s); [cbn; discriminate|].
  destruct (truthy (nickname (Http.body req))) eqn:Hn.
  - cbn [mbind Result_bind]. unfold User_new. rewrite Hn.
    cbn [mbind Result_bind User_save]. intros _.
    eexists. repeat apply conj; [| |reflexivity]; reflexivity.
  - destruct (email (Http.body req)) as [e|]; [|cbn; discriminate].
    cbn [mbind Result_bind]. unfold User_new.
    destruct (truthy (Some (split_head "@" e)));
      cbn [mbind Result_bind User_save toString]; intros _;
      eexists; (repeat apply conj; [| |reflexivity]; reflexivity).
Qed.

(** C10: a registration whose nickname field is absent or empty creates
    the user with the part of the email before the first [@] as nickname;
    a registration that supplies a nickname stores it as the handler
    received it.  The nickname is the one of the stored user and of the
    user returned in the response. *)
Theorem register_nickname_default `{Platform} (req : Request) (rnd : Entropy)
    (now : Z) (s : Store) :
  status (fst (register req rnd now s)) = 201%nat ->
  exists u,
    User_findById (uuid_user rnd) (snd (register req rnd now s)) = Some u
    /\ (exists accessToken,
          json (fst (register req rnd now s))
          = JSession "注册成功" (toJSON u) accessToken)
    /\ (truthy (nickname (Http.body req)) = false ->
          UserModel.nickname u
          = split_head "@" (toString (email (Http.body req))))
    /\ (forall n, nickname (Http.body req) = Some n -> n <> "" ->
          UserModel.nickname u = n).
Proof.
  intros Hok. destruct (register_created req rnd now s Hok) as (u & Hnick & Hid & ->).
  exists u. repeat apply conj.
  - unfold User_findById. rewrite issue_session_users. cbn [users with_users].
    rewrite map_set_find. reflexivity.
  - rewrite issue_session_response. cbn [json]. eauto.
  - intros Hn. rewrite Hnick. unfold chosen_nickname. rewrite Hn. reflexivity.
  - intros n Hn Hne. rewrite Hnick. unfold chosen_nickname. rewrite Hn.
    cbn. destruct (String.eqb_spec n ""); [contradiction | reflexivity].
Qed.

Lemma register_nickname_default_witness :
  exists u,
    User_findById "u2"
      (snd (@register Sample.platform
              (credentials "bob@example.com" "Abcd1234" None) draw 0 alice_store))
    = Some u
    /\ UserModel.nickname u = "bob".
Proof.
  destruct (@register_nickname_default Sample.platform
              (credentials "bob@example.com" "Abcd1234" None) draw 0%Z alice_store)
    as (u & Hstored & _ & Habsent & _).
  - vm_compute. reflexivity.
  - exists u. split; [exact Hstored|].
    rewrite Habsent by reflexivity. reflexivity.
Defined.


End Registration.

Module LoginFlow.
Import Js Http MemoryDb JwtUtils ExpressValidator AuthController Validation.
Import Registration.


Section WithPlatform.
Context `{Platform}.

Lemma login_invalid (req : Request) rnd now s :
  validationResult req <> [] ->
  login req rnd now s = (reply 400 (JErrors (validationResult req)), s).
Proof.
  intros Hne. unfold login.
  rewrite bool_decide_eq_false_2 by exact Hne. reflexivity.
Qed.



End WithPlatform.




End LoginFlow.

(** ** Client interceptor: single-flight renewal *)

Module SingleFlight.
Import Js AuthContext.

(** The flag is raised exactly while one handler awaits a refresh, and
    continuations are queued only while it is raised. *)
Definition invariant (st : State) : Prop :=
  length (awaiting st) = (if isRefreshing st then 1 else 0)
  /\ (isRefreshing st = false -> failedQueue st = []).

(** What [processQueue] does to a queued continuation, by the way the
    refresh settled. *)
Definition wake (r : Settled) (c : Config) : Effect :=
  match r with
  | Fulfilled newToken => Resume (set_bearer newToken c)
  | Rejected refreshError => Abort c refreshError
  end.

Definition count_calls (effs : list Effect) : nat :=
  length (List.filter is_call effs).

Lemma invariant_init : invariant init.
Proof. split; reflexivity. Qed.

Lemma onRejected_shape (error : AxiosError) (st : State) :
  (onRejected error st = (st, [Reject (config error)]))
  \/ (isRefreshing st = true
      /\ onRejected error st
         = ({| isRefreshing := true;
               failedQueue := failedQueue st ++ [config error];
               awaiting := awaiting st |}, []))
  \/ (isRefreshing st = false
      /\ onRejected error st
         = ({| isRefreshing := true;
               failedQueue := failedQueue st;
               awaiting := awaiting st ++ [set_retry (config error)] |},
            [CallRefresh])).
Proof.
  unfold onRejected. destruct (response error); [|left; reflexivity].
  destruct (renewable error); [|left; reflexivity].
  destruct (is_auth_entry (config error)); [left; reflexivity|].
  destruct (isRefreshing st) eqn:E.
  - right. left. split; reflexivity.
  - right. right. split; reflexivity.
Qed.

Lemma processQueue_wake (r : Settled) (queue : list Config) :
  match r with
  | Fulfilled newToken => processQueue None (Some newToken) queue
  | Rejected refreshError => processQueue (Some refreshError) None queue
  end = List.map (wake r) queue.
Proof. destruct r; reflexivity. Qed.

Lemma filter_wake_map (r : Settled) (queue : list Config) :
  List.filter is_wake (List.map (wake r) queue) = List.map (wake r) queue.
Proof.
  induction queue as [|c queue IH]; [reflexivity|].
  simpl. rewrite IH. destruct r; reflexivity.
Qed.

Lemma filter_call_map (r : Settled) (queue : list Config) :
  List.filter is_call (List.map (wake r) queue) = [].
Proof.
  induction queue as [|c queue IH]; [reflexivity|].
  simpl. rewrite IH. destruct r; reflexivity.
Qed.

(** The effects of [resume]: every queued continuation is woken, and no
    refresh is called. *)
Lemma resume_effects (c : Config) (r : Settled) (st : State) :
  List.filter is_wake (snd (resume c r st)) = List.map (wake r) (failedQueue st)
  /\ count_calls (snd (resume c r st)) = 0
  /\ failedQueue (fst (resume c r st)) = []
  /\ isRefreshing (fst (resume c r st)) = false
  /\ awaiting (fst (resume c r st)) = awaiting st.
Proof.
  unfold count_calls.
  destruct r as [tok | err]; cbn [resume fst snd failedQueue isRefreshing awaiting].
  - rewrite (processQueue_wake (Fulfilled tok)).
    rewrite !List.filter_app, filter_wake_map, filter_call_map. cbn.
    rewrite app_nil_r. repeat split.
  - rewrite (processQueue_wake (Rejected err)).
    rewrite !List.filter_app, filter_wake_map, filter_call_map. cbn.
    rewrite app_nil_r. repeat split.
Qed.

Lemma step_invariant (st st' : State) (ev : Event) (effs : list Effect) :
  invariant st -> step st ev = Some (st', effs) -> invariant st'.
Proof.
  intros [Hlen Hq] Hstep. destruct ev as [error | i r]; cbn [step] in Hstep.
  - injection Hstep as Hstep.
    destruct (onRejected_shape error st) as [E | [[Hr E] | [Hr E]]];
      rewrite E in Hstep; injection Hstep as <- <-.
    + split; assumption.
    + split; cbn; [rewrite Hr in Hlen; exact Hlen | discriminate].
    + split; cbn; [|discriminate].
      rewrite Hr in Hlen. rewrite length_app, Hlen. reflexivity.
  - destruct (awaiting st !! i) as [c|] eqn:Hc; [|discriminate].
    injection Hstep as Hstep.
    destruct (resume_effects c r
                {| isRefreshing := isRefreshing st;
                   failedQueue := failedQueue st;
                   awaiting := delete i (awaiting st) |})
      as (_ & _ & Hq' & Hr' & Ha').
    rewrite Hstep in Hq', Hr', Ha'. cbn [fst snd awaiting] in Hq', Hr', Ha'.
    split; [|intros _; exact Hq'].
    rewrite Hr', Ha'. pose proof (lookup_lt_Some _ _ _ Hc) as Hlt.
    rewrite length_delete by eauto. destruct (isRefreshing st); lia.
Qed.

(** One step: the refreshes it calls and the one it settles balance the
    handlers left awaiting. *)
Lemma step_balance (st st' : State) (ev : Event) (effs : list Effect) :
  step st ev = Some (st', effs) ->
  count_calls effs + length (awaiting st)
  = (if is_settle ev then 1 else 0) + length (awaiting st').
Proof.
  intros Hstep. destruct ev as [error | i r]; cbn [step is_settle] in *.
  - injection Hstep as Hstep.
    destruct (onRejected_shape error st) as [E | [[Hr E] | [Hr E]]];
      rewrite E in Hstep; injection Hstep as <- <-; cbn.
    + reflexivity.
    + reflexivity.
    + rewrite length_app. cbn. lia.
  - destruct (awaiting st !! i) as [c|] eqn:Hc; [|discriminate].
    injection Hstep as Hstep.
    destruct (resume_effects c r
                {| isRefreshing := isRefreshing st;
                   failedQueue := failedQueue st;
                   awaiting := delete i (awaiting st) |})
      as (_ & Hcalls & _ & _ & Ha').
    rewrite Hstep in Hcalls, Ha'. cbn [fst snd awaiting] in Hcalls, Ha'.
    rewrite Hcalls, Ha'. pose proof (lookup_lt_Some _ _ _ Hc) as Hlt.
    rewrite length_delete by eauto. lia.
Qed.

Lemma calls_cons (effs : list Effect) (trace : list (list Effect)) :
  calls (effs :: trace) = count_calls effs + calls trace.
Proof.
  unfold calls, count_calls. cbn [concat].
  rewrite List.filter_app, length_app. reflexivity.
Qed.

Lemma run_invariant (evs : list Event) :
  forall st st' trace,
    invariant st -> run evs st = Some (st', trace) ->
    invariant st'
    /\ calls trace + length (awaiting st)
       = settles evs + length (awaiting st').
Proof.
  induction evs as [|ev evs IH]; intros st st' trace Hinv Hrun.
  - injection Hrun as <- <-. split; [exact Hinv | reflexivity].
  - cbn [run] in Hrun.
    destruct (step st ev) as [[st1 effs]|] eqn:Hstep; [|discriminate].
    cbn in Hrun.
    destruct (run evs st1) as [[st2 trace']|] eqn:Hrest; [|discriminate].
    cbn in Hrun. injection Hrun as <- <-.
    pose proof (step_invariant st st1 ev effs Hinv Hstep) as Hinv1.
    destruct (IH st1 st2 trace' Hinv1 Hrest) as [Hinv2 Hbal].
    split; [exact Hinv2|].
    pose proof (step_balance st st1 ev effs Hstep) as Hone.
    rewrite calls_cons. unfold settles in *. cbn [List.filter].
    destruct (is_settle ev); cbn [length]; lia.
Qed.

(** The refresh goes through the same axios instance: a 401 answer to
    [POST /auth/refresh] reaches this handler while the flag is raised,
    and joins the queue like any other request. *)
Lemma refresh_401_joins_queue (st : State) :
  isRefreshing st = true ->
  onRejected {| config := {| url := Some "/auth/refresh"; _retry := false;
                             Authorization := None |};
                response := Some 401%nat |} st
  = ({| isRefreshing := true;
        failedQueue := failedQueue st
                         ++ [{| url := Some "/auth/refresh"; _retry := false;
                                Authorization := None |}];
        awaiting := awaiting st |}, []).
Proof.
  intros Hr.
  destruct (onRejected_shape
              {| config := {| url := Some "/auth/refresh"; _retry := false;
                              Authorization := None |};
                 response := Some 401%nat |} st) as [E | [[_ E] | [Hr' _]]].
  - unfold onRejected in E. rewrite Hr in E. vm_compute in E. discriminate.
  - exact E.
  - congruence.
Qed.

(** Two protected requests and the run in which both fail with 401
    before the refresh, called once, succeeds with token ["T2"]. *)
Definition get_recordings : Config :=
  {| url := Some "/recordings"; _retry := false; Authorization := Some "Bearer T1" |}.

Definition get_me : Config :=
  {| url := Some "/auth/me"; _retry := false; Authorization := Some "Bearer T1" |}.

Definition two_failures : list Event :=
  [ ResponseError {| config := get_recordings; response := Some 401%nat |};
    ResponseError {| config := get_me; response := Some 401%nat |};
    RefreshSettled 0 (Fulfilled "T2") ].

Definition two_failures_trace : list (list Effect) :=
  [ [CallRefresh];
    [];
    [Resume (set_bearer "T2" get_me);
     Retry (set_bearer "T2" (set_retry get_recordings))] ].

(** Safety of the interceptor, with the settling of the refresh taken as
    an event of the environment: in every run from the initial state, the
    refreshes called are those that have settled plus those in flight, and
    at most one is in flight, exactly while the flag is raised; a 401 that
    arrives while the flag is down raises it and calls the refresh, a 401
    that arrives while it is raised only joins the queue; and queued
    continuations are woken by no step but the settling of the refresh,
    which wakes all of them (replayed with the new token, or rejected with
    the refresh error), empties the queue and lowers the flag. *)
Theorem single_flight_refresh (evs : list Event) (st : State)
    (trace : list (list Effect)) :
  run evs init = Some (st, trace) ->
  (calls trace = settles evs + length (awaiting st)
   /\ length (awaiting st) <= 1)
  /\ (isRefreshing st = true <-> length (awaiting st) = 1)
  /\ (forall error,
        renewable error = true -> is_auth_entry (config error) = false ->
        onRejected error st
        = if isRefreshing st
          then ({| isRefreshing := true;
                   failedQueue := failedQueue st ++ [config error];
                   awaiting := awaiting st |}, [])
          else ({| isRefreshing := true;
                   failedQueue := [];
                   awaiting := [set_retry (config error)] |}, [CallRefresh]))
  /\ (forall ev st' effs,
        step st ev = Some (st', effs) ->
        match ev with
        | ResponseError _ => List.filter is_wake effs = []
        | RefreshSettled _ r =>
            List.filter is_wake effs = List.map (wake r) (failedQueue st)
            /\ count_calls effs = 0
            /\ failedQueue st' = []
            /\ isRefreshing st' = false
        end).
Proof.
  intros Hrun.
  destruct (run_invariant evs init st trace invariant_init Hrun)
    as [[Hlen Hq] Hbal].
  cbn [awaiting init length] in Hbal. rewrite Nat.add_0_r in Hbal.
  repeat apply conj.
  - exact Hbal.
  - rewrite Hlen. destruct (isRefreshing st); lia.
  - intros Hr. rewrite Hlen, Hr. reflexivity.
  - intros H1. rewrite Hlen in H1. destruct (isRefreshing st); [reflexivity | discriminate].
  - intros error Hren Hentry. unfold onRejected.
    destruct (response error) as [code|] eqn:Hresp.
    + rewrite Hren, Hentry. destruct (isRefreshing st) eqn:Hr; [reflexivity|].
      rewrite (Hq eq_refl).
      destruct (awaiting st); [reflexivity | discriminate].
    + unfold renewable in Hren. rewrite Hresp in Hren. discriminate.
  - intros ev st' effs Hstep. destruct ev as [error | i r]; cbn [step] in Hstep.
    + injection Hstep as Hstep.
      destruct (onRejected_shape error st) as [E | [[_ E] | [_ E]]];
        rewrite E in Hstep; injection Hstep as <- <-; reflexivity.
    + destruct (awaiting st !! i) as [c|]; [|discriminate].
      injection Hstep as Hstep.
      destruct (resume_effects c r
                  {| isRefreshing := isRefreshing st;
                     failedQueue := failedQueue st;
                     awaiting := delete i (awaiting st) |})
        as (Hw & Hc & Hq' & Hr' & _).
      rewrite Hstep in Hw, Hc, Hq', Hr'.
      cbn [fst snd failedQueue] in Hw, Hc, Hq', Hr'. auto.
Qed.

Lemma single_flight_refresh_witness :
  run two_failures init = Some (init, two_failures_trace)
  /\ calls two_failures_trace = 1
  /\ length (awaiting init) <= 1.
Proof.
  assert (Hrun : run two_failures init = Some (init, two_failures_trace))
    by (vm_compute; reflexivity).
  destruct (single_flight_refresh two_failures init two_failures_trace Hrun)
    as ((Hcalls & Hone) & _).
  split; [exact Hrun|]. split; [exact Hcalls | exact Hone].
Defined.


End SingleFlight.

(** ** The refresh as a request of the same client

    [refreshToken()] posts to [/auth/refresh] through [api], the axios
    instance that carries the interceptors, so the answer to that request
    passes the response interceptor like any other before the promise
    that the handler awaits settles.  A client is the state of the
    interceptor and whether the request of the awaited refresh is still
    unanswered. *)

Module RefreshLoop.
Import Js AuthContext.

(** The request of [refreshToken()], with the header that the request
    interceptor gave it. *)
Definition refresh_request (authorization : option string) : Config :=
  {| url := Some "/auth/refresh"; _retry := false;
     Authorization := authorization |}.

(** The answer to that request: the access token of a 2xx response, or an
    error with the status of its response, if it has one, and its
    message. *)
Inductive RefreshAnswer :=
| Renewed (accessToken : string)
| Refused (status : option nat) (message : string).

Record Client := {
  handlers : State;
  unanswered : bool
}.

Definition start : Client := {| handlers := init; unanswered := false |}.

(** What reaches the client: the failure of a request other than the
    awaited refresh, or the answer to the awaited refresh. *)
Inductive Delivery :=
| Failure (error : AxiosError)
| Answer (authorization : option string) (answer : RefreshAnswer).

(** The answer to the awaited refresh.  A 2xx passes the interceptor, and
    [refreshToken()] resolves with the token.  An error enters the error
    handler of the interceptor: when the handler rejects, [api.post] and
    with it [refreshToken()] reject, and the handler that awaits resumes
    in its [catch]; when the handler queues the request, the promise of
    [api.post] waits in the queue and [refreshToken()] stays pending. *)
Definition answer_refresh (authorization : option string)
    (answer : RefreshAnswer) (st : State) : option (State * list Effect) :=
  match answer with
  | Renewed accessToken => step st (RefreshSettled 0 (Fulfilled accessToken))
  | Refused status message =>
      let '(st1, effs1) :=
        onRejected {| config := refresh_request authorization;
                      response := status |} st in
      match effs1 with
      | [Reject _] =>
          '(st2, effs2) ← step st1 (RefreshSettled 0 (Rejected message));
          Some (st2, (effs1 ++ effs2)%list)
      | _ => Some (st1, effs1)
      end
  end.

Definition deliver (cl : Client) (ev : Delivery)
    : option (Client * list Effect) :=
  match ev with
  | Failure error =>
      let '(st, effs) := onRejected error (handlers cl) in
      Some ({| handlers := st;
               unanswered := unanswered cl || List.existsb is_call effs |},
            effs)
  | Answer authorization answer =>
      if unanswered cl then
        '(st, effs) ← answer_refresh authorization answer (handlers cl);
        Some ({| handlers := st; unanswered := false |}, effs)
      else None
  end.

Fixpoint deliveries (evs : list Delivery) (cl : Client)
    : option (Client * list (list Effect)) :=
  match evs with
  | [] => Some (cl, [])
  | ev :: rest =>
      '(cl1, effs) ← deliver cl ev;
      '(cl2, trace) ← deliveries rest cl1;
      Some (cl2, effs :: trace)
  end.

(** The flag is raised and nothing is left that could lower it: the
    awaited refresh has been answered, and its promise has not settled. *)
Definition stranded (cl : Client) : Prop :=
  isRefreshing (handlers cl) = true /\ unanswered cl = false.

Definition is_reject (e : Effect) : Prop :=
  match e with Reject _ => True | _ => False end.

Lemma deliver_stranded (cl cl' : Client) (ev : Delivery) (effs : list Effect) :
  stranded cl -> deliver cl ev = Some (cl', effs) ->
  stranded cl'
  /\ awaiting (handlers cl') = awaiting (handlers cl)
  /\ (exists more,
        failedQueue (handlers cl') = (failedQueue (handlers cl) ++ more)%list)
  /\ Forall is_reject effs.
Proof.
  intros [Hflag Hdone] Hstep. destruct ev as [error | authorization answer].
  - cbn [deliver] in Hstep.
    destruct (SingleFlight.onRejected_shape error (handlers cl))
      as [E | [[_ E] | [Hdown _]]]; [| |congruence];
      rewrite E in Hstep; injection Hstep as <- <-;
      cbn [handlers unanswered isRefreshing awaiting failedQueue List.existsb
           is_call orb]; rewrite Hdone.
    + repeat split; try assumption; [|repeat constructor].
      exists []. rewrite app_nil_r. reflexivity.
    + repeat split; [|constructor]. eexists. reflexivity.
  - cbn [deliver] in Hstep. rewrite Hdone in Hstep. discriminate.
Qed.

Lemma deliveries_stranded (evs : list Delivery) :
  forall cl cl' trace,
    stranded cl -> deliveries evs cl = Some (cl', trace) ->
    stranded cl'
    /\ awaiting (handlers cl') = awaiting (handlers cl)
    /\ (exists more,
          failedQueue (handlers cl') = (failedQueue (handlers cl) ++ more)%list)
    /\ Forall is_reject (concat trace).
Proof.
  induction evs as [|ev evs IH]; intros cl cl' trace Hcl Hrun.
  - injection Hrun as <- <-. repeat split; try apply Hcl; [|constructor].
    exists []. rewrite app_nil_r. reflexivity.
  - cbn [deliveries] in Hrun.
    destruct (deliver cl ev) as [[cl1 effs]|] eqn:Hstep; [|discriminate].
    cbn in Hrun.
    destruct (deliveries evs cl1) as [[cl2 trace']|] eqn:Hrest; [|discriminate].
    cbn in Hrun. injection Hrun as <- <-.
    destruct (deliver_stranded cl cl1 ev effs Hcl Hstep)
      as (Hcl1 & Ha1 & (more1 & Hq1) & Heffs).
    destruct (IH cl1 cl2 trace' Hcl1 Hrest) as (Hcl2 & Ha2 & (more2 & Hq2) & Htrace).
    split; [exact Hcl2|]. split; [congruence|]. split.
    + exists (more1 ++ more2)%list. rewrite Hq2, Hq1, app_assoc. reflexivity.
    + cbn [concat]. apply Forall_app. split; assumption.
Qed.

(** The 401 of the refresh is a 401 like any other to the interceptor:
    with the flag raised, the request joins the queue. *)
Lemma refresh_401_queued (authorization : option string) (st : State) :
  isRefreshing st = true ->
  onRejected {| config := refresh_request authorization;
                response := Some 401%nat |} st
  = ({| isRefreshing := isRefreshing st;
        failedQueue := (failedQueue st ++ [refresh_request authorization])%list;
        awaiting := awaiting st |}, []).
Proof. intros Hflag. unfold onRejected. cbn. rewrite Hflag. reflexivity. Qed.

(** The client with the flag raised, [queue] waiting, the handler of
    [original] awaiting the refresh, and the request of that refresh
    unanswered. *)
Definition refreshing (queue : list Config) (original : Config) : Client :=
  {| handlers := {| isRefreshing := true; failedQueue := queue;
                    awaiting := [original] |};
     unanswered := true |}.

Definition idle : Client :=
  {| handlers := {| isRefreshing := false; failedQueue := []; awaiting := [] |};
     unanswered := false |}.

(** C2, the answer to the one refresh in flight.  A renewal replays every
    queued request and the original one with the header of the new
    token, and any refusal but a 401 rejects them all, clears the
    credentials and redirects to [/login]; both lower the flag and empty
    the queue.  A 401 answer to the refresh is queued behind the refresh
    it answers: the step wakes nothing, and in no later run is a queued
    request or the original one replayed or rejected, the credentials
    cleared, the redirect made, another refresh called or the flag
    lowered; later 401s only lengthen the queue. *)
Theorem unauthorized_refresh_strands_queue (queue : list Config)
    (original : Config) (authorization : option string) :
  (forall accessToken,
     deliver (refreshing queue original) (Answer authorization (Renewed accessToken))
     = Some (idle,
             (List.map (fun c => Resume (set_bearer accessToken c)) queue
              ++ [Retry (set_bearer accessToken original)])%list)
     /\ forall c, Authorization (set_bearer accessToken c)
                  = Some ("Bearer " ++ accessToken))
  /\ (forall status message, status <> Some 401%nat ->
        deliver (refreshing queue original)
          (Answer authorization (Refused status message))
        = Some (idle,
                (Reject (refresh_request authorization)
                 :: List.map (fun c => Abort c message) queue
                 ++ [RemoveItem "accessToken"; RemoveItem "lastLogin";
                     RedirectAfter 1000 "/login"; Fail original message])%list))
  /\ (forall message,
        deliver (refreshing queue original)
          (Answer authorization (Refused (Some 401%nat) message))
        = Some ({| handlers :=
                     {| isRefreshing := true;
                        failedQueue :=
                          (queue ++ [refresh_request authorization])%list;
                        awaiting := [original] |};
                   unanswered := false |}, [])
        /\ forall evs cl trace,
             deliveries evs
               {| handlers :=
                    {| isRefreshing := true;
                       failedQueue :=
                         (queue ++ [refresh_request authorization])%list;
                       awaiting := [original] |};
                  unanswered := false |}
             = Some (cl, trace) ->
             isRefreshing (handlers cl) = true
             /\ unanswered cl = false
             /\ awaiting (handlers cl) = [original]
             /\ (exists more,
                   failedQueue (handlers cl)
                   = ((queue ++ [refresh_request authorization]) ++ more)%list)
             /\ Forall is_reject (concat trace)).
Proof.
  split; [|split].
  - intros accessToken. split; [reflexivity|]. intros c. reflexivity.
  - intros status message Hstatus.
    unfold deliver, refreshing. cbn [unanswered handlers answer_refresh].
    assert (Hpass : onRejected {| config := refresh_request authorization;
                                  response := status |}
                      {| isRefreshing := true; failedQueue := queue;
                         awaiting := [original] |}
                    = ({| isRefreshing := true; failedQueue := queue;
                          awaiting := [original] |},
                       [Reject (refresh_request authorization)])).
    { unfold onRejected, renewable. cbn [config response].
      destruct status as [code|]; [|reflexivity].
      rewrite bool_decide_eq_false_2 by exact Hstatus. reflexivity. }
    rewrite Hpass. reflexivity.
  - intros message. split.
    + unfold deliver, refreshing. cbn [unanswered handlers answer_refresh].
      rewrite refresh_401_queued by reflexivity. reflexivity.
    + intros evs cl trace Hrun.
      assert (Hs : stranded
                     {| handlers :=
                          {| isRefreshing := true;
                             failedQueue :=
                               (queue ++ [refresh_request authorization])%list;
                             awaiting := [original] |};
                        unanswered := false |}) by (split; reflexivity).
      destruct (deliveries_stranded evs _ cl trace Hs Hrun)
        as ([Hflag Hdone] & Hawaiting & Hqueue & Htrace).
      repeat split; assumption.
Qed.

(** Two protected requests fail with 401, the refresh is called once and
    is answered 401, and a third request fails with 401. *)
Definition refused_refresh : list Delivery :=
  [ Failure {| config := SingleFlight.get_recordings; response := Some 401%nat |};
    Failure {| config := SingleFlight.get_me; response := Some 401%nat |};
    Answer None (Refused (Some 401%nat) "Request failed with status code 401");
    Failure {| config := SingleFlight.get_me; response := Some 401%nat |} ].

Lemma unauthorized_refresh_strands_queue_witness :
  exists cl,
    deliveries refused_refresh start
    = Some (cl, [[CallRefresh]; []; []; []])
    /\ isRefreshing (handlers cl) = true
    /\ awaiting (handlers cl) = [set_retry SingleFlight.get_recordings]
    /\ failedQueue (handlers cl)
       = [SingleFlight.get_me; refresh_request None; SingleFlight.get_me].
Proof.
  destruct (unauthorized_refresh_strands_queue [SingleFlight.get_me]
              (set_retry SingleFlight.get_recordings) None)
    as (_ & _ & Hstrand).
  destruct (Hstrand "Request failed with status code 401") as [Hstep Hlater].
  destruct (deliveries
              [Failure {| config := SingleFlight.get_me;
                          response := Some 401%nat |}]
              {| handlers :=
                   {| isRefreshing := true;
                      failedQueue := [SingleFlight.get_me; refresh_request None];
                      awaiting := [set_retry SingleFlight.get_recordings] |};
                 unanswered := false |}) as [[cl trace]|] eqn:Hrun;
    [|vm_compute in Hrun; discriminate].
  destruct (Hlater _ cl trace Hrun) as (Hflag & _ & Hawaiting & _ & _).
  exists cl. split; [|split; [exact Hflag|split; [exact Hawaiting|]]].
  - vm_compute in Hrun. injection Hrun as <- <-. vm_compute. reflexivity.
  - vm_compute in Hrun. injection Hrun as <- _. reflexivity.
Defined.

End RefreshLoop.

(** * Further properties of the session protocol *)

Module SessionLifecycle.
Import Js Http MemoryDb JwtUtils JwtUtilsFacts ExpressValidator AuthController.
Import Ledger Registration.

(** The user [login] saves: the last login is stamped, and [save()] stamps
    the update. *)
Definition logged_in (now : Z) (u : UserModel.t) : UserModel.t :=
  {| UserModel._id := UserModel._id u;
     UserModel.email := UserModel.email u;
     UserModel.password := UserModel.password u;
     UserModel.nickname := UserModel.nickname u;
     UserModel.avatar := UserModel.avatar u;
     UserModel.isEmailVerified := UserModel.isEmailVerified u;
     UserModel.createdAt := UserModel.createdAt u;
     UserModel.updatedAt := now;
     UserModel.lastLoginAt := Some now |}.

(** The record [RefreshToken.create] stores for a new session. *)
Definition session_record (uuid token uid : string) (now : Z) : RefreshTokenModel.t :=
  {| RefreshTokenModel._id := uuid;
     RefreshTokenModel.token := token;
     RefreshTokenModel.userId := uid;
     RefreshTokenModel.expiresAt := getRefreshTokenExpiry now;
     RefreshTokenModel.createdAt := now |}.

(** Every key of the token map points at an object of the heap. *)
Definition ledger_ok (s : Store) : Prop :=
  forall t a, refreshTokens s !! t = Some a -> (a < length (heap s))%nat.

Section WithPlatform.
Context `{Platform}.

Lemma issue_session_store code message u rnd now s :
  snd (issue_session code message u rnd now s)
  = {| users := users s;
       refreshTokens := <[randomHex rnd := length (heap s)]> (refreshTokens s);
       heap := heap s ++ [session_record (uuid_token rnd) (randomHex rnd)
                            (UserModel._id u) now] |}.
Proof.
  unfold issue_session. rewrite RefreshToken_create_store. reflexivity.
Qed.

Lemma login_succeeded (req : Request) rnd now s :
  status (fst (login req rnd now s)) = 200%nat ->
  exists u,
    User_findOne (email (Http.body req)) s = Some u
    /\ comparePassword u (password (Http.body req)) = Return true
    /\ login req rnd now s
       = issue_session 200 "登录成功" (logged_in now u) rnd now
           (with_users (map_set (UserModel._id u) (logged_in now u) (users s)) s).
Proof.
  unfold login.
  destruct (bool_decide (validationResult req = [])); cbn [negb];
    [|cbn; discriminate].
  destruct (User_findOne (email (Http.body req)) s) as [u|]; [|cbn; discriminate].
  destruct (comparePassword u (password (Http.body req))) as [[|]|] eqn:Hc;
    try (cbn; discriminate).
  intros _. exists u. split; [reflexivity|]. split; [exact Hc | reflexivity].
Qed.

(** The new session of a store [s'] that is [s] with the record of
    [issue_session] added: the token is found until its expiry. *)
Lemma new_session_found code message u rnd now s now' :
  randomHex rnd <> "" ->
  (now' < getRefreshTokenExpiry now)%Z ->
  findValid (Some (randomHex rnd)) now'
    (snd (issue_session code message u rnd now s))
  = Some (length (heap s),
          session_record (uuid_token rnd) (randomHex rnd) (UserModel._id u) now).
Proof.
  intros Hne Hlive. rewrite issue_session_store.
  apply findValid_live; cbn [refreshTokens heap].
  - exact Hne.
  - apply lookup_insert_eq.
  - apply list_lookup_middle. reflexivity.
  - exact Hlive.
Qed.

(** Other tokens are found as before. *)
Lemma other_sessions_kept code message u rnd now s t now' :
  ledger_ok s -> t <> randomHex rnd ->
  findValid (Some t) now' (snd (issue_session code message u rnd now s))
  = findValid (Some t) now' s.
Proof.
  intros Hok Hne. rewrite issue_session_store.
  unfold findValid, RefreshToken_findOne. cbn [q_token q_expiresAt_gt].
  destruct (truthy (Some t)); [|reflexivity].
  cbn [toString refreshTokens heap].
  rewrite lookup_insert_ne by congruence.
  destruct (refreshTokens s !! t) as [a|] eqn:Hm; [|reflexivity].
  rewrite lookup_app_l by (eapply Hok; exact Hm). reflexivity.
Qed.

End WithPlatform.
End SessionLifecycle.

Module SessionProperties.
Import Js Http MemoryDb JwtUtils JwtUtilsFacts ExpressValidator AuthController.
Import Ledger Registration SessionLifecycle.

(** The claims of an access token issued at [now] for [uid]. *)
Definition access_claims (uid : string) (now : Z) : Jwt.Payload :=
  {| Jwt.userId := uid; Jwt.type := Some "access";
     Jwt.iat := (now / 1000)%Z;
     Jwt.exp := Some (now / 1000 + JWT_EXPIRES_IN)%Z |}.

(** A successful registration opens a working session: the access token
    of the response verifies, for 15 minutes, to the identifier of the
    user just created, and the refresh token of the cookie is found, for 7
    days, with a record of that user. *)
Theorem register_opens_session `{Platform} (req : Request) (rnd : Entropy)
    (now now' : Z) (s : Store) :
  status (fst (register req rnd now s)) = 201%nat ->
  randomHex rnd <> "" ->
  exists u accessToken,
    json (fst (register req rnd now s))
    = JSession "注册成功" (toJSON u) accessToken
    /\ UserModel._id u = uuid_user rnd
    /\ ((now' / 1000 < now / 1000 + JWT_EXPIRES_IN)%Z ->
        verifyAccessToken accessToken now'
        = Return (access_claims (uuid_user rnd) now))
    /\ cookie (fst (register req rnd now s)) = refreshCookie (randomHex rnd)
    /\ ((now' < getRefreshTokenExpiry now)%Z ->
        exists a,
          findValid (Some (randomHex rnd)) now' (snd (register req rnd now s))
          = Some (a, session_record (uuid_token rnd) (randomHex rnd)
                       (uuid_user rnd) now)).
Proof.
  intros Hok Hne.
  destruct (register_created req rnd now s Hok) as (u & _ & Hid & ->).
  exists u, (generateAccessToken (UserModel._id u) now).
  rewrite issue_session_response. cbn [json cookie]. repeat apply conj.
  - reflexivity.
  - exact Hid.
  - intros Hwin. rewrite Hid. apply verify_issued, Hwin.
  - reflexivity.
  - intros Hlive. eexists. rewrite <- Hid. apply new_session_found; assumption.
Qed.

Lemma register_opens_session_witness :
  exists a,
    findValid (Some "R9") 1000
      (snd (@register Sample.platform
              (credentials "bob@example.com" "Abcd1234" None) draw 0 alice_store))
    = Some (a, session_record "rt-2" "R9" "u2" 0).
Proof.
  destruct (@register_opens_session Sample.platform
              (credentials "bob@example.com" "Abcd1234" None) draw 0%Z 1000%Z
              alice_store) as (u & tok & _ & _ & _ & _ & Hfound).
  - vm_compute. reflexivity.
  - discriminate.
  - apply Hfound. vm_compute. reflexivity.
Defined.

(** A successful login stamps the last login of the user found by email,
    and opens a session for that user: the access token verifies to the
    user's identifier and the refresh token of the cookie is found with a
    record of that user. *)
Theorem login_opens_session `{Platform} (req : Request) (rnd : Entropy)
    (now now' : Z) (s : Store) :
  status (fst (login req rnd now s)) = 200%nat ->
  randomHex rnd <> "" ->
  exists u accessToken,
    User_findOne (email (Http.body req)) s = Some u
    /\ json (fst (login req rnd now s))
       = JSession "登录成功" (toJSON (logged_in now u)) accessToken
    /\ User_findById (UserModel._id u) (snd (login req rnd now s))
       = Some (logged_in now u)
    /\ ((now' / 1000 < now / 1000 + JWT_EXPIRES_IN)%Z ->
        verifyAccessToken accessToken now'
        = Return (access_claims (UserModel._id u) now))
    /\ cookie (fst (login req rnd now s)) = refreshCookie (randomHex rnd)
    /\ ((now' < getRefreshTokenExpiry now)%Z ->
        exists a,
          findValid (Some (randomHex rnd)) now' (snd (login req rnd now s))
          = Some (a, session_record (uuid_token rnd) (randomHex rnd)
                       (UserModel._id u) now)).
Proof.
  intros Hok Hne.
  destruct (login_succeeded req rnd now s Hok) as (u & Hfound & _ & ->).
  exists u, (generateAccessToken (UserModel._id u) now).
  rewrite issue_session_response. cbn [json cookie]. repeat apply conj.
  - exact Hfound.
  - reflexivity.
  - unfold User_findById. rewrite issue_session_users. cbn [users with_users].
    rewrite map_set_find. reflexivity.
  - intros Hwin. apply (verify_issued (UserModel._id u) now now' Hwin).
  - reflexivity.
  - intros Hlive. eexists.
    apply (new_session_found 200 "登录成功" (logged_in now u)); assumption.
Qed.

(** [alice] with the hash bcryptjs accepts for ["Abcd1234"] on the sample
    platform is [alice] herself; a login with that password succeeds. *)
Lemma login_opens_session_witness :
  exists u accessToken,
    json (fst (@login Sample.platform
                 (credentials "alice@example.com" "Abcd1234" None) draw 5
                 alice_store))
    = JSession "登录成功" (toJSON (logged_in 5 u)) accessToken
    /\ UserModel._id u = "u1".
Proof.
  destruct (@login_opens_session Sample.platform
              (credentials "alice@example.com" "Abcd1234" None) draw 5%Z 5%Z
              alice_store) as (u & tok & Hfound & Hjson & _).
  - vm_compute. reflexivity.
  - discriminate.
  - exists u, tok. split; [exact Hjson|].
    vm_compute in Hfound. injection Hfound as <-. reflexivity.
Defined.

End SessionProperties.

Module SessionInvariants.
Import Js Http MemoryDb JwtUtils JwtUtilsFacts ExpressValidator AuthController.
Import Ledger Registration SessionLifecycle SessionProperties.

Section WithPlatform.
Context `{Platform}.

(** A handler that does not answer with its success status has returned
    before any write. *)
Lemma register_refused (req : Request) rnd now s :
  status (fst (register req rnd now s)) <> 201%nat ->
  snd (register req rnd now s) = s /\ cookie (fst (register req rnd now s)) = None.
Proof.
  unfold register.
  destruct (bool_decide (validationResult req = [])); cbn [negb];
    [|split; reflexivity].
  destruct (User_findOne (email (Http.body req)) s); [split; reflexivity|].
  destruct (truthy (nickname (Http.body req))) eqn:Hn.
  - cbn [mbind Result_bind]. unfold User_new. rewrite Hn.
    cbn [mbind Result_bind User_save]. rewrite issue_session_response.
    cbn. congruence.
  - destruct (email (Http.body req)) as [e|]; [|split; reflexivity].
    cbn [mbind Result_bind]. unfold User_new.
    destruct (truthy (Some (split_head "@" e)));
      cbn [mbind Result_bind User_save]; rewrite issue_session_response;
      cbn; congruence.
Qed.

Lemma login_refused (req : Request) rnd now s :
  status (fst (login req rnd now s)) <> 200%nat ->
  snd (login req rnd now s) = s /\ cookie (fst (login req rnd now s)) = None.
Proof.
  unfold login.
  destruct (bool_decide (validationResult req = [])); cbn [negb];
    [|split; reflexivity].
  destruct (User_findOne (email (Http.body req)) s) as [u|]; [|split; reflexivity].
  destruct (comparePassword u (password (Http.body req))) as [[|]|];
    try (split; reflexivity).
  cbn [User_save]. rewrite issue_session_response. cbn. congruence.
Qed.

Lemma refresh_refused (req : Request) rnd now s :
  status (fst (refreshAccessToken req rnd now s)) <> 200%nat ->
  snd (refreshAccessToken req rnd now s) = s
  /\ cookie (fst (refreshAccessToken req rnd now s)) = None.
Proof.
  unfold refreshAccessToken.
  destruct (truthy (cookies_refreshToken req)); cbn [negb];
    [|split; reflexivity].
  destruct (RefreshToken_findOne _ s) as [[a d]|]; [|split; reflexivity].
  cbn. congruence.
Qed.

Lemma ledger_ok_issue code message u rnd now s :
  ledger_ok s -> ledger_ok (snd (issue_session code message u rnd now s)).
Proof.
  intros Hok t a. rewrite issue_session_store. cbn [refreshTokens heap].
  rewrite length_app. cbn [length].
  destruct (decide (randomHex rnd = t)) as [->|Hne].
  - rewrite lookup_insert_eq. intros [= <-]. lia.
  - rewrite lookup_insert_ne by exact Hne. intros Hm.
    pose proof (Hok t a Hm). lia.
Qed.

End WithPlatform.

(** A registration answered 400, a login answered 400 or 401 and a
    refresh answered 401 return before any write: the store is the one
    the handler received and the response sets no cookie. *)
Theorem refusals_change_nothing `{Platform} (req : Request) (rnd : Entropy)
    (now : Z) (s : Store) :
  (status (fst (register req rnd now s)) = 400%nat ->
     snd (register req rnd now s) = s
     /\ cookie (fst (register req rnd now s)) = None)
  /\ (status (fst (login req rnd now s)) = 400%nat
      \/ status (fst (login req rnd now s)) = 401%nat ->
      snd (login req rnd now s) = s
      /\ cookie (fst (login req rnd now s)) = None)
  /\ (status (fst (refreshAccessToken req rnd now s)) = 401%nat ->
      snd (refreshAccessToken req rnd now s) = s
      /\ cookie (fst (refreshAccessToken req rnd now s)) = None).
Proof.
  repeat apply conj.
  - intros Hs. apply register_refused. rewrite Hs. discriminate.
  - intros [Hs | Hs]; apply login_refused; rewrite Hs; discriminate.
  - intros Hs. apply refresh_refused. rewrite Hs. discriminate.
Qed.

Lemma refusals_change_nothing_witness :
  snd (@login Sample.platform
         (credentials "alice@example.com" "wrong" None) draw 5 alice_store)
  = alice_store
  /\ snd (@register Sample.platform
            (credentials "alice@example.com" "Abcd1234" None) draw 5 alice_store)
     = alice_store
  /\ snd (@refreshAccessToken Sample.platform (with_cookie "R9") draw 5
            one_session)
     = one_session.
Proof.
  destruct (@refusals_change_nothing Sample.platform
              (credentials "alice@example.com" "wrong" None) draw 5%Z alice_store)
    as (_ & Hlogin & _).
  destruct (@refusals_change_nothing Sample.platform
              (credentials "alice@example.com" "Abcd1234" None) draw 5%Z
              alice_store) as (Hregister & _).
  destruct (@refusals_change_nothing Sample.platform
              (with_cookie "R9") draw 5%Z one_session) as (_ & _ & Hrefresh).
  split; [|split].
  - apply Hlogin. right. vm_compute. reflexivity.
  - apply Hregister. vm_compute. reflexivity.
  - apply Hrefresh. vm_compute. reflexivity.
Defined.

(** A new registration or login revokes nothing: every other token is
    found exactly as before, so a user keeps the sessions opened
    earlier. *)
Theorem new_session_keeps_others `{Platform} (req : Request) (rnd : Entropy)
    (now now' : Z) (s : Store) (t : string) :
  ledger_ok s ->
  t <> randomHex rnd ->
  findValid (Some t) now' (snd (register req rnd now s)) = findValid (Some t) now' s
  /\ findValid (Some t) now' (snd (login req rnd now s)) = findValid (Some t) now' s.
Proof.
  intros Hok Hne. split.
  - destruct (Nat.eq_dec (status (fst (register req rnd now s))) 201) as [Hs|Hs].
    + destruct (register_created req rnd now s Hs) as (u & _ & _ & ->).
      rewrite other_sessions_kept; [reflexivity | | exact Hne].
      intros t' a Hm. apply (Hok t' a Hm).
    + destruct (register_refused req rnd now s Hs) as [-> _]. reflexivity.
  - destruct (Nat.eq_dec (status (fst (login req rnd now s))) 200) as [Hs|Hs].
    + destruct (login_succeeded req rnd now s Hs) as (u & _ & _ & ->).
      rewrite other_sessions_kept; [reflexivity | | exact Hne].
      intros t' a Hm. apply (Hok t' a Hm).
    + destruct (login_refused req rnd now s Hs) as [-> _]. reflexivity.
Qed.

Lemma one_session_ok : ledger_ok one_session.
Proof.
  intros t a. unfold one_session. rewrite RefreshToken_create_store.
  cbn [snd refreshTokens heap MemoryDb.empty].
  destruct (decide ("R1" = t)) as [<-|Hne].
  - rewrite lookup_insert_eq. intros [= <-]. cbn. lia.
  - rewrite lookup_insert_ne by exact Hne. rewrite lookup_empty. discriminate.
Qed.

Lemma new_session_keeps_others_witness :
  findValid (Some "R1") 1000
    (snd (@register Sample.platform
            (credentials "bob@example.com" "Abcd1234" None) draw 0 one_session))
  = findValid (Some "R1") 1000 one_session.
Proof.
  destruct (@new_session_keeps_others Sample.platform
              (credentials "bob@example.com" "Abcd1234" None) draw 0%Z 1000%Z
              one_session "R1" one_session_ok) as [Hregister _].
  - discriminate.
  - exact Hregister.
Defined.

End SessionInvariants.

(** ** The user store: one user per email *)

Module UserStore.
Import Js Http MemoryDb ExpressValidator AuthController.
Import Registration SessionLifecycle SessionInvariants.

(** The email under which [findOne] can find a user: a truthy one. *)
Definition live_email (u : UserModel.t) : option string :=
  if truthy (UserModel.email u) then UserModel.email u else None.

Definition emails (us : list (string * UserModel.t)) : list string :=
  omap (fun kv => live_email (snd kv)) us.

Definition keys (us : list (string * UserModel.t)) : list string :=
  fst <$> us.

(** The users map as the handlers keep it: keys are distinct (it is a
    [Map]), every user is stored under its [_id], and no two users share an
    email that [findOne] can query. *)
Definition users_ok (s : Store) : Prop :=
  NoDup (keys (users s))
  /\ Forall (fun kv => fst kv = UserModel._id (snd kv)) (users s)
  /\ NoDup (emails (users s)).

Lemma map_set_keys_elem (k k' : string) (v : UserModel.t) m :
  k' ∈ keys (map_set k v m) -> k' = k \/ k' ∈ keys m.
Proof.
  unfold keys. induction m as [|[k0 v0] m IH]; cbn.
  - intros Hin. apply list_elem_of_singleton in Hin. auto.
  - destruct (String.eqb_spec k0 k) as [->|Hne]; cbn.
    + rewrite !elem_of_cons. tauto.
    + rewrite !elem_of_cons. intros [->|Hin]; [auto|].
      destruct (IH Hin); auto.
Qed.

Lemma map_set_keys_NoDup (k : string) (v : UserModel.t) m :
  NoDup (keys m) -> NoDup (keys (map_set k v m)).
Proof.
  unfold keys. induction m as [|[k0 v0] m IH]; cbn.
  - intros _. apply NoDup_singleton.
  - intros Hnd. apply list.NoDup_cons in Hnd as [Hnotin Hnd].
    destruct (String.eqb_spec k0 k) as [->|Hne]; cbn.
    + apply list.NoDup_cons. auto.
    + apply list.NoDup_cons. split; [|auto].
      intros Hin. apply map_set_keys_elem in Hin as [->|Hin]; auto.
Qed.

Lemma map_set_Forall (P : string * UserModel.t -> Prop) k v m :
  P (k, v) -> Forall P m -> Forall P (map_set k v m).
Proof.
  intros Hkv. induction m as [|[k0 v0] m IH]; cbn; intros Hall.
  - constructor; [exact Hkv | constructor].
  - inversion Hall as [|? ? H0 Hrest]; subst.
    destruct (String.eqb k0 k); constructor; auto.
Qed.

Lemma emails_map_set_elem (k e : string) (v : UserModel.t) m :
  e ∈ emails (map_set k v m) -> e ∈ emails m \/ live_email v = Some e.
Proof.
  unfold emails. induction m as [|[k0 v0] m IH]; cbn.
  - destruct (live_email v) as [e'|]; cbn.
    + intros Hin. apply list_elem_of_singleton in Hin. subst. auto.
    + intros Hin. apply not_elem_of_nil in Hin. contradiction.
  - destruct (String.eqb k0 k); cbn.
    + destruct (live_email v) as [e'|], (live_email v0) as [e0|];
        rewrite ?elem_of_cons; intuition (subst; auto).
    + destruct (live_email v0) as [e0|]; rewrite ?elem_of_cons.
      * intros [->|Hin]; [auto|]. destruct (IH Hin); auto.
      * intros Hin. destruct (IH Hin); auto.
Qed.

(** Storing a user whose email no stored user has keeps emails
    distinct. *)
Lemma emails_map_set_fresh (k : string) (v : UserModel.t) m :
  NoDup (emails m) ->
  (forall e, live_email v = Some e -> e ∉ emails m) ->
  NoDup (emails (map_set k v m)).
Proof.
  unfold emails. induction m as [|[k0 v0] m IH]; cbn; intros Hnd Hfresh.
  - destruct (live_email v); cbn; [apply NoDup_singleton | constructor].
  - destruct (String.eqb k0 k); cbn.
    + destruct (live_email v0) as [e0|] eqn:E0, (live_email v) as [e|] eqn:E.
      * apply list.NoDup_cons in Hnd as [_ Hnd]. apply list.NoDup_cons. split; [|exact Hnd].
        intros Hin. apply (Hfresh e eq_refl). apply elem_of_cons. auto.
      * apply list.NoDup_cons in Hnd as [_ Hnd]. exact Hnd.
      * apply list.NoDup_cons. split; [|exact Hnd]. apply (Hfresh e eq_refl).
      * exact Hnd.
    + destruct (live_email v0) as [e0|] eqn:E0.
      * apply list.NoDup_cons in Hnd as [Hnotin Hnd]. apply list.NoDup_cons. split.
        -- intros Hin. apply emails_map_set_elem in Hin as [Hin|Hv]; [auto|].
           apply (Hfresh e0 Hv). apply elem_of_cons. auto.
        -- apply IH; [exact Hnd|]. intros e He Hin.
           apply (Hfresh e He). apply elem_of_cons. auto.
      * apply IH; assumption.
Qed.

(** Storing a user again under its key, with the same email, leaves the
    emails as they are. *)
Lemma emails_map_set_same (k : string) (u v : UserModel.t) m :
  NoDup (keys m) -> (k, u) ∈ m -> live_email v = live_email u ->
  emails (map_set k v m) = emails m.
Proof.
  unfold emails, keys. induction m as [|[k0 v0] m IH]; cbn; intros Hnd Hin Heq.
  - apply not_elem_of_nil in Hin. contradiction.
  - apply list.NoDup_cons in Hnd as [Hnotin Hnd].
    apply elem_of_cons in Hin as [Hhead|Hin].
    + injection Hhead as <- <-. rewrite String.eqb_refl. cbn.
      rewrite Heq. reflexivity.
    + destruct (String.eqb_spec k0 k) as [->|Hne]; cbn.
      * exfalso. apply Hnotin.
        apply (list_elem_of_fmap_2 fst) in Hin. exact Hin.
      * rewrite (IH Hnd Hin Heq). reflexivity.
Qed.

Lemma findOne_Some (q : option string) (s : Store) (u : UserModel.t) :
  User_findOne q s = Some u ->
  truthy q = true /\ UserModel.email u = q /\ exists k, (k, u) ∈ users s.
Proof.
  unfold User_findOne. destruct (truthy q); [|discriminate].
  destruct (List.find _ (users s)) as [[k u']|] eqn:Hf; [|discriminate].
  cbn. intros [= <-]. apply List.find_some in Hf as [Hin Hb].
  apply bool_decide_eq_true in Hb. cbn in Hb.
  repeat split; [exact Hb|]. exists k. apply list_elem_of_In, Hin.
Qed.

Lemma findOne_None (e : string) (s : Store) :
  User_findOne (Some e) s = None -> truthy (Some e) = true ->
  e ∉ emails (users s).
Proof.
  unfold User_findOne. intros Hf Ht. rewrite Ht in Hf.
  destruct (List.find _ (users s)) as [kv|] eqn:Hfind; [discriminate|].
  intros Hin. apply list_elem_of_omap in Hin as ([k u] & Hin & Hlive).
  apply list_elem_of_In in Hin.
  pose proof (List.find_none _ _ Hfind _ Hin) as Hb.
  apply bool_decide_eq_false in Hb. apply Hb. cbn in *.
  unfold live_email in Hlive. destruct (truthy (UserModel.email u)); congruence.
Qed.

Lemma register_succeeded `{Platform} (req : Request) rnd now s :
  status (fst (register req rnd now s)) = 201%nat ->
  exists u,
    User_findOne (email (Http.body req)) s = None
    /\ UserModel.email u = email (Http.body req)
    /\ UserModel._id u = uuid_user rnd
    /\ users (snd (register req rnd now s)) = map_set (uuid_user rnd) u (users s).
Proof.
  unfold register.
  destruct (bool_decide (validationResult req = [])); cbn [negb];
    [|cbn; discriminate].
  destruct (User_findOne (email (Http.body req)) s) eqn:Hf; [cbn; discriminate|].
  destruct (truthy (nickname (Http.body req))) eqn:Hn.
  - cbn [mbind Result_bind]. unfold User_new. rewrite Hn.
    cbn [mbind Result_bind User_save]. intros _. rewrite issue_session_users.
    eexists. repeat apply conj; [reflexivity| | |reflexivity]; reflexivity.
  - destruct (email (Http.body req)) as [e|]; [|cbn; discriminate].
    cbn [mbind Result_bind]. unfold User_new.
    destruct (truthy (Some (split_head "@" e)));
      cbn [mbind Result_bind User_save toString]; intros _;
      rewrite issue_session_users;
      eexists; (repeat apply conj; [reflexivity| | |reflexivity]; reflexivity).
Qed.

Lemma users_ok_empty : users_ok MemoryDb.empty.
Proof. repeat split; constructor. Qed.

(** [register] and [login] keep the users map in order: whatever the
    request and the identifier drawn, the user is stored under its [_id],
    and no two stored users share an email that can be looked up.  In
    particular a registration never adds a second user for an email in
    use. *)
Theorem users_stay_unique `{Platform} (req : Request) (rnd : Entropy)
    (now : Z) (s : Store) :
  users_ok s ->
  users_ok (snd (register req rnd now s))
  /\ users_ok (snd (login req rnd now s)).
Proof.
  intros (Hkeys & Hids & Hmails). split.
  - destruct (Nat.eq_dec (status (fst (register req rnd now s))) 201) as [Hs|Hs].
    + destruct (register_succeeded req rnd now s Hs) as (u & Hnone & Hmail & Hid & Hus).
      unfold users_ok. rewrite Hus. repeat apply conj.
      * apply map_set_keys_NoDup, Hkeys.
      * apply map_set_Forall; [symmetry; exact Hid | exact Hids].
      * apply emails_map_set_fresh; [exact Hmails|].
        intros e Hlive. unfold live_email in Hlive. rewrite Hmail in Hlive.
        destruct (truthy (email (Http.body req))) eqn:Ht; [|discriminate].
        rewrite Hlive in Hnone, Ht. apply findOne_None; assumption.
    + destruct (register_refused req rnd now s Hs) as [-> _].
      repeat split; assumption.
  - destruct (Nat.eq_dec (status (fst (login req rnd now s))) 200) as [Hs|Hs].
    + destruct (login_succeeded req rnd now s Hs) as (u & Hfound & _ & ->).
      apply findOne_Some in Hfound as (_ & _ & k & Hin).
      assert (Hk : k = UserModel._id u).
      { rewrite List.Forall_forall in Hids. apply (Hids (k, u)).
        apply list_elem_of_In, Hin. }
      subst k. unfold users_ok. rewrite issue_session_users.
      cbn [users with_users]. repeat apply conj.
      * apply map_set_keys_NoDup, Hkeys.
      * apply map_set_Forall; [reflexivity | exact Hids].
      * rewrite (emails_map_set_same _ u); [exact Hmails | exact Hkeys | exact Hin |].
        reflexivity.
    + destruct (login_refused req rnd now s Hs) as [-> _].
      repeat split; assumption.
Qed.

Lemma alice_store_ok : users_ok alice_store.
Proof.
  unfold users_ok, alice_store, keys, emails. cbn.
  repeat split; repeat constructor; try apply not_elem_of_nil.
Qed.

Lemma users_stay_unique_witness :
  users_ok (snd (@register Sample.platform
                   (credentials "bob@example.com" "Abcd1234" None) draw 0
                   alice_store))
  /\ users_ok (snd (@login Sample.platform
                      (credentials "alice@example.com" "Abcd1234" None) draw 5
                      alice_store)).
Proof.
  split.
  - apply (@users_stay_unique Sample.platform
             (credentials "bob@example.com" "Abcd1234" None) draw 0%Z alice_store
             alice_store_ok).
  - apply (@users_stay_unique Sample.platform
             (credentials "alice@example.com" "Abcd1234" None) draw 5%Z
             alice_store alice_store_ok).
Defined.

End UserStore.


(** ** Refresh and logout, composed *)

Module RefreshProperties.
Import Js Http MemoryDb JwtUtils JwtUtilsFacts AuthController.
Import Ledger SessionLifecycle SessionProperties.

(** A successful refresh slides the session: the new access token
    verifies, for 15 minutes, to the user of the record; the token of the
    new cookie is found for 7 days from now, with the same record (same
    [_id], same user, same creation time) under the new token and
    expiry. *)
Theorem refresh_slides_session `{Platform} (req : Request) (rnd : Entropy)
    (now now' : Z) (s : Store) (a : nat) (d : RefreshTokenModel.t) :
  findValid (cookies_refreshToken req) now s = Some (a, d) ->
  randomHex rnd <> "" ->
  fst (refreshAccessToken req rnd now s)
  = {| status := 200;
       json := JAccessToken (generateAccessToken (RefreshTokenModel.userId d) now);
       cookie := refreshCookie (randomHex rnd) |}
  /\ ((now' / 1000 < now / 1000 + JWT_EXPIRES_IN)%Z ->
      verifyAccessToken (generateAccessToken (RefreshTokenModel.userId d) now) now'
      = Return (access_claims (RefreshTokenModel.userId d) now))
  /\ ((now' < getRefreshTokenExpiry now)%Z ->
      findValid (Some (randomHex rnd)) now' (snd (refreshAccessToken req rnd now s))
      = Some (a, {| RefreshTokenModel._id := RefreshTokenModel._id d;
                    RefreshTokenModel.token := randomHex rnd;
                    RefreshTokenModel.userId := RefreshTokenModel.userId d;
                    RefreshTokenModel.expiresAt := getRefreshTokenExpiry now;
                    RefreshTokenModel.createdAt := RefreshTokenModel.createdAt d |})).
Proof.
  intros Hf Hne. rewrite (refresh_found req rnd now s a d Hf). cbn [fst snd].
  apply findValid_Some in Hf as (t & _ & _ & _ & Hh & _).
  repeat apply conj.
  - reflexivity.
  - intros Hwin. apply verify_issued, Hwin.
  - intros Hlive. rewrite (rotated_store a (randomHex rnd) now s d Hh).
    apply findValid_live; cbn [refreshTokens heap].
    + exact Hne.
    + apply lookup_insert_eq.
    + apply list_lookup_insert_eq. apply lookup_lt_Some in Hh. exact Hh.
    + exact Hlive.
Qed.

Lemma refresh_slides_session_witness :
  RefreshTokenModel.userId <$>
    (snd <$> findValid (Some "R2") 604800999
               (snd (@refreshAccessToken Sample.platform (with_cookie "R1")
                       (draws "R2") 1000 one_session)))
  = Some "u1".
Proof.
  destruct (@refresh_slides_session Sample.platform (with_cookie "R1")
              (draws "R2") 1000%Z 604800999%Z one_session 0%nat
              (session_record "rt-1" "R1" "u1" 0)) as (_ & _ & Hfound).
  - vm_compute. reflexivity.
  - discriminate.
  - assert (Hlive : (604800999 < getRefreshTokenExpiry 1000)%Z)
      by (vm_compute; reflexivity).
    specialize (Hfound Hlive). cbn [randomHex draws] in Hfound.
    rewrite Hfound. reflexivity.
Defined.

(** Logout revokes: once [logout] has answered a request, a refresh that
    presents the same cookie is refused with 401, and changes nothing. *)
Theorem logout_revokes `{Platform} (req : Request) (rnd : Entropy) (now : Z)
    (s : Store) :
  truthy (cookies_refreshToken req) = true ->
  refreshAccessToken req rnd now (snd (logout req s))
  = (reply 401 (JError "无效或已过期的刷新令牌" None), snd (logout req s)).
Proof.
  intros Ht. apply refresh_not_found; [exact Ht|].
  unfold findValid, RefreshToken_findOne, logout, RefreshToken_deleteOne.
  cbn [q_token q_expiresAt_gt snd]. rewrite Ht.
  cbn [refreshTokens with_refreshTokens]. rewrite lookup_delete_eq. reflexivity.
Qed.

Lemma logout_revokes_witness :
  status (fst (@refreshAccessToken Sample.platform (with_cookie "R1") (draws "R2")
                 1000 (snd (logout (with_cookie "R1") one_session))))
  = 401%nat
  /\ status (fst (@refreshAccessToken Sample.platform (with_cookie "R1")
                    (draws "R2") 1000 one_session)) = 200%nat.
Proof.
  split.
  - rewrite (@logout_revokes Sample.platform (with_cookie "R1") (draws "R2")
               1000%Z one_session); reflexivity.
  - vm_compute. reflexivity.
Defined.

End RefreshProperties.

(** ** The validation chains, as a whole *)

Module ValidationProperties.
Import Js Http MemoryDb ExpressValidator Routes AuthController Validation.
Import Registration LoginFlow.

Lemma check_nil (test : string -> bool) m f v :
  check test m f v = [] <-> test (toString v) = true.
Proof.
  unfold check. destruct (test (toString v)); split; try reflexivity; discriminate.
Qed.

Lemma app_nil_iff {A} (l k : list A) : (l ++ k)%list = [] <-> l = [] /\ k = [].
Proof.
  split.
  - intros Happ. apply app_eq_nil in Happ. exact Happ.
  - intros [-> ->]. reflexivity.
Qed.

(** The nickname rule: an absent nickname passes, a present one must have
    2 to 20 characters once trimmed. *)
Definition nickname_accepted (n : option string) : Prop :=
  match n with
  | None => True
  | Some n => len_2_20 (Js.trim n) = true
  end.

(** On a request that reaches the chains without errors, the validation of
    [POST /auth/register] leaves no error exactly when the address is an
    email, the password has at least 8 characters and matches the pattern,
    and the nickname is absent or has 2 to 20 characters once trimmed; the
    validation of [POST /auth/login] exactly when the address is an email
    and the password is not empty. *)
Theorem validation_accepts_exactly `{Platform} (req : Request) :
  validation req = [] ->
  (validationResult (run registerValidation req) = [] <->
     validator_isEmail (toString (email (Http.body req))) = true
     /\ (8 <= String.length (toString (password (Http.body req))))%nat
     /\ password_pattern (toString (password (Http.body req))) = true
     /\ nickname_accepted (nickname (Http.body req)))
  /\ (validationResult (run loginValidation req) = [] <->
        validator_isEmail (toString (email (Http.body req))) = true
        /\ toString (password (Http.body req)) <> "").
Proof.
  intros Hclean. unfold validationResult. split.
  - rewrite run_registerValidation. cbn [validation]. rewrite Hclean.
    cbn [app]. rewrite !app_nil_iff.
    unfold email_errors, length_errors, pattern_errors, nickname_errors.
    rewrite !check_nil. unfold min8, nickname_accepted.
    rewrite andb_true_r, Nat.leb_le.
    destruct (nickname (Http.body req)) as [n|].
    + rewrite check_nil. cbn [toString]. tauto.
    + tauto.
  - rewrite run_loginValidation. cbn [validation]. rewrite Hclean.
    cbn [app]. rewrite !app_nil_iff.
    unfold email_errors, empty_errors. rewrite !check_nil. unfold not_empty.
    destruct (String.eqb_spec (toString (password (Http.body req))) "") as [E|E];
      cbn; intuition congruence.
Qed.

Lemma validation_accepts_exactly_witness :
  validationResult
    (run (@registerValidation Sample.platform)
       (credentials "bob@example.com" "Abcd1234" (Some " Bob "))) = []
  /\ validationResult
       (run (@loginValidation Sample.platform)
          (credentials "bob@example.com" "x" None)) = [].
Proof.
  destruct (@validation_accepts_exactly Sample.platform
              (credentials "bob@example.com" "Abcd1234" (Some " Bob ")) eq_refl)
    as [Hregister _].
  destruct (@validation_accepts_exactly Sample.platform
              (credentials "bob@example.com" "x" None) eq_refl)
    as [_ Hlogin].
  split.
  - apply Hregister. repeat split; try (vm_compute; reflexivity);
      vm_compute; lia.
  - apply Hlogin. split; [vm_compute; reflexivity | discriminate].
Defined.

(** A request that fails validation is refused without a look at the
    store: the response of [POST /auth/register] and of [POST /auth/login]
    is the same whatever the users and sessions stored, the clock and the
    values drawn. *)
Theorem invalid_request_reveals_nothing `{Platform} (req : Request)
    (rnd rnd' : Entropy) (now now' : Z) (s s' : Store) :
  (validationResult (run registerValidation req) <> [] ->
     fst (post_register req rnd now s) = fst (post_register req rnd' now' s')
     /\ status (fst (post_register req rnd now s)) = 400%nat)
  /\ (validationResult (run loginValidation req) <> [] ->
        fst (post_login req rnd now s) = fst (post_login req rnd' now' s')
        /\ status (fst (post_login req rnd now s)) = 400%nat).
Proof.
  split; intros Hbad.
  - unfold post_register. rewrite !(register_invalid _ _ _ _ Hbad).
    split; reflexivity.
  - unfold post_login. rewrite !(login_invalid _ _ _ _ Hbad).
    split; reflexivity.
Qed.

Lemma invalid_request_reveals_nothing_witness :
  fst (@post_login Sample.platform (credentials "alice@example.com" "" None)
         draw 0 alice_store)
  = fst (@post_login Sample.platform (credentials "alice@example.com" "" None)
           draw 9 MemoryDb.empty).
Proof.
  destruct (@invalid_request_reveals_nothing Sample.platform
              (credentials "alice@example.com" "" None)
              draw draw 0%Z 9%Z alice_store MemoryDb.empty) as [_ Hlogin].
  destruct Hlogin as [Hsame _]; [vm_compute; discriminate | exact Hsame].
Defined.

End ValidationProperties.

(** * The client's stored credentials (contexts/AuthContext)

    [localStorage] is a map from keys to strings.  [Date] parsing and
    printing are the browser's: [date_getTime s] is
    [new Date(s).getTime()], with [None] for [NaN], and [date_toISOString]
    is [toISOString] of the date of an instant.  The division by
    [1000 * 60 * 60 * 24] is on whole milliseconds, where the quotient
    exceeds 7 exactly when the dividend exceeds 7 days of milliseconds. *)

Class Browser := {
  date_getTime : string -> option Z;
  date_toISOString : Z -> string
}.

Module AuthProvider.
Import Js AuthContext.

Definition API_VERSION : string := "2.0".

Definition getItem (k : string) (ls : gmap string string) : option string :=
  ls !! k.

Definition setItem (k v : string) (ls : gmap string string) : gmap string string :=
  <[k := v]> ls.

Definition removeItem (k : string) (ls : gmap string string) : gmap string string :=
  delete k ls.

Definition week : Z := 7 * (1000 * 60 * 60 * 24).

(** The request interceptor. *)
Definition attach (ls : gmap string string) (config : Config) : Config :=
  let token := getItem "accessToken" ls in
  if truthy token then set_bearer (toString token) config else config.

Section WithBrowser.
Context `{Browser}.

Definition checkAndCleanAuth (now : Z) (ls : gmap string string)
    : bool * gmap string string :=
  let storedVersion := getItem "apiVersion" ls in
  let lastLogin := getItem "lastLogin" ls in
  if negb (bool_decide (storedVersion = Some API_VERSION))
  then (false,
        setItem "apiVersion" API_VERSION
          (removeItem "lastLogin" (removeItem "accessToken" ls)))
  else if truthy lastLogin then
    match date_getTime (toString lastLogin) with
    | Some loginTime =>
        if (week <? now - loginTime)%Z
        then (false, removeItem "accessToken" ls)
        else (true, ls)
    | None => (true, ls)
    end
  else (true, ls).

(** What [login] and [register] store once the server has answered with
    an access token. *)
Definition store_session (accessToken : string) (now : Z)
    (ls : gmap string string) : gmap string string :=
  setItem "apiVersion" API_VERSION
    (setItem "lastLogin" (date_toISOString now)
       (setItem "accessToken" accessToken ls)).

End WithBrowser.

(** The provider's state: the storage and the current user. *)
Record Session := {
  storage : gmap string string;
  user : option MemoryDb.PublicUser
}.

(** The answer of [api.post]: the data of a response, or a rejection with
    the [error] field of the response body, when there is one. *)
Inductive Answer (A : Type) :=
| Resolved (data : A)
| Failed (error : option string).
Arguments Resolved {A} data.
Arguments Failed {A} error.

Section WithBrowser.
Context `{Browser}.

(** [refreshToken]: stores the new access token and returns it; a
    rejection of the request is the rejection of the call. *)
Definition refreshToken (answer : Answer string) (st : Session)
    : Answer string * Session :=
  match answer with
  | Resolved accessToken =>
      (Resolved accessToken,
       {| storage := setItem "accessToken" accessToken (storage st);
          user := user st |})
  | Failed e => (Failed e, st)
  end.

(** The body [login] and [register] share, up to the message they throw
    when the response carries none. *)
Definition open_session (fallback : string)
    (answer : Answer (MemoryDb.PublicUser * string)) (now : Z) (st : Session)
    : Result unit * Session :=
  match answer with
  | Resolved (u, accessToken) =>
      (Return tt,
       {| storage := store_session accessToken now (storage st);
          user := Some u |})
  | Failed e => (Throw (Error (or_else e fallback)), st)
  end.

Definition login := open_session "登录失败".

Definition register := open_session "注册失败".

(** [logout]: the [finally] clears the credentials whatever the request
    did. *)
Definition logout (answer : Answer unit) (st : Session) : Session :=
  {| storage := removeItem "lastLogin" (removeItem "accessToken" (storage st));
     user := None |}.

(** [fetchCurrentUser] *)
Definition fetchCurrentUser (answer : Answer MemoryDb.PublicUser) (st : Session)
    : Session :=
  match answer with
  | Resolved u => {| storage := storage st; user := Some u |}
  | Failed _ =>
      {| storage := removeItem "lastLogin" (removeItem "accessToken" (storage st));
         user := user st |}
  end.

End WithBrowser.
End AuthProvider.

Module ClientProperties.
Import Js AuthContext AuthProvider.

(** A sample browser: an instant is printed as the bit string of its
    code, as the sample platform prints tokens. *)
Definition sample_browser : Browser := {|
  date_getTime := fun s => p ← Sample.unbits s; decode p;
  date_toISOString := fun t => Sample.bits (encode t)
|}.

Lemma substring_all (s : string) : String.substring 0 (String.length s) s = s.
Proof. induction s as [|a s IH]; cbn; [reflexivity | rewrite IH; reflexivity]. Qed.

(** The header the request interceptor writes has the bearer form, and
    what follows the prefix is the token. *)
Lemma bearer_header (token : string) :
  startsWith "Bearer " ("Bearer " ++ token) = true
  /\ substring 7 ("Bearer " ++ token) = token.
Proof.
  split.
  - unfold startsWith. cbn. destruct token; reflexivity.
  - unfold substring. simpl. rewrite Nat.sub_0_r. apply substring_all.
Qed.

Section WithBrowser.
Context `{Browser}.

(** The stored login is older than 7 days at [now]. *)
Definition login_expired (now : Z) (ls : gmap string string) : bool :=
  truthy (ls !! "lastLogin")
  && match date_getTime (toString (ls !! "lastLogin")) with
     | Some loginTime => (week <? now - loginTime)%Z
     | None => false
     end.

Lemma checkAndCleanAuth_unfold (now : Z) (ls : gmap string string) :
  checkAndCleanAuth now ls =
  if negb (bool_decide (ls !! "apiVersion" = Some API_VERSION))
  then (false, <["apiVersion" := API_VERSION]>
                 (delete "lastLogin" (delete "accessToken" ls)))
  else if login_expired now ls then (false, delete "accessToken" ls)
  else (true, ls).
Proof.
  unfold checkAndCleanAuth, login_expired, getItem, setItem, removeItem.
  destruct (negb _); [reflexivity|].
  destruct (truthy (ls !! "lastLogin")); [|reflexivity].
  destruct (date_getTime _) as [t|]; [|reflexivity].
  destruct (week <? now - t)%Z; reflexivity.
Qed.

Lemma login_expired_token (now : Z) (ls : gmap string string) :
  login_expired now (delete "accessToken" ls) = login_expired now ls.
Proof.
  unfold login_expired. rewrite lookup_delete_ne by discriminate. reflexivity.
Qed.

Lemma login_expired_later (now now' : Z) (ls : gmap string string) :
  (now <= now')%Z -> login_expired now ls = true -> login_expired now' ls = true.
Proof.
  intros Hle. unfold login_expired.
  destruct (truthy (ls !! "lastLogin")); [|discriminate]. cbn [andb].
  destruct (date_getTime _) as [loginTime|]; [|discriminate].
  intros Hold. apply Z.ltb_lt in Hold. apply Z.ltb_lt. lia.
Qed.

(** [checkAndCleanAuth]: afterwards the stored version is the current
    one; a positive verdict leaves the storage as it was; a negative one
    leaves no access token; once a check has been negative, a check at
    that or any later clock reading changes nothing more; and a second
    check at the same clock reading changes nothing more, whatever the
    first verdict. *)
Theorem clean_auth_outcomes (now now' : Z) (ls : gmap string string) :
  snd (checkAndCleanAuth now ls) !! "apiVersion" = Some API_VERSION
  /\ (fst (checkAndCleanAuth now ls) = true -> snd (checkAndCleanAuth now ls) = ls)
  /\ (fst (checkAndCleanAuth now ls) = false ->
        snd (checkAndCleanAuth now ls) !! "accessToken" = None)
  /\ (fst (checkAndCleanAuth now ls) = false -> (now <= now')%Z ->
        snd (checkAndCleanAuth now' (snd (checkAndCleanAuth now ls)))
        = snd (checkAndCleanAuth now ls))
  /\ snd (checkAndCleanAuth now (snd (checkAndCleanAuth now ls)))
     = snd (checkAndCleanAuth now ls).
Proof.
  rewrite (checkAndCleanAuth_unfold now ls).
  destruct (bool_decide (ls !! "apiVersion" = Some API_VERSION)) eqn:Hv;
    cbn [negb].
  - apply bool_decide_eq_true in Hv.
    destruct (login_expired now ls) eqn:He; cbn [fst snd].
    + split; [rewrite lookup_delete_ne by discriminate; exact Hv|].
      split; [discriminate|]. split; [intros _; apply lookup_delete_eq|].
      split.
      * intros _ Hle.
        rewrite checkAndCleanAuth_unfold, login_expired_token.
        rewrite (login_expired_later now now' ls Hle He).
        rewrite lookup_delete_ne by discriminate.
        rewrite bool_decide_eq_true_2 by exact Hv. cbn [negb snd].
        apply delete_delete_eq.
      * rewrite checkAndCleanAuth_unfold, login_expired_token, He.
        rewrite lookup_delete_ne by discriminate.
        rewrite bool_decide_eq_true_2 by exact Hv. cbn [negb snd].
        apply delete_delete_eq.
    + split; [exact Hv|]. split; [reflexivity|]. split; [discriminate|].
      split; [discriminate|].
      rewrite checkAndCleanAuth_unfold, He.
      rewrite bool_decide_eq_true_2 by exact Hv. reflexivity.
  - cbn [fst snd]. split; [apply lookup_insert_eq|]. split; [discriminate|].
    split.
    + intros _. rewrite lookup_insert_ne by discriminate.
      rewrite lookup_delete_ne by discriminate. apply lookup_delete_eq.
    + assert (Hfix : forall t : Z,
                 snd (checkAndCleanAuth t
                        (<["apiVersion" := API_VERSION]>
                           (delete "lastLogin" (delete "accessToken" ls))))
                 = <["apiVersion" := API_VERSION]>
                     (delete "lastLogin" (delete "accessToken" ls))).
      { intros t. rewrite checkAndCleanAuth_unfold. rewrite lookup_insert_eq.
        rewrite bool_decide_eq_true_2 by reflexivity. cbn [negb].
        unfold login_expired. rewrite lookup_insert_ne by discriminate.
        rewrite lookup_delete_eq. reflexivity. }
      split; [intros _ _; apply Hfix | apply Hfix].
Qed.

Lemma negative_verdict_no_token (now : Z) (ls : gmap string string) :
  fst (checkAndCleanAuth now ls) = false ->
  snd (checkAndCleanAuth now ls) !! "accessToken" = None.
Proof.
  rewrite checkAndCleanAuth_unfold.
  destruct (negb _); cbn [fst snd].
  - intros _. rewrite lookup_insert_ne by discriminate.
    rewrite lookup_delete_ne by discriminate. apply lookup_delete_eq.
  - destruct (login_expired now ls); cbn [fst snd]; [|discriminate].
    intros _. apply lookup_delete_eq.
Qed.

Lemma store_session_lookups (accessToken : string) (now0 : Z)
    (ls : gmap string string) :
  store_session accessToken now0 ls !! "apiVersion" = Some API_VERSION
  /\ store_session accessToken now0 ls !! "lastLogin"
     = Some (date_toISOString now0)
  /\ store_session accessToken now0 ls !! "accessToken" = Some accessToken.
Proof.
  unfold store_session, setItem. repeat split.
  - apply lookup_insert_eq.
  - rewrite lookup_insert_ne by discriminate. apply lookup_insert_eq.
  - rewrite !lookup_insert_ne by discriminate. apply lookup_insert_eq.
Qed.

(** The verdict of the check depends on the stored version and login
    time only. *)
Lemma verdict_by_login (now : Z) (ls ls' : gmap string string) :
  ls' !! "apiVersion" = ls !! "apiVersion" ->
  ls' !! "lastLogin" = ls !! "lastLogin" ->
  fst (checkAndCleanAuth now ls') = fst (checkAndCleanAuth now ls).
Proof.
  intros Hv Hl. rewrite !checkAndCleanAuth_unfold. unfold login_expired.
  rewrite Hv, Hl.
  destruct (negb _); [reflexivity|].
  destruct (_ && _); reflexivity.
Qed.

(** The client's session ceiling: after [login] or [register] has stored
    a session at [now0], the check accepts it exactly until 7 days have
    passed; a later [refreshToken] stores a new access token and leaves
    that verdict as it was, so renewals do not extend the ceiling. *)
Theorem session_ceiling (fallback : string) (u : MemoryDb.PublicUser)
    (accessToken : string) (now0 now : Z) (st : Session) :
  date_getTime (date_toISOString now0) = Some now0 ->
  date_toISOString now0 <> "" ->
  fst (checkAndCleanAuth now
         (storage (snd (open_session fallback (Resolved (u, accessToken))
                          now0 st))))
  = negb (week <? now - now0)%Z
  /\ forall answer : Answer string,
       fst (checkAndCleanAuth now
              (storage
                 (snd (refreshToken answer
                         (snd (open_session fallback
                                 (Resolved (u, accessToken)) now0 st))))))
       = negb (week <? now - now0)%Z.
Proof.
  intros Hparse Hiso. cbn [open_session snd storage].
  destruct (store_session_lookups accessToken now0 (storage st)) as (Hv & Hl & _).
  assert (Hfirst : fst (checkAndCleanAuth now
                          (store_session accessToken now0 (storage st)))
                   = negb (week <? now - now0)%Z).
  { rewrite checkAndCleanAuth_unfold. unfold login_expired. rewrite Hv, Hl.
    rewrite bool_decide_eq_true_2 by reflexivity. cbn [negb toString].
    rewrite (Ledger.truthy_intro _ Hiso), Hparse. cbn [andb].
    destruct (week <? now - now0)%Z; reflexivity. }
  split; [exact Hfirst|].
  intros answer. rewrite <- Hfirst.
  destruct answer as [tok | e]; cbn [refreshToken snd storage].
  - apply verdict_by_login; unfold setItem;
      rewrite lookup_insert_ne by discriminate; reflexivity.
  - reflexivity.
Qed.

End WithBrowser.
(** A session stored at instant 5 fails the check one millisecond after
    its seventh day, and a later check leaves the storage as that check
    left it. *)
Lemma clean_auth_outcomes_witness :
  fst (@checkAndCleanAuth sample_browser 604800006
         (@store_session sample_browser "T1" 5 ∅)) = false
  /\ snd (@checkAndCleanAuth sample_browser 704800000
            (snd (@checkAndCleanAuth sample_browser 604800006
                    (@store_session sample_browser "T1" 5 ∅))))
     = snd (@checkAndCleanAuth sample_browser 604800006
              (@store_session sample_browser "T1" 5 ∅)).
Proof.
  assert (Hnegative : fst (@checkAndCleanAuth sample_browser 604800006
                             (@store_session sample_browser "T1" 5 ∅)) = false)
    by (vm_compute; reflexivity).
  destruct (@clean_auth_outcomes sample_browser 604800006%Z 704800000%Z
              (@store_session sample_browser "T1" 5 ∅))
    as (_ & _ & _ & Hlater & _).
  split; [exact Hnegative|]. apply Hlater; [exact Hnegative | lia].
Defined.

Lemma session_ceiling_witness :
  fst (@checkAndCleanAuth sample_browser 604800005
         (storage (snd (@login sample_browser
                          (Resolved (MiddlewareContract.alice_public, "T1")) 5
                          {| storage := ∅; user := None |})))) = true
  /\ fst (@checkAndCleanAuth sample_browser 604800006
            (storage (snd (@register sample_browser
                             (Resolved (MiddlewareContract.alice_public, "T1")) 5
                             {| storage := ∅; user := None |})))) = false.
Proof.
  split.
  - destruct (@session_ceiling sample_browser "登录失败"
                MiddlewareContract.alice_public "T1" 5%Z 604800005%Z
                {| storage := ∅; user := None |})
      as [Hverdict _]; [vm_compute; reflexivity | vm_compute; discriminate |].
    unfold login. rewrite Hverdict. vm_compute. reflexivity.
  - destruct (@session_ceiling sample_browser "注册失败"
                MiddlewareContract.alice_public "T1" 5%Z 604800006%Z
                {| storage := ∅; user := None |})
      as [Hverdict _]; [vm_compute; reflexivity | vm_compute; discriminate |].
    unfold register. rewrite Hverdict. vm_compute. reflexivity.
Defined.

End ClientProperties.

(** * The client's credentials at the server

    The request interceptor of the client writes the header that the
    [authenticate] middleware of the server reads. *)

Module ClientServer.
Import Js Http JwtUtils JwtUtilsFacts AuthMiddleware Middleware.
Import AuthContext.

(** The request the server receives for a client configuration: axios
    sends [config.headers.Authorization] as the [Authorization] header. *)
Definition wire (c : Config) : Request :=
  MiddlewareContract.with_header (Authorization c).

Lemma attach_token (ls : gmap string string) (c : Config) (token : string) :
  ls !! "accessToken" = Some token -> token <> "" ->
  bearer (wire (AuthProvider.attach ls c)) = Some token.
Proof.
  intros Hls Hne. unfold AuthProvider.attach, AuthProvider.getItem.
  rewrite Hls, (Ledger.truthy_intro _ Hne). cbn [toString].
  unfold bearer, has_bearer, wire, MiddlewareContract.with_header.
  cbn [set_bearer Authorization headers_authorization truthy toString].
  destruct (ClientProperties.bearer_header token) as [Hprefix Hrest].
  rewrite Hprefix, Hrest. reflexivity.
Qed.

Lemma attach_nothing (ls : gmap string string) (c : Config) :
  ls !! "accessToken" = None -> AuthProvider.attach ls c = c.
Proof.
  intros Hls. unfold AuthProvider.attach, AuthProvider.getItem.
  rewrite Hls. reflexivity.
Qed.

Lemma no_header `{Platform} (lookup : string -> Lookup) (c : Config) (now : Z) :
  Authorization c = None ->
  authenticate lookup (wire c) now
  = Respond (reply 401 (JError "未提供认证令牌" None)).
Proof.
  intros Hc. unfold authenticate, wire, MiddlewareContract.with_header.
  cbn [headers_authorization]. rewrite Hc. reflexivity.
Qed.

(** The access token the client has stored is the one the server
    verifies: a request sent with the token issued for [uid] at [now]
    authenticates as that user while the token is younger than
    [JWT_EXPIRES_IN] seconds, and is answered 401 with the
    [TOKEN_EXPIRED] code from then on. *)
Theorem stored_token_authenticates `{Platform} (lookup : string -> Lookup)
    (ls : gmap string string) (c : Config) (uid : string) (now now' : Z)
    (u : MemoryDb.PublicUser) :
  ls !! "accessToken" = Some (generateAccessToken uid now) ->
  generateAccessToken uid now <> "" ->
  lookup uid = Found u ->
  ((now' / 1000 < now / 1000 + JWT_EXPIRES_IN)%Z ->
   authenticate lookup (wire (AuthProvider.attach ls c)) now'
   = Next (with_user (Some u) (wire (AuthProvider.attach ls c))))
  /\ ((now / 1000 + JWT_EXPIRES_IN <= now' / 1000)%Z ->
      authenticate lookup (wire (AuthProvider.attach ls c)) now'
      = Respond (reply 401 (JError "令牌已过期" (Some "TOKEN_EXPIRED")))).
Proof.
  intros Hls Hne Hfound.
  pose proof (attach_token ls c _ Hls Hne) as Hb.
  split; intros Hage; rewrite (authenticate_bearer lookup _ now' _ Hb).
  - rewrite (verify_issued uid now now' Hage). cbn [Jwt.userId].
    rewrite Hfound. reflexivity.
  - rewrite (verify_expired _ {| Jwt.payload :=
                                   {| Jwt.userId := uid;
                                      Jwt.type := Some "access";
                                      Jwt.iat := (now / 1000)%Z;
                                      Jwt.exp := Some (now / 1000 + JWT_EXPIRES_IN)%Z |};
                                 Jwt.key := JWT_SECRET |} now').
    + reflexivity.
    + unfold generateAccessToken, jwt_sign. apply jwt_decode_encode.
    + reflexivity.
    + unfold expiredb. cbn [Jwt.payload Jwt.exp].
      apply Z.leb_le. exact Hage.
Qed.

Lemma stored_token_authenticates_witness :
  @authenticate Sample.platform MiddlewareContract.only_alice
    (wire (AuthProvider.attach
             {["accessToken" := @generateAccessToken Sample.platform "u1" 0]}
             SingleFlight.get_me)) 899999
  = Next (with_user (Some MiddlewareContract.alice_public)
            (wire (AuthProvider.attach
                     {["accessToken" := @generateAccessToken Sample.platform "u1" 0]}
                     SingleFlight.get_me)))
  /\ @authenticate Sample.platform MiddlewareContract.only_alice
       (wire (AuthProvider.attach
                {["accessToken" := @generateAccessToken Sample.platform "u1" 0]}
                SingleFlight.get_me)) 900000
     = Respond (reply 401 (JError "令牌已过期" (Some "TOKEN_EXPIRED"))).
Proof.
  destruct (@stored_token_authenticates Sample.platform
              MiddlewareContract.only_alice
              {["accessToken" := @generateAccessToken Sample.platform "u1" 0]}
              SingleFlight.get_me "u1" 0%Z 899999%Z
              MiddlewareContract.alice_public) as [Hfresh _];
    [vm_compute; reflexivity | vm_compute; discriminate | reflexivity |].
  destruct (@stored_token_authenticates Sample.platform
              MiddlewareContract.only_alice
              {["accessToken" := @generateAccessToken Sample.platform "u1" 0]}
              SingleFlight.get_me "u1" 0%Z 900000%Z
              MiddlewareContract.alice_public) as [_ Hold];
    [vm_compute; reflexivity | vm_compute; discriminate | reflexivity |].
  split; [apply Hfresh | apply Hold]; vm_compute; [reflexivity | discriminate].
Defined.

(** Once the client has dropped its credentials (by [logout], whatever
    the server answered; by a failed [fetchCurrentUser]; or by a negative
    [checkAndCleanAuth]), the request interceptor adds nothing to a
    request, and a request without a header of its own is answered 401 by
    [authenticate]. *)
Theorem dropped_credentials_are_not_sent `{Browser} `{Platform}
    (lookup : string -> Lookup) (st : AuthProvider.Session)
    (c : Config) (now now' : Z) (ls : gmap string string) :
  Authorization c = None ->
  (ls = AuthProvider.storage (AuthProvider.logout (AuthProvider.Resolved tt) st)
   \/ (exists e, ls = AuthProvider.storage
                        (AuthProvider.logout (AuthProvider.Failed e) st))
   \/ (exists e, ls = AuthProvider.storage
                        (AuthProvider.fetchCurrentUser (AuthProvider.Failed e) st))
   \/ (fst (AuthProvider.checkAndCleanAuth now (AuthProvider.storage st)) = false
       /\ ls = snd (AuthProvider.checkAndCleanAuth now (AuthProvider.storage st)))) ->
  AuthProvider.attach ls c = c
  /\ authenticate lookup (wire (AuthProvider.attach ls c)) now'
     = Respond (reply 401 (JError "未提供认证令牌" None)).
Proof.
  intros Hc Hls.
  assert (Hnone : ls !! "accessToken" = None).
  { destruct Hls as [-> | [[e ->] | [[e ->] | [Hverdict ->]]]].
    - cbn. unfold AuthProvider.removeItem.
      rewrite lookup_delete_ne by discriminate. apply lookup_delete_eq.
    - cbn. unfold AuthProvider.removeItem.
      rewrite lookup_delete_ne by discriminate. apply lookup_delete_eq.
    - cbn. unfold AuthProvider.removeItem.
      rewrite lookup_delete_ne by discriminate. apply lookup_delete_eq.
    - apply ClientProperties.negative_verdict_no_token. exact Hverdict. }
  rewrite (attach_nothing ls c Hnone).
  split; [reflexivity | apply no_header; exact Hc].
Qed.

Lemma dropped_credentials_are_not_sent_witness :
  AuthProvider.attach
    (AuthProvider.storage
       (AuthProvider.logout (AuthProvider.Resolved tt)
          {| AuthProvider.storage :=
               @AuthProvider.store_session ClientProperties.sample_browser "T1" 5 ∅;
             AuthProvider.user := Some MiddlewareContract.alice_public |}))
    {| url := Some "/auth/me"; _retry := false; Authorization := None |}
  = {| url := Some "/auth/me"; _retry := false; Authorization := None |}
  /\ @authenticate Sample.platform MiddlewareContract.only_alice
       (wire (AuthProvider.attach
                (AuthProvider.storage
                   (AuthProvider.logout (AuthProvider.Resolved tt)
                      {| AuthProvider.storage :=
                           @AuthProvider.store_session
                             ClientProperties.sample_browser "T1" 5 ∅;
                         AuthProvider.user := Some MiddlewareContract.alice_public |}))
                {| url := Some "/auth/me"; _retry := false;
                   Authorization := None |})) 1000
     = Respond (reply 401 (JError "未提供认证令牌" None)).
Proof.
  apply (@dropped_credentials_are_not_sent ClientProperties.sample_browser
           Sample.platform MiddlewareContract.only_alice
           {| AuthProvider.storage :=
                @AuthProvider.store_session ClientProperties.sample_browser "T1" 5 ∅;
              AuthProvider.user := Some MiddlewareContract.alice_public |}
           {| url := Some "/auth/me"; _retry := false; Authorization := None |}
           0%Z 1000%Z).
  - reflexivity.
  - left. reflexivity.
Defined.

End ClientServer.

(** * Which requests the interceptor replays *)

Module ReplayGuard.
Import Js AuthContext.

(** The handler awaiting the refresh holds a request it has marked with
    [_retry]; the queued requests are unmarked ones. *)
Definition marked (st : State) : Prop :=
  Forall (fun c => _retry c = true) (awaiting st)
  /\ Forall (fun c => _retry c = false) (failedQueue st).

(** What a step may replay. *)
Definition replays_ok (effs : list Effect) : Prop :=
  Forall (fun e => match e with
                   | Retry c => _retry c = true
                   | Resume c => _retry c = false
                   | _ => True
                   end) effs.

Lemma marked_init : marked init.
Proof. split; constructor. Qed.

Lemma renewable_unmarked (error : AxiosError) :
  renewable error = true -> _retry (config error) = false.
Proof.
  unfold renewable. intros Hren. apply andb_true_iff in Hren as [_ Hr].
  destruct (_retry (config error)); [discriminate | reflexivity].
Qed.

Lemma rejected_once (c : Config) (status : option nat) (st : State) :
  _retry c = true ->
  onRejected {| config := c; response := status |} st = (st, [Reject c]).
Proof.
  intros Hc. unfold onRejected, renewable. cbn [config response].
  rewrite Hc, andb_false_r. destruct status; reflexivity.
Qed.

Lemma onRejected_marked (error : AxiosError) (st : State) :
  marked st ->
  marked (fst (onRejected error st)) /\ replays_ok (snd (onRejected error st)).
Proof.
  intros [Ha Hq]. unfold onRejected.
  destruct (response error) as [code|];
    [|split; [split; assumption | repeat constructor]].
  destruct (renewable error) eqn:Hren;
    [|split; [split; assumption | repeat constructor]].
  destruct (is_auth_entry (config error));
    [split; [split; assumption | repeat constructor]|].
  apply renewable_unmarked in Hren.
  destruct (isRefreshing st); cbn [fst snd].
  - split; [|constructor]. split; cbn [awaiting failedQueue]; [exact Ha|].
    apply Forall_app. split; [exact Hq|]. repeat constructor. exact Hren.
  - split; [|repeat constructor]. split; cbn [awaiting failedQueue]; [|exact Hq].
    apply Forall_app. split; [exact Ha|]. repeat constructor.
Qed.

Lemma processQueue_replays (error token : option string) (queue : list Config) :
  Forall (fun c => _retry c = false) queue ->
  replays_ok (processQueue error token queue).
Proof.
  intros Hq. unfold replays_ok, processQueue. apply List.Forall_map.
  eapply List.Forall_impl; [|exact Hq].
  intros c Hc. destruct error; [exact I | exact Hc].
Qed.

Lemma resume_marked (c : Config) (r : Settled) (st : State) :
  _retry c = true -> marked st ->
  marked (fst (resume c r st)) /\ replays_ok (snd (resume c r st)).
Proof.
  intros Hc [Ha Hq]. destruct r as [newToken | refreshError];
    cbn [resume fst snd]; (split; [split; [exact Ha | constructor]|]);
    apply Forall_app; (split; [apply processQueue_replays; exact Hq|]);
    repeat constructor. exact Hc.
Qed.

Lemma step_marked (st st' : State) (ev : Event) (effs : list Effect) :
  marked st -> step st ev = Some (st', effs) -> marked st' /\ replays_ok effs.
Proof.
  intros Hm Hstep. destruct ev as [error | i r]; cbn [step] in Hstep.
  - injection Hstep as Hstep.
    pose proof (onRejected_marked error st Hm) as Hnext.
    rewrite Hstep in Hnext. exact Hnext.
  - destruct (awaiting st !! i) as [c|] eqn:Hi; [|discriminate].
    injection Hstep as Hstep. destruct Hm as [Ha Hq].
    assert (Hc : _retry c = true).
    { rewrite List.Forall_forall in Ha. apply Ha.
      apply list_elem_of_In. eapply list_elem_of_lookup_2. exact Hi. }
    pose proof (resume_marked c r
                  {| isRefreshing := isRefreshing st;
                     failedQueue := failedQueue st;
                     awaiting := delete i (awaiting st) |} Hc) as Hnext.
    rewrite Hstep in Hnext. apply Hnext. split; cbn [awaiting failedQueue].
    + apply Forall_delete. exact Ha.
    + exact Hq.
Qed.

Lemma run_marked (evs : list Event) :
  forall st st' trace,
    marked st -> run evs st = Some (st', trace) ->
    marked st' /\ replays_ok (concat trace).
Proof.
  induction evs as [|ev evs IH]; intros st st' trace Hm Hrun.
  - injection Hrun as <- <-. split; [exact Hm | constructor].
  - cbn [run] in Hrun.
    destruct (step st ev) as [[st1 effs]|] eqn:Hstep; [|discriminate].
    cbn in Hrun.
    destruct (run evs st1) as [[st2 trace']|] eqn:Hrest; [|discriminate].
    cbn in Hrun. injection Hrun as <- <-.
    destruct (step_marked st st1 ev effs Hm Hstep) as [Hm1 Heffs].
    destruct (IH st1 st2 trace' Hm1 Hrest) as [Hm2 Htrace].
    split; [exact Hm2|]. cbn [concat]. apply Forall_app.
    split; assumption.
Qed.

(** The replay guard: in every run of the interceptor from its initial
    state, a request replayed by the handler that ran the refresh carries
    [_retry], and its failure, with whatever status and in whatever state,
    is passed on with no further refresh and no change of state; a request
    woken from the queue is replayed without [_retry]. *)
Theorem replay_guard (evs : list Event) (st : State)
    (trace : list (list Effect)) :
  run evs init = Some (st, trace) ->
  (forall c, In (Retry c) (concat trace) ->
     _retry c = true
     /\ forall status st0,
          onRejected {| config := c; response := status |} st0
          = (st0, [Reject c]))
  /\ (forall c, In (Resume c) (concat trace) -> _retry c = false).
Proof.
  intros Hrun.
  destruct (run_marked evs init st trace marked_init Hrun) as [_ Htrace].
  unfold replays_ok in Htrace. rewrite List.Forall_forall in Htrace.
  split.
  - intros c Hin. pose proof (Htrace _ Hin) as Hc. cbn in Hc.
    split; [exact Hc|]. intros status st0. apply rejected_once. exact Hc.
  - intros c Hin. exact (Htrace _ Hin).
Qed.

Lemma replay_guard_witness :
  run SingleFlight.two_failures init
  = Some (init, SingleFlight.two_failures_trace)
  /\ _retry (set_bearer "T2" (set_retry SingleFlight.get_recordings)) = true
  /\ onRejected
       {| config := set_bearer "T2" (set_retry SingleFlight.get_recordings);
          response := Some 401%nat |} init
     = (init, [Reject (set_bearer "T2" (set_retry SingleFlight.get_recordings))])
  /\ _retry (set_bearer "T2" SingleFlight.get_me) = false.
Proof.
  assert (Hrun : run SingleFlight.two_failures init
                 = Some (init, SingleFlight.two_failures_trace))
    by (vm_compute; reflexivity).
  destruct (replay_guard SingleFlight.two_failures init
              SingleFlight.two_failures_trace Hrun) as [Hretry Hresume].
  destruct (Hretry (set_bearer "T2" (set_retry SingleFlight.get_recordings)))
    as [Hmark Hpass]; [cbn; auto|].
  split; [exact Hrun|]. split; [exact Hmark|].
  split; [apply Hpass|].
  apply Hresume. cbn. auto.
Defined.

End ReplayGuard.

(** * config/memoryDb: the recordings

    [recordings] is a [Map] from [_id] to the recording, kept in insertion
    order as the users are.  A field that the data may leave out is an
    option.  [findOneAndUpdate] changes the object it found, which is the
    value of the first entry, in insertion order, that the query selects.
    Its [$set] is the one the recording controller builds: the
    [transcription] and the [analysis], each present or not.  The numbers
    given to [limit] and [skip] are integers. *)

Module UserRecordingModel.
Record t := {
  _id : string;
  userId : option string;
  recordingId : option string;
  fileName : option string;
  filePath : option string;
  fileSize : option Z;
  duration : option Z;
  transcription : option string;
  analysis : option string;
  createdAt : Z;
  updatedAt : Z
}.
End UserRecordingModel.

Module Recordings.
Import UserRecordingModel.

Definition Store : Type := list (string * t).

Record Data := {
  data_userId : option string;
  data_recordingId : option string;
  data_fileName : option string;
  data_filePath : option string;
  data_fileSize : option Z;
  data_duration : option Z;
  data_transcription : option string;
  data_analysis : option string
}.

(** [new UserRecordingModel(data)] *)
Definition UserRecording_new (uuid : string) (now : Z) (data : Data) : t :=
  {| _id := uuid;
     userId := data_userId data;
     recordingId := data_recordingId data;
     fileName := data_fileName data;
     filePath := data_filePath data;
     fileSize := data_fileSize data;
     duration := data_duration data;
     transcription := data_transcription data;
     analysis := data_analysis data;
     createdAt := now;
     updatedAt := now |}.

(** [this.save()] *)
Definition save (this : t) (s : Store) : Store :=
  MemoryDb.map_set (_id this) this s.

(** The query object [{ _id, userId }]; [find] and [countDocuments] read
    its [userId] only. *)
Record Query := {
  q_id : option string;
  q_userId : option string
}.

(** [recordings.values()] *)
Definition values (s : Store) : list t := List.map snd s.

Definition owned (query : Query) (recording : t) : bool :=
  bool_decide (userId recording = q_userId query).

(** The [results] array of [find]. *)
Definition results (query : Query) (s : Store) : list t :=
  List.filter (owned query) (values s).

(** [Array.prototype.slice(start, end)] *)
Definition slice {A} (start stop : Z) (l : list A) : list A :=
  let len := Z.of_nat (length l) in
  let relative (i : Z) :=
    if (i <? 0)%Z then Z.max (len + i) 0 else Z.min i len in
  let k := relative start in
  let final := relative stop in
  take (Z.to_nat (final - k)) (drop (Z.to_nat k) l).

(** [UserRecordingModel.find(query).sort(_).limit(n).skip(s)]: [sort]
    ignores its argument. *)
Definition find (query : Query) (n s : Z) (store : Store) : list t :=
  slice s (s + n) (results query store).

(** [UserRecordingModel.countDocuments(query)] *)
Definition countDocuments (query : Query) (s : Store) : nat :=
  length (results query s).

Definition selected (query : Query) (recording : t) : bool :=
  bool_decide (Some (_id recording) = q_id query) && owned query recording.

(** [UserRecordingModel.findOne(query)] *)
Definition findOne (query : Query) (s : Store) : option t :=
  List.find (selected query) (values s).

(** [update.$set] *)
Record SetFields := {
  set_transcription : option string;
  set_analysis : option string
}.

(** [Object.assign(recording, update.$set)] *)
Definition assign (fields : SetFields) (recording : t) : t :=
  {| _id := _id recording;
     userId := userId recording;
     recordingId := recordingId recording;
     fileName := fileName recording;
     filePath := filePath recording;
     fileSize := fileSize recording;
     duration := duration recording;
     transcription := match set_transcription fields with
                      | Some v => Some v
                      | None => transcription recording
                      end;
     analysis := match set_analysis fields with
                 | Some v => Some v
                 | None => analysis recording
                 end;
     createdAt := createdAt recording;
     updatedAt := updatedAt recording |}.

Definition set_updatedAt (now : Z) (recording : t) : t :=
  {| _id := _id recording;
     userId := userId recording;
     recordingId := recordingId recording;
     fileName := fileName recording;
     filePath := filePath recording;
     fileSize := fileSize recording;
     duration := duration recording;
     transcription := transcription recording;
     analysis := analysis recording;
     createdAt := createdAt recording;
     updatedAt := now |}.

(** The store once the object that [findOne] returns has been changed to
    [v]. *)
Fixpoint mutate (query : Query) (v : t) (s : Store) : Store :=
  match s with
  | [] => []
  | (k, recording) :: s' =>
      if selected query recording then (k, v) :: s'
      else (k, recording) :: mutate query v s'
  end.

(** [UserRecordingModel.findOneAndUpdate(query, update, options)] *)
Definition findOneAndUpdate (query : Query) (update_set : option SetFields)
    (now : Z) (s : Store) : option t * Store :=
  match findOne query s with
  | Some recording =>
      let recording' :=
        set_updatedAt now
          (match update_set with
           | Some fields => assign fields recording
           | None => recording
           end) in
      (Some recording', mutate query recording' s)
  | None => (None, s)
  end.

(** [Map.prototype.delete] *)
Definition map_delete {V} (k : string) (m : list (string * V))
    : list (string * V) :=
  List.filter (fun kv => negb (String.eqb (fst kv) k)) m.

(** [UserRecordingModel.findOneAndDelete(query)] *)
Definition findOneAndDelete (query : Query) (s : Store) : option t * Store :=
  match findOne query s with
  | Some recording => (Some recording, map_delete (_id recording) s)
  | None => (None, s)
  end.

End Recordings.

Module RecordingProperties.
Import UserRecordingModel Recordings.

(** Every entry is kept under the [_id] of its recording, as [save]
    leaves it, and the keys of the map are distinct. *)
Definition keyed (s : Store) : Prop :=
  Forall (fun kv => fst kv = _id (snd kv)) s /\ NoDup (List.map fst s).

Definition by_id (recording : t) : Query :=
  {| q_id := Some (_id recording); q_userId := userId recording |}.

Lemma selected_by_id (recording : t) : selected (by_id recording) recording = true.
Proof.
  unfold selected, owned, by_id. cbn.
  rewrite !bool_decide_eq_true_2 by reflexivity. reflexivity.
Qed.

Lemma selected_id (query : Query) (recording : t) :
  selected query recording = true ->
  Some (_id recording) = q_id query /\ userId recording = q_userId query.
Proof.
  unfold selected, owned. intros Hsel. apply andb_true_iff in Hsel as [Hi Hu].
  apply bool_decide_eq_true in Hi. apply bool_decide_eq_true in Hu.
  split; assumption.
Qed.

Lemma selected_other_id (query : Query) (recording : t) :
  Some (_id recording) <> q_id query -> selected query recording = false.
Proof.
  intros Hne. unfold selected. rewrite bool_decide_eq_false_2 by exact Hne.
  reflexivity.
Qed.

Lemma map_set_keys (k k' : string) (v : t) (s : Store) :
  k' ∈ List.map fst (MemoryDb.map_set k v s) -> k' = k \/ k' ∈ List.map fst s.
Proof.
  induction s as [|[k0 v0] s IH]; cbn.
  - intros Hin. apply list_elem_of_singleton in Hin. left. exact Hin.
  - destruct (String.eqb_spec k0 k) as [->|Hne]; cbn; intros Hin;
      apply elem_of_cons in Hin as [-> | Hin].
    + left. reflexivity.
    + right. apply elem_of_cons. right. exact Hin.
    + right. apply elem_of_cons. left. reflexivity.
    + destruct (IH Hin) as [-> | Hin']; [left; reflexivity|].
      right. apply elem_of_cons. right. exact Hin'.
Qed.

Lemma save_keyed (recording : t) (s : Store) :
  keyed s -> keyed (save recording s).
Proof.
  unfold keyed, save. induction s as [|[k0 v0] s IH]; cbn.
  - intros _. split; [repeat constructor|].
    apply list.NoDup_cons. split; [apply not_elem_of_nil | constructor].
  - intros [Hkeys Hnd]. apply list.Forall_cons in Hkeys as [Hk Hkeys].
    apply list.NoDup_cons in Hnd as [Hfresh Hnd].
    destruct (String.eqb_spec k0 (_id recording)) as [->|Hne]; cbn.
    + split; [constructor; [reflexivity | exact Hkeys]|].
      apply list.NoDup_cons. split; assumption.
    + destruct (IH (conj Hkeys Hnd)) as [Hkeys' Hnd'].
      split; [constructor; assumption|].
      apply list.NoDup_cons. split; [|exact Hnd'].
      intros Hin. apply map_set_keys in Hin as [-> | Hin]; [|contradiction].
      apply Hne. reflexivity.
Qed.

Lemma findOne_save (recording : t) (s : Store) :
  keyed s -> findOne (by_id recording) (save recording s) = Some recording.
Proof.
  unfold keyed, save, findOne, values.
  induction s as [|[k0 v0] s IH]; cbn.
  - intros _. rewrite selected_by_id. reflexivity.
  - intros [Hkeys Hnd]. apply list.Forall_cons in Hkeys as [Hk Hkeys].
    apply list.NoDup_cons in Hnd as [Hfresh Hnd]. cbn in Hk.
    destruct (String.eqb_spec k0 (_id recording)) as [->|Hne]; cbn.
    + rewrite selected_by_id. reflexivity.
    + rewrite selected_other_id; [apply IH; split; assumption|].
      cbn. intros [= Heq]. apply Hne. rewrite Hk. exact Heq.
Qed.

Lemma findOne_save_other (query : Query) (recording : t) (s : Store) :
  keyed s -> q_id query <> Some (_id recording) ->
  findOne query (save recording s) = findOne query s.
Proof.
  unfold keyed, save, findOne, values. intros Hs Hq.
  assert (Hmiss : selected query recording = false).
  { apply selected_other_id. intros Heq. apply Hq. symmetry. exact Heq. }
  induction s as [|[k0 v0] s IH]; cbn.
  - rewrite Hmiss. reflexivity.
  - destruct Hs as [Hkeys Hnd]. apply list.Forall_cons in Hkeys as [Hk Hkeys].
    apply list.NoDup_cons in Hnd as [Hfresh Hnd]. cbn in Hk.
    destruct (String.eqb_spec k0 (_id recording)) as [Heq|Hne]; cbn.
    + rewrite Hmiss. rewrite selected_other_id; [reflexivity|].
      rewrite <- Hk, Heq. intros Hsame. apply Hq. symmetry. exact Hsame.
    + rewrite (IH (conj Hkeys Hnd)). reflexivity.
Qed.

(** Round trip of [save] and [findOne]: a saved recording is found by its
    [_id] and its owner, whether it is new or replaces the one saved under
    that [_id]; lookups under other ids find what they found before; and
    the map stays keyed by [_id]. *)
Theorem saved_recording_is_found (recording : t) (s : Store) :
  keyed s ->
  keyed (save recording s)
  /\ findOne (by_id recording) (save recording s) = Some recording
  /\ forall query, q_id query <> Some (_id recording) ->
       findOne query (save recording s) = findOne query s.
Proof.
  intros Hs. split; [apply save_keyed; exact Hs|].
  split; [apply findOne_save; exact Hs|].
  intros query Hq. apply findOne_save_other; assumption.
Qed.

(** Two recordings of user ["u1"] and one of user ["u2"]. *)
Definition recording_of (id owner : string) : t :=
  UserRecording_new id 0
    {| data_userId := Some owner;
       data_recordingId := Some id;
       data_fileName := Some "a.webm";
       data_filePath := Some "uploads/a.webm";
       data_fileSize := Some 1024%Z;
       data_duration := Some 3%Z;
       data_transcription := None;
       data_analysis := None |}.

Definition three_recordings : Store :=
  save (recording_of "r3" "u1")
    (save (recording_of "r2" "u2") (save (recording_of "r1" "u1") [])).

Lemma keyed_nil : keyed [].
Proof. split; constructor. Qed.

Lemma three_recordings_keyed : keyed three_recordings.
Proof. unfold three_recordings. repeat apply save_keyed. exact keyed_nil. Qed.

Lemma saved_recording_is_found_witness :
  keyed (save (recording_of "r2" "u1") three_recordings)
  /\ findOne {| q_id := Some "r2"; q_userId := Some "u1" |}
       (save (recording_of "r2" "u1") three_recordings)
     = Some (recording_of "r2" "u1")
  /\ findOne {| q_id := Some "r1"; q_userId := Some "u1" |}
       (save (recording_of "r2" "u1") three_recordings)
     = Some (recording_of "r1" "u1").
Proof.
  destruct (saved_recording_is_found (recording_of "r2" "u1") three_recordings
              three_recordings_keyed) as (Hkeyed & Hfound & Hothers).
  split; [exact Hkeyed|]. split; [exact Hfound|].
  rewrite Hothers; [vm_compute; reflexivity | vm_compute; discriminate].
Defined.

Lemma findOne_selected (query : Query) (s : Store) (recording : t) :
  findOne query s = Some recording ->
  In recording (values s) /\ selected query recording = true.
Proof. unfold findOne. apply List.find_some. Qed.



Lemma findOne_foreign (query : Query) (s : Store) :
  (forall recording, In recording (values s) ->
     Some (_id recording) = q_id query -> userId recording <> q_userId query) ->
  findOne query s = None.
Proof.
  intros Hothers. unfold findOne.
  destruct (List.find (selected query) (values s)) as [recording|] eqn:Hfound;
    [|reflexivity].
  apply List.find_some in Hfound as [Hin Hsel].
  apply selected_id in Hsel as [Hi Hu].
  destruct (Hothers recording Hin Hi Hu).
Qed.

(** Isolation: when the recording with the queried [_id] belongs to
    another user, [findOne], [findOneAndUpdate] and [findOneAndDelete]
    return [null], and the two that write leave the store as it was. *)
Theorem foreign_recordings_are_out_of_reach (query : Query)
    (update_set : option SetFields) (now : Z) (s : Store) :
  (forall recording, In recording (values s) ->
     Some (_id recording) = q_id query -> userId recording <> q_userId query) ->
  findOne query s = None
  /\ findOneAndUpdate query update_set now s = (None, s)
  /\ findOneAndDelete query s = (None, s).
Proof.
  intros Hothers. pose proof (findOne_foreign query s Hothers) as Hnone.
  unfold findOneAndUpdate, findOneAndDelete. rewrite Hnone.
  repeat split.
Qed.

Lemma foreign_recordings_are_out_of_reach_witness :
  findOne {| q_id := Some "r2"; q_userId := Some "u1" |} three_recordings = None
  /\ findOneAndUpdate {| q_id := Some "r2"; q_userId := Some "u1" |}
       (Some {| set_transcription := Some "hello"; set_analysis := None |})
       5 three_recordings
     = (None, three_recordings)
  /\ findOneAndDelete {| q_id := Some "r2"; q_userId := Some "u1" |}
       three_recordings
     = (None, three_recordings).
Proof.
  apply (foreign_recordings_are_out_of_reach
           {| q_id := Some "r2"; q_userId := Some "u1" |}
           (Some {| set_transcription := Some "hello"; set_analysis := None |})
           5%Z three_recordings).
  intros recording Hin Hid. vm_compute in Hin.
  destruct Hin as [<- | [<- | [<- | []]]]; vm_compute in Hid |- *;
    discriminate.
Defined.

Lemma map_delete_fresh (k : string) (s : Store) :
  k ∉ List.map fst s -> map_delete k s = s.
Proof.
  unfold map_delete. induction s as [|[k0 v0] s IH]; cbn; [reflexivity|].
  intros Hfresh. apply not_elem_of_cons in Hfresh as [Hne Hfresh].
  destruct (String.eqb_spec k0 k) as [->|_]; [contradiction|]. cbn.
  rewrite (IH Hfresh). reflexivity.
Qed.

Lemma values_keys (s : Store) (recording : t) :
  Forall (fun kv => fst kv = _id (snd kv)) s ->
  In recording (values s) -> _id recording ∈ List.map fst s.
Proof.
  intros Hkeys Hin. unfold values in Hin.
  apply List.in_map_iff in Hin as ([k v] & <- & Hin).
  rewrite List.Forall_forall in Hkeys. specialize (Hkeys _ Hin). cbn in *.
  rewrite <- Hkeys. apply list_elem_of_In.
  apply (List.in_map fst _ _ Hin).
Qed.

Lemma results_cons (query : Query) (k : string) (v : t) (s : Store) :
  countDocuments query ((k, v) :: s)
  = (if owned query v then 1 else 0) + countDocuments query s.
Proof.
  unfold countDocuments, results, values. cbn.
  destruct (owned query v); reflexivity.
Qed.

Lemma delete_found (query : Query) (recording : t) (s : Store) :
  keyed s -> findOne query s = Some recording ->
  keyed (map_delete (_id recording) s)
  /\ findOne query (map_delete (_id recording) s) = None
  /\ (forall query',
        countDocuments query' s
        = countDocuments query' (map_delete (_id recording) s)
          + (if owned query' recording then 1 else 0))
  /\ (forall query', q_id query' <> q_id query ->
        findOne query' (map_delete (_id recording) s) = findOne query' s).
Proof.
  induction s as [|[k0 v0] s IH]; [discriminate|].
  intros [Hkeys Hnd] Hfound.
  apply list.Forall_cons in Hkeys as [Hk Hkeys].
  cbn [List.map fst] in Hnd.
  apply list.NoDup_cons in Hnd as [Hfresh Hnd]. cbn in Hk.
  unfold findOne, values in Hfound. cbn in Hfound.
  destruct (selected query v0) eqn:Hsel.
  - injection Hfound as <-. subst k0.
    assert (Hs : map_delete (_id v0) ((_id v0, v0) :: s) = s).
    { unfold map_delete. cbn. rewrite String.eqb_refl. cbn.
      apply (map_delete_fresh _ s Hfresh). }
    rewrite Hs. apply selected_id in Hsel as [Hi Hu].
    split; [split; assumption|]. split.
    + apply findOne_foreign. intros r Hin Hr _.
      apply Hfresh. rewrite <- Hi in Hr. injection Hr as <-.
      apply values_keys; assumption.
    + split.
      * intros query'. rewrite results_cons. lia.
      * intros query' Hq. unfold findOne, values. cbn.
        rewrite selected_other_id; [reflexivity|].
        rewrite Hi. intros Heq. apply Hq. symmetry. exact Heq.
  - fold (values s) in Hfound. fold (findOne query s) in Hfound.
    destruct (IH (conj Hkeys Hnd) Hfound) as (Hkeyed & Hgone & Hcount & Hrest).
    apply findOne_selected in Hfound as [Hin _].
    pose proof (values_keys s recording Hkeys Hin) as Hkey.
    assert (Hs : map_delete (_id recording) ((k0, v0) :: s)
                 = (k0, v0) :: map_delete (_id recording) s).
    { unfold map_delete. cbn.
      destruct (String.eqb_spec k0 (_id recording)) as [Heq|_]; [|reflexivity].
      rewrite Heq in Hfresh. contradiction. }
    rewrite Hs. destruct Hkeyed as [Hkeys' Hnd'].
    split; [split|].
    + constructor; assumption.
    + cbn [List.map fst]. apply list.NoDup_cons. split; [|exact Hnd'].
      intros Hin'. apply Hfresh.
      apply list_elem_of_In in Hin'. apply list_elem_of_In.
      apply List.in_map_iff in Hin' as (kv & Hkv & Hin').
      apply List.in_map_iff. exists kv. split; [exact Hkv|].
      unfold map_delete in Hin'. apply List.filter_In in Hin' as [Hin' _].
      exact Hin'.
    + split.
      * unfold findOne, values. cbn. rewrite Hsel. exact Hgone.
      * split.
        -- intros query'. rewrite !results_cons, (Hcount query'). lia.
        -- intros query' Hq. unfold findOne, values. cbn.
           destruct (selected query' v0); [reflexivity|].
           apply (Hrest query' Hq).
Qed.

(** [findOneAndDelete] on a map keyed by [_id]: the recording it returns
    is the one [findOne] finds; afterwards the same query finds nothing,
    every count has gone down by the one recording when it counted it,
    lookups under other ids are as before, and the map is still keyed by
    [_id]. *)
Theorem deleted_recording_is_gone (query : Query) (recording : t) (s : Store) :
  keyed s -> findOne query s = Some recording ->
  fst (findOneAndDelete query s) = Some recording
  /\ keyed (snd (findOneAndDelete query s))
  /\ findOne query (snd (findOneAndDelete query s)) = None
  /\ (forall query',
        countDocuments query' s
        = countDocuments query' (snd (findOneAndDelete query s))
          + (if owned query' recording then 1 else 0))
  /\ (forall query', q_id query' <> q_id query ->
        findOne query' (snd (findOneAndDelete query s)) = findOne query' s).
Proof.
  intros Hs Hfound. unfold findOneAndDelete. rewrite Hfound. cbn [fst snd].
  split; [reflexivity|]. apply delete_found; assumption.
Qed.

Lemma deleted_recording_is_gone_witness :
  fst (findOneAndDelete {| q_id := Some "r1"; q_userId := Some "u1" |}
         three_recordings) = Some (recording_of "r1" "u1")
  /\ findOne {| q_id := Some "r1"; q_userId := Some "u1" |}
       (snd (findOneAndDelete {| q_id := Some "r1"; q_userId := Some "u1" |}
               three_recordings)) = None
  /\ countDocuments {| q_id := None; q_userId := Some "u1" |}
       (snd (findOneAndDelete {| q_id := Some "r1"; q_userId := Some "u1" |}
               three_recordings)) = 1.
Proof.
  destruct (deleted_recording_is_gone
              {| q_id := Some "r1"; q_userId := Some "u1" |}
              (recording_of "r1" "u1") three_recordings
              three_recordings_keyed)
    as (Hreturned & _ & Hgone & Hcount & _); [vm_compute; reflexivity|].
  split; [exact Hreturned|]. split; [exact Hgone|].
  specialize (Hcount {| q_id := None; q_userId := Some "u1" |}).
  vm_compute in Hcount |- *. reflexivity.
Defined.

(** The recording [findOneAndUpdate] returns for the one it found. *)
Definition updated (update_set : option SetFields) (now : Z) (recording : t) : t :=
  set_updatedAt now
    (match update_set with
     | Some fields => assign fields recording
     | None => recording
     end).

Lemma updated_identity (update_set : option SetFields) (now : Z) (recording : t) :
  _id (updated update_set now recording) = _id recording
  /\ userId (updated update_set now recording) = userId recording.
Proof. destruct update_set; split; reflexivity. Qed.

Lemma selected_updated (query : Query) (update_set : option SetFields) (now : Z)
    (recording : t) :
  selected query (updated update_set now recording) = selected query recording.
Proof.
  unfold selected, owned.
  destruct (updated_identity update_set now recording) as [-> ->]. reflexivity.
Qed.

Lemma findOne_cons (query : Query) (k : string) (v : t) (s : Store) :
  findOne query ((k, v) :: s)
  = if selected query v then Some v else findOne query s.
Proof. reflexivity. Qed.

Lemma mutate_found (query : Query) (update_set : option SetFields) (now : Z)
    (recording : t) (s : Store) :
  findOne query s = Some recording ->
  findOne query (mutate query (updated update_set now recording) s)
  = Some (updated update_set now recording)
  /\ List.map fst (mutate query (updated update_set now recording) s)
     = List.map fst s
  /\ (forall query',
        countDocuments query'
          (mutate query (updated update_set now recording) s)
        = countDocuments query' s)
  /\ (forall query',
        findOne query' (mutate query (updated update_set now recording) s)
        = if selected query' recording
          then match findOne query' s with
               | Some r => Some (if selected query r
                                 then updated update_set now recording
                                 else r)
               | None => None
               end
          else findOne query' s).
Proof.
  induction s as [|[k0 v0] s IH]; [discriminate|].
  rewrite findOne_cons. cbn [mutate]. destruct (selected query v0) eqn:Hsel.
  - intros [= ->]. rewrite findOne_cons, selected_updated, Hsel.
    split; [reflexivity|]. split; [reflexivity|]. split.
    + intros query'. rewrite !results_cons. unfold owned.
      destruct (updated_identity update_set now recording) as [_ ->].
      reflexivity.
    + intros query'. rewrite !findOne_cons, selected_updated.
      destruct (selected query' recording); [rewrite Hsel|]; reflexivity.
  - intros Hfound.
    destruct (IH Hfound) as (Hsame & Hkeys & Hcount & Hrest).
    rewrite findOne_cons, Hsel.
    split; [exact Hsame|]. split; [cbn; rewrite Hkeys; reflexivity|]. split.
    + intros query'. rewrite !results_cons, (Hcount query'). reflexivity.
    + intros query'. rewrite !findOne_cons.
      destruct (selected query' v0) eqn:Hsel'.
      * rewrite Hsel. destruct (selected query' recording); reflexivity.
      * apply Hrest.
Qed.

(** [findOneAndUpdate] changes the recording in place: the recording it
    returns keeps its [_id], its owner and its creation time, carries the
    given [transcription] and [analysis] where [$set] has them and the old
    ones where it has not, and is what the same query finds afterwards;
    the keys of the map and every count are as before. *)
Theorem update_in_place (query : Query) (update_set : option SetFields)
    (now : Z) (recording : t) (s : Store) :
  findOne query s = Some recording ->
  exists recording',
    findOneAndUpdate query update_set now s
    = (Some recording', mutate query recording' s)
    /\ _id recording' = _id recording
    /\ userId recording' = userId recording
    /\ createdAt recording' = createdAt recording
    /\ updatedAt recording' = now
    /\ transcription recording'
       = match update_set with
         | Some {| set_transcription := Some v |} => Some v
         | _ => transcription recording
         end
    /\ analysis recording'
       = match update_set with
         | Some {| set_analysis := Some v |} => Some v
         | _ => analysis recording
         end
    /\ findOne query (mutate query recording' s) = Some recording'
    /\ List.map fst (mutate query recording' s) = List.map fst s
    /\ forall query',
         countDocuments query' (mutate query recording' s)
         = countDocuments query' s.
Proof.
  intros Hfound. exists (updated update_set now recording).
  destruct (mutate_found query update_set now recording s Hfound)
    as (Hsame & Hkeys & Hcount & _).
  unfold findOneAndUpdate. rewrite Hfound. fold (updated update_set now recording).
  split; [reflexivity|].
  split; [destruct update_set; reflexivity|].
  split; [destruct update_set; reflexivity|].
  split; [destruct update_set; reflexivity|].
  split; [reflexivity|].
  split; [destruct update_set as [[[v|] a]|]; reflexivity|].
  split; [destruct update_set as [[tr [v|]]|]; reflexivity|].
  split; [exact Hsame|]. split; [exact Hkeys | exact Hcount].
Qed.

Lemma update_in_place_witness :
  exists recording',
    findOneAndUpdate {| q_id := Some "r1"; q_userId := Some "u1" |}
      (Some {| set_transcription := Some "hello"; set_analysis := None |})
      5 three_recordings
    = (Some recording',
       mutate {| q_id := Some "r1"; q_userId := Some "u1" |} recording'
         three_recordings)
    /\ transcription recording' = Some "hello"
    /\ analysis recording' = None
    /\ updatedAt recording' = 5%Z.
Proof.
  destruct (update_in_place {| q_id := Some "r1"; q_userId := Some "u1" |}
              (Some {| set_transcription := Some "hello"; set_analysis := None |})
              5%Z (recording_of "r1" "u1") three_recordings)
    as (recording' & Hupdate & _ & _ & _ & Htime & Htr & Han & _);
    [vm_compute; reflexivity|].
  exists recording'. split; [exact Hupdate|].
  split; [exact Htr|]. split; [exact Han | exact Htime].
Defined.




End RecordingProperties.

(** * [GET /me] *)

Module MeRoute.
Import Js Http JwtUtils JwtUtilsFacts AuthMiddleware Middleware AuthController.

(** [router.get('/me', authenticate, getCurrentUser)]: the handler runs on
    the request that the middleware passes on. *)
Definition get_me `{Platform} (lookup : string -> Lookup) (req : Request)
    (now : Z) : Response :=
  match authenticate lookup req now with
  | Next req' => getCurrentUser req'
  | Respond res => res
  end.

(** The request carries a bearer token that verifies, for a user the
    lookup finds. *)
Definition presents `{Platform} (lookup : string -> Lookup) (req : Request)
    (now : Z) (u : MemoryDb.PublicUser) : Prop :=
  exists token decoded,
    bearer req = Some token
    /\ verifyAccessToken token now = Return decoded
    /\ lookup (Jwt.userId decoded) = Found u.

(** [GET /me] answers 200 exactly when the request carries a bearer token
    that verifies for a user the lookup finds, and the body is then that
    user, whatever [req.user] held on arrival; every other request is
    answered 401 or 500 by the middleware. *)
Theorem me_answers_the_token_holder `{Platform} (lookup : string -> Lookup)
    (req : Request) (now : Z) :
  (forall u, presents lookup req now u ->
     get_me lookup req now = reply 200 (JUser (Some u)))
  /\ (status (get_me lookup req now) = 200%nat ->
      exists u, presents lookup req now u)
  /\ (status (get_me lookup req now) = 200%nat
      \/ status (get_me lookup req now) = 401%nat
      \/ status (get_me lookup req now) = 500%nat).
Proof.
  unfold get_me, presents.
  destruct (bearer req) as [token|] eqn:Hb.
  - rewrite (authenticate_bearer lookup req now token Hb).
    destruct (verifyAccessToken token now) as [decoded | error] eqn:Hv.
    + destruct (lookup (Jwt.userId decoded)) as [u | | m] eqn:Hl.
      * split; [|split].
        -- intros u' (token' & decoded' & [= <-] & Hv' & Hl').
           rewrite Hv in Hv'. injection Hv' as <-.
           rewrite Hl in Hl'. injection Hl' as <-. reflexivity.
        -- intros _. exists u, token, decoded. repeat split; assumption.
        -- left. reflexivity.
      * split; [|split].
        -- intros u' (token' & decoded' & [= <-] & Hv' & Hl').
           rewrite Hv in Hv'. injection Hv' as <-.
           rewrite Hl in Hl'. discriminate.
        -- cbn. discriminate.
        -- right. left. reflexivity.
      * split; [|split].
        -- intros u' (token' & decoded' & [= <-] & Hv' & Hl').
           rewrite Hv in Hv'. injection Hv' as <-.
           rewrite Hl in Hl'. discriminate.
        -- cbn. discriminate.
        -- right. right. reflexivity.
    + split; [|split].
      * intros u' (token' & decoded' & [= <-] & Hv' & _).
        rewrite Hv in Hv'. discriminate.
      * destruct (String.eqb (name error) "TokenExpiredError");
          [cbn; discriminate|].
        destruct (String.eqb (name error) "JsonWebTokenError");
          cbn; discriminate.
      * destruct (String.eqb (name error) "TokenExpiredError");
          [right; left; reflexivity|].
        destruct (String.eqb (name error) "JsonWebTokenError");
          [right; left; reflexivity | right; right; reflexivity].
  - apply bearer_None in Hb as Hhas. unfold authenticate. rewrite Hhas.
    cbn [negb]. split; [|split].
    + intros u' (token' & decoded' & Hb' & _). discriminate.
    + cbn. discriminate.
    + right. left. reflexivity.
Qed.

End MeRoute.
